(** * The shader source registry of [src/client/shader.cpp]

    A shallow embedding of [SourceShaderCache], [MainShaderConstantSetter] and
    [ShaderSource] (the cache of generated shader materials, its generator and
    its rebuild), with the properties of the registry proved over it.

    Conventions of the embedding:
    - [u32] and [s32] values are [Z]; the one place where the source narrows a
      [size_t] to [u32] (the id of an appended record) has its wrap-around
      written out ([to_u32]);
    - [float] is [spec_float] with the IEEE comparison [SFeqb]: a NaN differs
      from every value, itself included, and the two zeros are equal;
    - [std::string] is [string]; [StringMap] and the path cache are [gmap];
    - the object's fields, the global path cache, the calls made on the GPU
      services and the lines written to the log streams make up [State];
      member functions are computations in the monad [M], which threads the
      state and carries a thrown [ShaderException] or a failed assertion;
    - the video driver, the settings, the file system, [gettext] and the
      stream formatting of floats are read from a [Platform] record;
    - [m_shaderinfo_cache_mutex] orders accesses of several threads and has no
      counterpart here: every operation is one atomic step, and the calling
      thread is an argument of the operations that look at it. *)

From Stdlib Require Import ZArith Lia Ascii String.
From Stdlib Require Import Floats.SpecFloat.
From Stdlib Require Import DecimalString.
From stdpp Require Import base gmap strings list sorting.

Local Open Scope Z_scope.
Local Open Scope string_scope.

(** ** Characters and text *)

Definition char_nl : ascii := Ascii.ascii_of_nat 10.
Definition char_tab : ascii := Ascii.ascii_of_nat 9.
Definition char_dquote : ascii := Ascii.ascii_of_nat 34.

Definition nl : string := String char_nl EmptyString.
Definition dquote : string := String char_dquote EmptyString.

Fixpoint tabs (n : nat) : string :=
  match n with
  | O => EmptyString
  | S n' => String char_tab (tabs n')
  end.

(** One line of a raw string literal: [n] tabs, the text, a newline. *)
Definition raw_line (n : nat) (text : string) : string :=
  tabs n +:+ text +:+ nl.

(** [os << int]: the decimal digits, with a minus sign when negative. *)
Definition put_int (z : Z) : string :=
  NilZero.string_of_int (Z.to_int z).

(** [std::isspace] in the C locale. *)
Definition isspace (c : ascii) : bool :=
  let n := Ascii.nat_of_ascii c in
  (n =? 32)%nat || ((9 <=? n)%nat && (n <=? 13)%nat).

Fixpoint drop_leading_space (s : string) : string :=
  match s with
  | EmptyString => EmptyString
  | String c rest => if isspace c then drop_leading_space rest else s
  end.

Fixpoint drop_trailing_space (s : string) : string :=
  match s with
  | EmptyString => EmptyString
  | String c rest =>
      match drop_trailing_space rest with
      | EmptyString => if isspace c then EmptyString else String c EmptyString
      | rest' => String c rest'
      end
  end.

(** Modelled from the spec: [trim] of util/string.h, which is not part of this
    file; a key is "already trimmed" when it has no leading and no trailing
    whitespace, so [trim] removes exactly those. *)
Definition trim (s : string) : string :=
  drop_trailing_space (drop_leading_space s).

(** [strstr(haystack, needle) != NULL]. *)
Fixpoint strstr (haystack needle : string) : bool :=
  String.prefix needle haystack ||
  match haystack with
  | EmptyString => false
  | String _ rest => strstr rest needle
  end.

(** ** Shader constants *)

(** Modelled from the spec: [ShaderConstants] is declared in shader.h, not in
    this file.  [putConstant] reads its mapped type with [std::get_if<int>] and
    [std::get<float>], so a constant is a tagged union of an [int] and a
    [float]; the container is an ordered map keyed by the macro name, walked in
    ascending key order, and compared with [operator==].  The order of the
    walk shows in the order of the pairs of the log name and of the [#define]
    lines only; the comparison of two sets does not depend on it. *)
Inductive ConstantValue : Type :=
  | CInt (i : Z)
  | CFloat (f : spec_float).

Abbreviation ShaderConstants := (gmap string ConstantValue).

(** [operator==] of the variant: the same alternative, holding values that
    compare equal with [==]. *)
Definition value_eqb (a b : ConstantValue) : bool :=
  match a, b with
  | CInt x, CInt y => Z.eqb x y
  | CFloat x, CFloat y => SFeqb x y
  | _, _ => false
  end.

Definition entry_eqb (a b : string * ConstantValue) : bool :=
  String.eqb a.1 b.1 && value_eqb a.2 b.2.

Definition key_le (a b : string * ConstantValue) : Prop :=
  String.leb a.1 b.1 = true.

#[global] Instance key_le_dec (a b : string * ConstantValue) :
  Decision (key_le a b) := bool_eq_dec (String.leb a.1 b.1) true.

(** The entries in iteration order ([begin()] to [end()]). *)
Definition entries (c : ShaderConstants) : list (string * ConstantValue) :=
  merge_sort key_le (map_to_list c).

(** [std::equal] over two ranges of the same length. *)
Fixpoint entries_eqb (l1 l2 : list (string * ConstantValue)) : bool :=
  match l1, l2 with
  | [], [] => true
  | a :: l1', b :: l2' => entry_eqb a b && entries_eqb l1' l2'
  | _, _ => false
  end.

(** [operator==] of the map: equal sizes and pairwise equal entries. *)
Definition constants_eqb (c1 c2 : ShaderConstants) : bool :=
  entries_eqb (entries c1) (entries c2).

(** [constants[key] = value]. *)
Definition set_constant (key : string) (v : ConstantValue)
    (c : ShaderConstants) : ShaderConstants :=
  <[key := v]> c.

(** A float holds a NaN. *)
Definition is_nan (v : ConstantValue) : bool :=
  match v with
  | CFloat S754_nan => true
  | _ => false
  end.

(** ** Materials and records *)

(** Modelled from the spec: [video::E_MATERIAL_TYPE] is declared in the
    rendering library; it is an opaque blend-mode tag that also holds the
    [s32] token of a compiled material, so it is an integer here, with the
    built-in modes numbered in their order of declaration. *)
Definition E_MATERIAL_TYPE : Type := Z.

Definition EMT_SOLID : E_MATERIAL_TYPE := 0.
Definition EMT_TRANSPARENT_ALPHA_CHANNEL : E_MATERIAL_TYPE := 1.
Definition EMT_TRANSPARENT_ALPHA_CHANNEL_REF : E_MATERIAL_TYPE := 2.
Definition EMT_TRANSPARENT_VERTEX_ALPHA : E_MATERIAL_TYPE := 3.
Definition EMT_ONETEXTURE_BLEND : E_MATERIAL_TYPE := 4.

(** Modelled from the spec: [ShaderInfo] is declared in shader.h; a
    default-constructed record has an empty name, no constants and
    [EMT_SOLID] for both materials ("The id 0 points to a null shader. Its
    material is EMT_SOLID."). *)
Record ShaderInfo : Type := mkShaderInfo {
  name : string;
  base_material : E_MATERIAL_TYPE;
  material : E_MATERIAL_TYPE;
  input_constants : ShaderConstants
}.

Definition empty_ShaderInfo : ShaderInfo :=
  {| name := EmptyString;
     base_material := EMT_SOLID;
     material := EMT_SOLID;
     input_constants := ∅ |}.

(** ** The platform: driver, settings, files *)

(** Modelled from the spec: [video::E_DRIVER_TYPE] is declared in the
    rendering library.  The null driver has no shader support; [EDT_OGLES2]
    and [EDT_OPENGL3] are the fully programmable tier. *)
Inductive E_DRIVER_TYPE : Type :=
  | EDT_NULL
  | EDT_OPENGL
  | EDT_OPENGL3
  | EDT_OGLES2
  | EDT_WEBGL1.

Definition E_DRIVER_TYPE_eqb (a b : E_DRIVER_TYPE) : bool :=
  match a, b with
  | EDT_NULL, EDT_NULL
  | EDT_OPENGL, EDT_OPENGL
  | EDT_OPENGL3, EDT_OPENGL3
  | EDT_OGLES2, EDT_OGLES2
  | EDT_WEBGL1, EDT_WEBGL1 => true
  | _, _ => false
  end.

(** The reads made of [g_settings]. *)
Record Settings : Type := mkSettings {
  getBool : string -> bool;
  getS32 : string -> Z;
  getU16 : string -> Z;
  getFloat : string -> spec_float;
  get : string -> string
}.

(** [IShaderConstantSetter::onGenerate(name, constants)], which may rewrite
    the constants it is handed. *)
Definition IShaderConstantSetter : Type :=
  Settings -> string -> ShaderConstants -> ShaderConstants.

(** The factories of per-draw uniform setters are only stored and handed to
    the compiled program's callback. *)
Inductive IShaderUniformSetterFactory : Type :=
  | MainShaderUniformSetterFactory
  | OtherUniformSetterFactory (tag : nat).

(** The arguments of [IGPUProgrammingServices::addHighLevelShaderMaterial]
    that vary between calls. *)
Record CompileRequest : Type := mkCompileRequest {
  vertex_program : string;
  fragment_program : string;
  geometry_program : option string;
  shader_name : string;
  callback : list IShaderUniformSetterFactory;
  request_base_material : E_MATERIAL_TYPE
}.

(** The calls made on the GPU programming services, latest first. *)
Inductive GpuEvent : Type :=
  | GpuAdd (request : CompileRequest) (result : Z)
  | GpuDelete (m : E_MATERIAL_TYPE).

Record Platform : Type := mkPlatform {
  (* driver->getDriverType() *)
  getDriverType : E_DRIVER_TYPE;
  (* driver->queryFeature(video::EVDF_ARB_GLSL) *)
  queryFeature_ARB_GLSL : bool;
  (* driver->getGPUProgrammingServices() is not null *)
  has_gpu : bool;
  (* GL.GetString(GL.RENDERER) *)
  GL_RENDERER : string;
  (* the token the compiler returns, -1 on failure, given the earlier calls *)
  addHighLevelShaderMaterial : list GpuEvent -> CompileRequest -> Z;
  g_settings : Settings;
  (* fs::PathExists *)
  PathExists : string -> bool;
  (* fs::ReadFile: the contents, or None when the read fails *)
  ReadFile : string -> option string;
  DIR_DELIM : string;
  path_share : string;
  gettext : string -> string;
  (* fmtgettext(format, argument) *)
  fmtgettext : string -> string -> string;
  (* operator<< of a float on a stream, with std::showpoint set or not *)
  put_float : bool -> spec_float -> string
}.

(** ** State and the monad of member functions *)

Inductive LogStream : Type := infostream | warningstream | errorstream.

Definition thread_id : Type := nat.

Record State : Type := mkState {
  (* The id of the thread that is allowed to use irrlicht directly *)
  m_main_thread : thread_id;
  (* SourceShaderCache::m_programs *)
  m_sourcecache : gmap string string;
  (* A shader id is index in this array. *)
  m_shaderinfo_cache : list ShaderInfo;
  m_constant_setters : list IShaderConstantSetter;
  m_uniform_factories : list IShaderUniformSetterFactory;
  (* the global cache from shader name to shader path *)
  g_shadername_to_path_cache : gmap string string;
  (* calls made on the GPU programming services, latest first *)
  gpu_events : list GpuEvent;
  (* lines written to the log streams, latest first *)
  log_lines : list (LogStream * string)
}.

Inductive ShaderException : Type :=
  | mkShaderException (what : string).

Inductive Outcome (A : Type) : Type :=
  | Ok (a : A)
  | Throw (e : ShaderException)
  | Fatal (assertion : string).

Arguments Ok {A} a.
Arguments Throw {A} e.
Arguments Fatal {A} assertion.

Definition M (A : Type) : Type := State -> Outcome A * State.

Definition ret {A : Type} (a : A) : M A := fun s => (Ok a, s).

Definition bind {A B : Type} (m : M A) (k : A -> M B) : M B :=
  fun s =>
    match m s with
    | (Ok a, s') => k a s'
    | (Throw e, s') => (Throw e, s')
    | (Fatal msg, s') => (Fatal msg, s')
    end.

Definition throw {A : Type} (e : ShaderException) : M A :=
  fun s => (Throw e, s).

Definition fatal {A : Type} (msg : string) : M A :=
  fun s => (Fatal msg, s).

Definition gets {A : Type} (f : State -> A) : M A :=
  fun s => (Ok (f s), s).

Definition modify (f : State -> State) : M unit :=
  fun s => (Ok tt, f s).

Notation "x <- m ;; k" := (bind m (fun x => k))
  (at level 100, m at next level, right associativity).
Notation "m ;; k" := (bind m (fun _ => k))
  (at level 100, right associativity).

(** [assert(cond)] and [sanity_check(cond)]. *)
Definition assert (cond : bool) (msg : string) : M unit :=
  if cond then ret tt else fatal msg.

Definition set_sourcecache (v : gmap string string) (s : State) : State :=
  mkState (m_main_thread s) v (m_shaderinfo_cache s) (m_constant_setters s)
    (m_uniform_factories s) (g_shadername_to_path_cache s) (gpu_events s)
    (log_lines s).

Definition set_shaderinfo_cache (v : list ShaderInfo) (s : State) : State :=
  mkState (m_main_thread s) (m_sourcecache s) v (m_constant_setters s)
    (m_uniform_factories s) (g_shadername_to_path_cache s) (gpu_events s)
    (log_lines s).

Definition set_constant_setters (v : list IShaderConstantSetter) (s : State)
    : State :=
  mkState (m_main_thread s) (m_sourcecache s) (m_shaderinfo_cache s) v
    (m_uniform_factories s) (g_shadername_to_path_cache s) (gpu_events s)
    (log_lines s).

Definition set_uniform_factories (v : list IShaderUniformSetterFactory)
    (s : State) : State :=
  mkState (m_main_thread s) (m_sourcecache s) (m_shaderinfo_cache s)
    (m_constant_setters s) v (g_shadername_to_path_cache s) (gpu_events s)
    (log_lines s).

Definition set_path_cache (v : gmap string string) (s : State) : State :=
  mkState (m_main_thread s) (m_sourcecache s) (m_shaderinfo_cache s)
    (m_constant_setters s) (m_uniform_factories s) v (gpu_events s)
    (log_lines s).

Definition set_gpu_events (v : list GpuEvent) (s : State) : State :=
  mkState (m_main_thread s) (m_sourcecache s) (m_shaderinfo_cache s)
    (m_constant_setters s) (m_uniform_factories s)
    (g_shadername_to_path_cache s) v (log_lines s).

Definition set_log_lines (v : list (LogStream * string)) (s : State) : State :=
  mkState (m_main_thread s) (m_sourcecache s) (m_shaderinfo_cache s)
    (m_constant_setters s) (m_uniform_factories s)
    (g_shadername_to_path_cache s) (gpu_events s) v.

(** [stream << text << std::endl]. *)
Definition log (stream : LogStream) (text : string) : M unit :=
  modify (fun s => set_log_lines ((stream, text) :: log_lines s) s).

Definition empty (s : string) : bool :=
  match s with
  | EmptyString => true
  | String _ _ => false
  end.

(** ** MainShaderConstantSetter *)

(** [1.f]. *)
Definition float_one : spec_float := S754_finite false 8388608 (-23).

(** [std::max(a, b)] on floats: [(a < b) ? b : a]. *)
Definition std_max_float (a b : spec_float) : spec_float :=
  if SFltb a b then b else a.

Definition set_if (cond : bool) (key : string) (v : ConstantValue)
    (c : ShaderConstants) : ShaderConstants :=
  if cond then set_constant key v c else c.

Definition MainShaderConstantSetter : IShaderConstantSetter :=
  fun settings _ constants =>
    let constants :=
      set_constant "ENABLE_TONE_MAPPING"
        (CInt (if getBool settings "tone_mapping" then 1 else 0)) constants in
    let constants :=
      if getBool settings "enable_dynamic_shadows" then
        let constants := set_constant "ENABLE_DYNAMIC_SHADOWS" (CInt 1) constants in
        let constants :=
          set_if (getBool settings "shadow_map_color")
            "COLORED_SHADOWS" (CInt 1) constants in
        let constants :=
          set_if (getBool settings "shadow_poisson_filter")
            "POISSON_FILTER" (CInt 1) constants in
        let constants :=
          set_if (getBool settings "enable_water_reflections")
            "ENABLE_WATER_REFLECTIONS" (CInt 1) constants in
        let constants :=
          set_if (getBool settings "enable_translucent_foliage")
            "ENABLE_TRANSLUCENT_FOLIAGE" (CInt 1) constants in
        (* the node specular effect is disabled: if (false) *)
        let constants := set_if false "ENABLE_NODE_SPECULAR" (CInt 1) constants in
        let shadow_filter := getS32 settings "shadow_filters" in
        let constants := set_constant "SHADOW_FILTER" (CInt shadow_filter) constants in
        let shadow_soft_radius :=
          std_max_float float_one (getFloat settings "shadow_soft_radius") in
        set_constant "SOFTSHADOWRADIUS" (CFloat shadow_soft_radius) constants
      else constants in
    let constants :=
      if getBool settings "enable_bloom" then
        let constants := set_constant "ENABLE_BLOOM" (CInt 1) constants in
        set_if (getBool settings "enable_bloom_debug")
          "ENABLE_BLOOM_DEBUG" (CInt 1) constants
      else constants in
    let constants :=
      set_if (getBool settings "enable_auto_exposure")
        "ENABLE_AUTO_EXPOSURE" (CInt 1) constants in
    let constants :=
      if String.eqb (get settings "antialiasing") "ssaa" then
        let constants := set_constant "ENABLE_SSAA" (CInt 1) constants in
        let ssaa_scale := Z.max 2 (getU16 settings "fsaa") in
        set_constant "SSAA_SCALE" (CInt ssaa_scale) constants
      else constants in
    let constants :=
      set_if (getBool settings "debanding") "ENABLE_DITHERING" (CInt 1) constants in
    set_if (getBool settings "enable_volumetric_lighting")
      "VOLUMETRIC_LIGHT" (CInt 1) constants.

(** ** The scan of the record table *)

(** The condition of the scan in [getShaderIdDirect]. *)
Definition shader_matches (info : ShaderInfo) (nm : string)
    (base_mat : E_MATERIAL_TYPE) (input_const : ShaderConstants) : bool :=
  String.eqb (name info) nm
  && Z.eqb (base_material info) base_mat
  && constants_eqb (input_constants info) input_const.

(** [for (u32 i = 0; i < m_shaderinfo_cache.size(); i++)], from index [i] on:
    the first index whose record matches.  The counter is a [u32]; it does not
    wrap as long as the table holds fewer than [2^32] records ([table_fits]). *)
Fixpoint find_shader (cache : list ShaderInfo) (i : nat) (nm : string)
    (base_mat : E_MATERIAL_TYPE) (input_const : ShaderConstants) : option nat :=
  match cache with
  | [] => None
  | info :: rest =>
      if shader_matches info nm base_mat input_const then Some i
      else find_shader rest (S i) nm base_mat input_const
  end.

(** The narrowing of a [size_t] to a [u32]. *)
Definition to_u32 (z : Z) : Z := z mod 2 ^ 32.

(** The narrowing of an [int] to an [s16]. *)
Definition to_s16 (z : Z) : Z := (z + 2 ^ 15) mod 2 ^ 16 - 2 ^ 15.

Definition table_fits (s : State) : Prop :=
  Z.of_nat (length (m_shaderinfo_cache s)) < 2 ^ 32.

(** ** dumpShaderProgram *)

(** The pieces of [program] between newlines; the last piece is what follows
    the last newline. *)
Fixpoint split_lines (program : string) (current : string) : list string :=
  match program with
  | EmptyString => [current]
  | String c rest =>
      if Ascii.eqb c char_nl then current :: split_lines rest EmptyString
      else split_lines rest (current +:+ String c EmptyString)
  end.

(** The numbered lines; [line] is an [s16] incremented after each. *)
Fixpoint number_lines (line : Z) (pieces : list string) : list string :=
  match pieces with
  | [] => []
  | piece :: rest =>
      (put_int line +:+ ": " +:+ piece) :: number_lines (to_s16 (line + 1)) rest
  end.

Definition dumpShaderProgram_lines (program_type program : string)
    : list string :=
  [program_type +:+ " shader program:";
   "----------------------------------"]
  ++ number_lines 1 (split_lines program EmptyString)
  ++ ["End of " +:+ program_type +:+ " shader program."; " "].

Fixpoint log_all (stream : LogStream) (texts : list string) : M unit :=
  match texts with
  | [] => ret tt
  | text :: rest => log stream text ;; log_all stream rest
  end.

Definition dumpShaderProgram (output_stream : LogStream)
    (program_type program : string) : M unit :=
  log_all output_stream (dumpShaderProgram_lines program_type program).

(** ** Operations, on a given platform *)

Section Operations.

Variable P : Platform.

(** *** getShaderPath *)

Definition getShaderPath (name_of_shader filename : string) : M string :=
  let combined := name_of_shader +:+ DIR_DELIM P +:+ filename in
  cache <- gets g_shadername_to_path_cache ;;
  match cache !! combined with
  | Some fullpath => ret fullpath
  | None =>
      let fullpath := EmptyString in
      (* Check from shader_path *)
      let shader_path := get (g_settings P) "shader_path" in
      let fullpath :=
        if negb (empty shader_path) then
          let testpath := shader_path +:+ DIR_DELIM P +:+ combined in
          if PathExists P testpath then testpath else fullpath
        else fullpath in
      (* Check from default data directory *)
      let fullpath :=
        if empty fullpath then
          let rel_path :=
            "client" +:+ DIR_DELIM P +:+ "shaders" +:+ DIR_DELIM P
            +:+ name_of_shader +:+ DIR_DELIM P +:+ filename in
          let testpath := path_share P +:+ DIR_DELIM P +:+ rel_path in
          if PathExists P testpath then testpath else fullpath
        else fullpath in
      (* Add to cache (also an empty result is cached) *)
      modify (fun s =>
        set_path_cache (<[combined := fullpath]> (g_shadername_to_path_cache s)) s) ;;
      ret fullpath
  end.

(** *** SourceShaderCache *)

Definition readFile (path : string) : string :=
  match ReadFile P path with
  | Some contents => contents
  | None => EmptyString
  end.

Definition store_program (combined program : string) : M unit :=
  modify (fun s => set_sourcecache (<[combined := program]> (m_sourcecache s)) s).

Definition SourceShaderCache_insert (name_of_shader filename program : string)
    (prefer_local : bool) : M unit :=
  let combined := name_of_shader +:+ DIR_DELIM P +:+ filename in
  if prefer_local then
    path <- getShaderPath name_of_shader filename ;;
    if negb (empty path) then
      let p := readFile path in
      if negb (empty p) then store_program combined p
      else store_program combined program
    else store_program combined program
  else store_program combined program.

Definition SourceShaderCache_get (name_of_shader filename : string)
    : M string :=
  let combined := name_of_shader +:+ DIR_DELIM P +:+ filename in
  programs <- gets m_sourcecache ;;
  match programs !! combined with
  | Some program => ret program
  | None => ret EmptyString
  end.

Definition SourceShaderCache_getOrLoad (name_of_shader filename : string)
    : M string :=
  let combined := name_of_shader +:+ DIR_DELIM P +:+ filename in
  programs <- gets m_sourcecache ;;
  match programs !! combined with
  | Some program => ret program
  | None =>
      path <- getShaderPath name_of_shader filename ;;
      if empty path then
        log infostream
          ("SourceShaderCache::getOrLoad(): No path found for " +:+ dquote
           +:+ combined +:+ dquote) ;;
        ret EmptyString
      else
        log infostream
          ("SourceShaderCache::getOrLoad(): Loading path " +:+ dquote
           +:+ path +:+ dquote) ;;
        let p := readFile path in
        if negb (empty p) then store_program combined p ;; ret p
        else ret EmptyString
  end.

(** *** The generator's texts *)

(** [putConstant(os, it)]; [showpoint] is the stream's flag. *)
Definition putConstant (showpoint : bool) (it : ConstantValue) : string :=
  match it with
  | CInt ival => put_int ival
  | CFloat fval => put_float P showpoint fval
  end.

Definition fully_programmable : bool :=
  E_DRIVER_TYPE_eqb (getDriverType P) EDT_OGLES2
  || E_DRIVER_TYPE_eqb (getDriverType P) EDT_OPENGL3.

(** What is written to [shaders_header] before the constants. *)
Definition version_header : string :=
  if fully_programmable then
    if E_DRIVER_TYPE_eqb (getDriverType P) EDT_OPENGL3 then "#version 150" +:+ nl
    else "#version 100" +:+ nl
  else
    nl
    +:+ raw_line 3 "#version 120"
    +:+ raw_line 3 "#define lowp"
    +:+ raw_line 3 "#define mediump"
    +:+ raw_line 3 "#define highp"
    +:+ tabs 2.

Definition vertex_header : string :=
  if fully_programmable then
    (nl
     +:+ raw_line 3 "precision mediump float;"
     +:+ nl
     +:+ raw_line 3 "uniform highp mat4 mWorldView;"
     +:+ raw_line 3 "uniform highp mat4 mWorldViewProj;"
     +:+ raw_line 3 "uniform mediump mat4 mTexture;"
     +:+ nl
     +:+ raw_line 3 "attribute highp vec4 inVertexPosition;"
     +:+ raw_line 3 "attribute lowp vec4 inVertexColor;"
     +:+ raw_line 3 "attribute mediump vec2 inTexCoord0;"
     +:+ raw_line 3 "attribute mediump vec3 inVertexNormal;"
     +:+ raw_line 3 "attribute mediump vec4 inVertexTangent;"
     +:+ raw_line 3 "attribute mediump vec4 inVertexBinormal;"
     +:+ tabs 2)
    +:+ "#define inVertexColor (inVertexColor.bgra)" +:+ nl
  else
    nl
    +:+ raw_line 3 "#define mWorldView gl_ModelViewMatrix"
    +:+ raw_line 3 "#define mWorldViewProj gl_ModelViewProjectionMatrix"
    +:+ raw_line 3 "#define mTexture (gl_TextureMatrix[0])"
    +:+ nl
    +:+ raw_line 3 "#define inVertexPosition gl_Vertex"
    +:+ raw_line 3 "#define inVertexColor gl_Color"
    +:+ raw_line 3 "#define inTexCoord0 gl_MultiTexCoord0"
    +:+ raw_line 3 "#define inVertexNormal gl_Normal"
    +:+ raw_line 3 "#define inVertexTangent gl_MultiTexCoord1"
    +:+ raw_line 3 "#define inVertexBinormal gl_MultiTexCoord2"
    +:+ tabs 2.

Definition fragment_header : string :=
  (if fully_programmable then
     nl +:+ raw_line 3 "precision mediump float;" +:+ tabs 2
   else EmptyString)
  (* map legacy semantic texture names to texture identifiers *)
  +:+ (nl
       +:+ raw_line 2 "#define baseTexture texture0"
       +:+ raw_line 2 "#define normalTexture texture1"
       +:+ raw_line 2 "#define textureFlags texture2"
       +:+ tabs 1).

Definition geometry_header : string := EmptyString.

(** reset the line counter for meaningful diagnostics *)
Definition final_header : string := "#line 0" +:+ nl.

(** The loop that builds [log_name], entered with the text built so far. *)
Fixpoint log_name_loop (log_name : string)
    (its : list (string * ConstantValue)) : string :=
  match its with
  | [] => log_name
  | it :: rest =>
      if (60 <? String.length log_name)%nat then (* it shouldn't be too long *)
        log_name +:+ "..."
      else
        log_name_loop
          (log_name +:+ " " +:+ it.1 +:+ "=" +:+ putConstant false it.2) rest
  end.

(** Unique name of this shader, for debug/logging *)
Definition make_log_name (nm : string) (input_const : ShaderConstants)
    : string :=
  log_name_loop nm (entries input_const).

Definition use_discard : bool :=
  fully_programmable
  (* workaround for a certain OpenGL implementation lacking GL_ALPHA_TEST *)
  || strstr (GL_RENDERER P) "GC7000".

(** The constants after the discard flag is set, before the setters run. *)
Definition discard_constants (input_const : ShaderConstants)
    (base_mat : E_MATERIAL_TYPE) : ShaderConstants :=
  if use_discard then
    if Z.eqb base_mat EMT_TRANSPARENT_ALPHA_CHANNEL then
      set_constant "USE_DISCARD" (CInt 1) input_const
    else if Z.eqb base_mat EMT_TRANSPARENT_ALPHA_CHANNEL_REF then
      set_constant "USE_DISCARD_REF" (CInt 1) input_const
    else input_const
  else input_const.

(** Let the constant setters do their job: each [onGenerate], in the order
    of [m_constant_setters]. *)
Definition run_setters (setters : list IShaderConstantSetter) (nm : string)
    (constants : ShaderConstants) : ShaderConstants :=
  fold_left (fun c (setter : IShaderConstantSetter) =>
               setter (g_settings P) nm c) setters constants.

Definition final_constants (setters : list IShaderConstantSetter)
    (nm : string) (input_const : ShaderConstants)
    (base_mat : E_MATERIAL_TYPE) : ShaderConstants :=
  run_setters setters nm (discard_constants input_const base_mat).

(** One [#define] line. *)
Definition define_line (it : string * ConstantValue) : string :=
  "#define " +:+ it.1 +:+ " " +:+ putConstant true it.2 +:+ nl.

Definition define_lines (constants : ShaderConstants) : list string :=
  map define_line (entries constants).

Definition concat_lines (lines : list string) : string :=
  fold_right String.append EmptyString lines.

(** spaces could cause duplicates: every key is its own [trim]. *)
Definition keys_trimmed (constants : ShaderConstants) : bool :=
  forallb (fun it : string * ConstantValue => String.eqb (trim it.1) it.1)
    (entries constants).

Definition common_header (constants : ShaderConstants) : string :=
  version_header +:+ concat_lines (define_lines constants).

(** *** generateShader *)

Definition compile (request : CompileRequest) : M Z :=
  events <- gets gpu_events ;;
  let result := addHighLevelShaderMaterial P events request in
  modify (fun s => set_gpu_events (GpuAdd request result :: gpu_events s) s) ;;
  ret result.

Definition deleteShaderMaterial (m : E_MATERIAL_TYPE) : M unit :=
  modify (fun s => set_gpu_events (GpuDelete m :: gpu_events s) s).

Definition generateShader (nm : string) (input_const : ShaderConstants)
    (base_mat : E_MATERIAL_TYPE) : M ShaderInfo :=
  (* fixed pipeline materials don't make sense here *)
  assert (negb (Z.eqb base_mat EMT_TRANSPARENT_VERTEX_ALPHA)
          && negb (Z.eqb base_mat EMT_ONETEXTURE_BLEND))
    "base_mat != video::EMT_TRANSPARENT_VERTEX_ALPHA && base_mat != video::EMT_ONETEXTURE_BLEND" ;;
  let shaderinfo :=
    {| name := nm;
       base_material := base_mat;
       material := base_mat;
       input_constants := input_const |} in
  (* The null driver doesn't support shaders (duh), but we can pretend it does. *)
  if E_DRIVER_TYPE_eqb (getDriverType P) EDT_NULL then ret shaderinfo
  else if negb (queryFeature_ARB_GLSL P) || negb (has_gpu P) then
    throw (mkShaderException (gettext P "GLSL is not supported by the driver"))
  else
    let log_name := make_log_name nm input_const in
    setters <- gets m_constant_setters ;;
    let constants := final_constants setters nm input_const base_mat in
    assert (keys_trimmed constants) "trim(it.first) == it.first" ;;
    let common_header := common_header constants in
    vertex_shader <- SourceShaderCache_getOrLoad nm "opengl_vertex.glsl" ;;
    fragment_shader <- SourceShaderCache_getOrLoad nm "opengl_fragment.glsl" ;;
    geometry_shader <- SourceShaderCache_getOrLoad nm "opengl_geometry.glsl" ;;
    let vertex_shader :=
      common_header +:+ vertex_header +:+ final_header +:+ vertex_shader in
    let fragment_shader :=
      common_header +:+ fragment_header +:+ final_header +:+ fragment_shader in
    (* the geometry stage is optional *)
    let has_geometry := negb (empty geometry_shader) in
    let geometry_shader :=
      if has_geometry then
        common_header +:+ geometry_header +:+ final_header +:+ geometry_shader
      else geometry_shader in
    let geometry_shader_ptr :=
      if has_geometry then Some geometry_shader else None in
    cb <- gets m_uniform_factories ;;
    log infostream ("Compiling high level shaders for " +:+ log_name) ;;
    shadermat <- compile
      {| vertex_program := vertex_shader;
         fragment_program := fragment_shader;
         geometry_program := geometry_shader_ptr;
         shader_name := log_name;
         callback := cb;
         request_base_material := base_mat |} ;;
    if Z.eqb shadermat (-1) then
      log errorstream
        ("generateShader(): failed to generate shaders for " +:+ log_name
         +:+ ", addHighLevelShaderMaterial failed.") ;;
      dumpShaderProgram warningstream "Vertex" vertex_shader ;;
      dumpShaderProgram warningstream "Fragment" fragment_shader ;;
      dumpShaderProgram warningstream "Geometry" geometry_shader ;;
      throw (mkShaderException
        (fmtgettext P ("Failed to compile the " +:+ dquote +:+ "%s" +:+ dquote
                       +:+ " shader.") log_name
         +:+ gettext P (nl +:+ "Check debug.txt for details.")))
    else
      (* Apply the newly created material type *)
      ret {| name := nm;
             base_material := base_mat;
             material := shadermat;
             input_constants := input_const |}.

(** *** The registry's operations *)

(** [getShaderIdDirect], called from the thread [caller]. *)
Definition getShaderIdDirect (caller : thread_id) (nm : string)
    (input_const : ShaderConstants) (base_mat : E_MATERIAL_TYPE) : M Z :=
  (* Empty name means shader 0 *)
  if empty nm then
    log infostream "getShaderIdDirect(): name is empty" ;;
    ret 0
  else
    (* Check if already have such instance *)
    cache <- gets m_shaderinfo_cache ;;
    match find_shader cache 0 nm base_mat input_const with
    | Some i => ret (Z.of_nat i)
    | None =>
        (* Calling only allowed from main thread *)
        main_thread <- gets m_main_thread ;;
        if negb (Nat.eqb caller main_thread) then
          log errorstream
            "ShaderSource::getShaderIdDirect() called not from main thread" ;;
          ret 0
        else
          info <- generateShader nm input_const base_mat ;;
          (* Add shader to caches (add dummy shaders too) *)
          cache <- gets m_shaderinfo_cache ;;
          let id := to_u32 (Z.of_nat (length cache)) in
          modify (fun s =>
            set_shaderinfo_cache (m_shaderinfo_cache s ++ [info]) s) ;;
          ret id
    end.

(** [getShader], called from the thread [caller]. *)
Definition getShader (caller : thread_id) (nm : string)
    (input_const : ShaderConstants) (base_mat : E_MATERIAL_TYPE) : M Z :=
  main_thread <- gets m_main_thread ;;
  if Nat.eqb caller main_thread then
    getShaderIdDirect caller nm input_const base_mat
  else
    log errorstream
      "ShaderSource::getShader(): getting from other thread not implemented" ;;
    ret 0.

(** [getShaderInfo]; [id] is a [u32]. *)
Definition getShaderInfo (id : Z) (s : State) : ShaderInfo :=
  if Z.leb (Z.of_nat (length (m_shaderinfo_cache s))) id then empty_ShaderInfo
  else nth (Z.to_nat id) (m_shaderinfo_cache s) empty_ShaderInfo.

Definition processQueue : M unit := ret tt.

Definition insertSourceShader (caller : thread_id)
    (name_of_shader filename program : string) : M unit :=
  main_thread <- gets m_main_thread ;;
  assert (Nat.eqb caller main_thread)
    "std::this_thread::get_id() == m_main_thread" ;;
  SourceShaderCache_insert name_of_shader filename program true.

Definition addShaderConstantSetter (setter : IShaderConstantSetter) : M unit :=
  modify (fun s => set_constant_setters (m_constant_setters s ++ [setter]) s).

Definition addShaderUniformSetterFactory
    (setter : IShaderUniformSetterFactory) : M unit :=
  modify (fun s => set_uniform_factories (m_uniform_factories s ++ [setter]) s).

(** The first loop of [rebuildShaders], over the records from index [i] on:
    the material of each named record is deleted, then invalidated. *)
Fixpoint delete_materials (n i : nat) : M unit :=
  match n with
  | O => ret tt
  | S n' =>
      cache <- gets m_shaderinfo_cache ;;
      match cache !! i with
      | None => ret tt
      | Some info =>
          (if negb (empty (name info)) then
             deleteShaderMaterial (material info) ;;
             modify (fun s =>
               set_shaderinfo_cache
                 (<[i := {| name := name info;
                            base_material := base_material info;
                            material := EMT_SOLID; (* invalidate *)
                            input_constants := input_constants info |}]>
                    (m_shaderinfo_cache s)) s)
           else ret tt) ;;
          delete_materials n' (S i)
      end
  end.

(** The second loop of [rebuildShaders]: [*info = generateShader(...)] for
    each named record from index [i] on. *)
Fixpoint recreate_shaders (n i : nat) : M unit :=
  match n with
  | O => ret tt
  | S n' =>
      cache <- gets m_shaderinfo_cache ;;
      match cache !! i with
      | None => ret tt
      | Some info =>
          (if negb (empty (name info)) then
             info' <- generateShader (name info) (input_constants info)
                        (base_material info) ;;
             modify (fun s =>
               set_shaderinfo_cache (<[i := info']> (m_shaderinfo_cache s)) s)
           else ret tt) ;;
          recreate_shaders n' (S i)
      end
  end.

Definition rebuildShaders : M unit :=
  assert (has_gpu P) "gpu" ;;
  (* Delete materials *)
  cache <- gets m_shaderinfo_cache ;;
  delete_materials (length cache) 0 ;;
  log infostream
    ("ShaderSource: recreating " +:+ put_int (Z.of_nat (length cache))
     +:+ " shaders") ;;
  (* Recreate shaders *)
  recreate_shaders (length cache) 0.

End Operations.

(** [ShaderSource::ShaderSource()], run on the thread [this_thread]; the
    global path cache, the GPU and the log are those of [world]. *)
Definition ShaderSource_new (this_thread : thread_id) (world : State) : State :=
  {| m_main_thread := this_thread;
     m_sourcecache := ∅;
     (* Add a dummy ShaderInfo as the first index, with an empty name *)
     m_shaderinfo_cache := [empty_ShaderInfo];
     (* Add global stuff *)
     m_constant_setters := [MainShaderConstantSetter];
     m_uniform_factories := [MainShaderUniformSetterFactory];
     g_shadername_to_path_cache := g_shadername_to_path_cache world;
     gpu_events := gpu_events world;
     log_lines := log_lines world |}.

(** [ShaderSource::~ShaderSource()]. *)
Fixpoint delete_all_materials (P : Platform) (cache : list ShaderInfo)
    (n : Z) : M Z :=
  match cache with
  | [] => ret n
  | i :: rest =>
      if negb (empty (name i)) then
        deleteShaderMaterial (material i) ;;
        delete_all_materials P rest (to_u32 (n + 1))
      else delete_all_materials P rest n
  end.

Definition ShaderSource_delete (P : Platform) : M unit :=
  assert (has_gpu P) "gpu" ;;
  cache <- gets m_shaderinfo_cache ;;
  n <- delete_all_materials P cache 0 ;;
  modify (set_shaderinfo_cache []) ;;
  log infostream
    ("~ShaderSource() cleaned up " +:+ put_int n +:+ " materials").

(** ** Notions used by the statements *)

(** The fields of a record that identify it: everything but the compiled
    material. *)
Definition record_key (info : ShaderInfo)
    : string * ShaderConstants * E_MATERIAL_TYPE :=
  (name info, input_constants info, base_material info).



(** The text appended to [log_name] for one constant. *)
Definition log_name_pair (P : Platform) (it : string * ConstantValue)
    : string :=
  " " +:+ it.1 +:+ "=" +:+ putConstant P false it.2.

(** The identifier as the specification words it: the name, then the pairs,
    cut with an ellipsis once more than 60 characters of constants have been
    written. *)
Fixpoint spec_log_name_loop (P : Platform) (constants_text : string)
    (its : list (string * ConstantValue)) : string :=
  match its with
  | [] => constants_text
  | it :: rest =>
      if (60 <? String.length constants_text)%nat then constants_text +:+ "..."
      else spec_log_name_loop P (constants_text +:+ log_name_pair P it) rest
  end.

Definition spec_log_name (P : Platform) (nm : string)
    (input_const : ShaderConstants) : string :=
  nm +:+ spec_log_name_loop P EmptyString (entries input_const).

(** The computation leaves the view [f] of the state as it was, whatever its
    outcome. *)
Definition preserves {A B : Type} (f : State -> B) (m : M A) : Prop :=
  forall s, f (m s).2 = f s.

(** What the computation returns, when it returns, satisfies [Q]. *)
Definition returns {A : Type} (Q : A -> Prop) (m : M A) : Prop :=
  forall s a s', m s = (Ok a, s') -> Q a.

(** The view of the state that neither the source cache, the path cache, the
    GPU nor the log belongs to. *)
Definition registry_view (s : State) :=
  (m_main_thread s, m_shaderinfo_cache s, m_constant_setters s,
   m_uniform_factories s).

(** The view a compilation may change only by a call of the compiler. *)
Definition generator_view (s : State) :=
  (registry_view s, gpu_events s).

(** The backend cannot compile shaders: the null driver, or a driver without
    GLSL or without GPU programming services. *)
Definition lacks_shader_support (P : Platform) : Prop :=
  getDriverType P = EDT_NULL
  \/ queryFeature_ARB_GLSL P = false
  \/ has_gpu P = false.

(** A base material the generator accepts (its first assertion). *)
Definition programmable_material (base_mat : E_MATERIAL_TYPE) : Prop :=
  base_mat <> EMT_TRANSPARENT_VERTEX_ALPHA /\ base_mat <> EMT_ONETEXTURE_BLEND.

(** From a state that satisfies [I] the computation ends in a state that
    satisfies [I], and what it returns, when it returns, satisfies [Q]. *)
Definition keeps {A : Type} (I : State -> Prop) (Q : A -> Prop) (m : M A)
    : Prop :=
  forall s, I s -> I (m s).2 /\ forall a, (m s).1 = Ok a -> Q a.

(** The programs of a compile request start with [header], each followed by
    the header of its stage and the line reset. *)
Definition request_has_header (P : Platform) (header : string)
    (request : CompileRequest) : Prop :=
  (exists body,
     vertex_program request =
     header +:+ vertex_header P +:+ final_header +:+ body)
  /\ (exists body,
        fragment_program request =
        header +:+ fragment_header P +:+ final_header +:+ body)
  /\ (forall geometry, geometry_program request = Some geometry ->
        exists body,
          geometry =
          header +:+ geometry_header +:+ final_header +:+ body).

(** The GPU calls made from the state [old] to the state [s] are calls of the
    compiler, each with a request that satisfies [Good]. *)
Definition compiled_since (old s : State) (Good : CompileRequest -> Prop)
    : Prop :=
  exists new,
    gpu_events s = (new ++ gpu_events old)%list
    /\ forall ev, ev ∈ new -> exists request result,
          ev = GpuAdd request result /\ Good request.

(** The states a registry goes through: constructed on some thread, then any
    of its operations, from any thread, on any platform, whatever the
    outcome. *)
Inductive reachable : State -> Prop :=
  | reachable_new (this_thread : thread_id) (world : State) :
      reachable (ShaderSource_new this_thread world)
  | reachable_getShader P caller nm input_const base_mat s :
      reachable s ->
      reachable (getShader P caller nm input_const base_mat s).2
  | reachable_getShaderIdDirect P caller nm input_const base_mat s :
      reachable s ->
      reachable (getShaderIdDirect P caller nm input_const base_mat s).2
  | reachable_insertSourceShader P caller name_of_shader filename program s :
      reachable s ->
      reachable (insertSourceShader P caller name_of_shader filename program s).2
  | reachable_rebuildShaders P s :
      reachable s ->
      reachable (rebuildShaders P s).2
  | reachable_addShaderConstantSetter setter s :
      reachable s ->
      reachable (addShaderConstantSetter setter s).2
  | reachable_addShaderUniformSetterFactory setter s :
      reachable s ->
      reachable (addShaderUniformSetterFactory setter s).2
  | reachable_processQueue s :
      reachable s ->
      reachable (processQueue s).2.

(** One operation of the registry, from any thread, on any platform,
    whatever its outcome. *)
Inductive operation : State -> State -> Prop :=
  | operation_getShader P caller nm input_const base_mat s :
      operation s (getShader P caller nm input_const base_mat s).2
  | operation_getShaderIdDirect P caller nm input_const base_mat s :
      operation s (getShaderIdDirect P caller nm input_const base_mat s).2
  | operation_insertSourceShader P caller name_of_shader filename program s :
      operation s
        (insertSourceShader P caller name_of_shader filename program s).2
  | operation_rebuildShaders P s :
      operation s (rebuildShaders P s).2
  | operation_addShaderConstantSetter setter s :
      operation s (addShaderConstantSetter setter s).2
  | operation_addShaderUniformSetterFactory setter s :
      operation s (addShaderUniformSetterFactory setter s).2
  | operation_processQueue s :
      operation s (processQueue s).2.

(** The state [s'] comes after the state [s]: any number of operations lead
    from the one to the other. *)
Inductive evolves : State -> State -> Prop :=
  | evolves_refl s : evolves s s
  | evolves_step s s' s'' :
      evolves s s' -> operation s' s'' -> evolves s s''.



(** ** Sample platforms and states *)

Definition sample_settings : Settings :=
  {| getBool := fun _ => false;
     getS32 := fun _ => 0;
     getU16 := fun _ => 0;
     getFloat := fun _ => float_one;
     get := fun _ => EmptyString |}.

(** [os << f] for a float, on a stream in its default state and in the C
    locale: the conversion [%g] with precision 6, or [%#g] when
    [std::showpoint] is set.  The value [m * 2^e] is the fraction
    [num / den]. *)

(** [10^x <= num / den] *)
Definition reaches (num den x : Z) : bool :=
  if Z.leb 0 x then Z.leb (10 ^ x * den) num
  else Z.leb den (num * 10 ^ (- x)).

(** The decimal exponent of [num / den]: the largest [x], from [x] down,
    with [10^x <= num / den]. *)
Fixpoint decimal_exponent (fuel : nat) (num den x : Z) : Z :=
  match fuel with
  | O => x
  | S fuel =>
      if reaches num den x then x
      else decimal_exponent fuel num den (x - 1)
  end.

(** [num / den] rounded to the nearest integer, to the even one on a tie. *)
Definition round_half_even (num den : Z) : Z :=
  let q := num / den in
  let r := num mod den in
  if Z.ltb (2 * r) den then q
  else if Z.ltb den (2 * r) then q + 1
  else if Z.even q then q else q + 1.

(** The six significant digits of [num / den], whose decimal exponent is [x],
    and the decimal exponent after the rounding. *)
Definition six_digits (num den x : Z) : Z * Z :=
  let q :=
    if Z.leb x 5 then round_half_even (num * 10 ^ (5 - x)) den
    else round_half_even num (den * 10 ^ (x - 5)) in
  if Z.leb 1000000 q then (100000, x + 1) else (q, x).

Fixpoint strip_zeros (digits : string) : string :=
  match digits with
  | EmptyString => EmptyString
  | String c rest =>
      match strip_zeros rest with
      | EmptyString =>
          if Ascii.eqb c "0" then EmptyString else String c EmptyString
      | kept => String c kept
      end
  end.

Fixpoint zeros (n : nat) : string :=
  match n with
  | O => EmptyString
  | S n => String "0" (zeros n)
  end.

(** The digits around the point: all of them with [std::showpoint]; without
    it the trailing zeros are dropped, and the point too when nothing
    follows it. *)
Definition around_point (showpoint : bool) (whole fraction : string)
    : string :=
  if showpoint then whole +:+ "." +:+ fraction
  else
    let kept := strip_zeros fraction in
    if empty kept then whole else whole +:+ "." +:+ kept.

(** The exponent of the scientific style: a sign and two digits at least. *)
Definition put_exponent (x : Z) : string :=
  (if Z.ltb x 0 then "-" else "+")
  +:+ (if Z.ltb (Z.abs x) 10 then "0" else EmptyString)
  +:+ put_int (Z.abs x).

(** [m * 2^e] under [%g], or [%#g]: the scientific style when the decimal
    exponent is below -4 or not below the precision, the fixed style
    otherwise. *)
Definition put_finite (showpoint : bool) (m : positive) (e : Z) : string :=
  let num := if Z.leb 0 e then Z.pos m * 2 ^ e else Z.pos m in
  let den := if Z.leb 0 e then 1 else 2 ^ (- e) in
  let upper := Z.log2 num + 1 in
  let x0 :=
    decimal_exponent (Z.to_nat (upper + Z.log2 den + 2)) num den upper in
  let (q, x) := six_digits num den x0 in
  let digits := put_int q in
  if Z.ltb x (-4) || Z.leb 6 x then
    around_point showpoint (substring 0 1 digits) (substring 1 5 digits)
    +:+ "e" +:+ put_exponent x
  else if Z.ltb x 0 then
    around_point showpoint "0" (zeros (Z.to_nat (- x - 1)) +:+ digits)
  else
    around_point showpoint
      (substring 0 (Z.to_nat x + 1) digits)
      (substring (Z.to_nat x + 1) (5 - Z.to_nat x) digits).

Definition sample_put_float (showpoint : bool) (f : spec_float) : string :=
  match f with
  | S754_zero false => if showpoint then "0.00000" else "0"
  | S754_zero true => if showpoint then "-0.00000" else "-0"
  | S754_infinity false => "inf"
  | S754_infinity true => "-inf"
  | S754_nan => "nan"
  | S754_finite sign m e =>
      (if sign then "-" else EmptyString) +:+ put_finite showpoint m e
  end.

(** A platform on the null driver: no shader support, no files. *)
Definition null_platform : Platform :=
  {| getDriverType := EDT_NULL;
     queryFeature_ARB_GLSL := false;
     has_gpu := true;
     GL_RENDERER := EmptyString;
     addHighLevelShaderMaterial := fun _ _ => -1;
     g_settings := sample_settings;
     PathExists := fun _ => false;
     ReadFile := fun _ => None;
     DIR_DELIM := "/";
     path_share := "share";
     gettext := fun text => text;
     fmtgettext := fun format argument => format +:+ argument;
     put_float := sample_put_float |}.

(** A legacy OpenGL driver without GLSL. *)
Definition legacy_platform : Platform :=
  {| getDriverType := EDT_OPENGL;
     queryFeature_ARB_GLSL := false;
     has_gpu := true;
     GL_RENDERER := "sample renderer";
     addHighLevelShaderMaterial := fun _ _ => -1;
     g_settings := sample_settings;
     PathExists := fun _ => false;
     ReadFile := fun _ => None;
     DIR_DELIM := "/";
     path_share := "share";
     gettext := fun text => text;
     fmtgettext := fun format argument => format +:+ argument;
     put_float := sample_put_float |}.

(** An OpenGL 3 driver whose compiler accepts every program and hands out
    tokens from 24 on; every shader file exists and holds the same text. *)
Definition opengl3_platform : Platform :=
  {| getDriverType := EDT_OPENGL3;
     queryFeature_ARB_GLSL := true;
     has_gpu := true;
     GL_RENDERER := "sample renderer";
     addHighLevelShaderMaterial :=
       fun events _ => 24 + Z.of_nat (length events);
     g_settings := sample_settings;
     PathExists := fun _ => true;
     ReadFile := fun _ => Some "void main() {}";
     DIR_DELIM := "/";
     path_share := "share";
     gettext := fun text => text;
     fmtgettext := fun format argument => format +:+ argument;
     put_float := sample_put_float |}.

Definition empty_world : State :=
  {| m_main_thread := O;
     m_sourcecache := ∅;
     m_shaderinfo_cache := [];
     m_constant_setters := [];
     m_uniform_factories := [];
     g_shadername_to_path_cache := ∅;
     gpu_events := [];
     log_lines := [] |}.

(** A registry freshly constructed on thread 7. *)
Definition fresh_registry : State := ShaderSource_new 7%nat empty_world.

(** A name of 61 characters. *)
Definition long_name : string :=
  "aaaaaaaaaaaaaaaaaaaaaaaaaaaaaaaaaaaaaaaaaaaaaaaaaaaaaaaaaaaaa".

Definition setter_FOO (v : Z) : IShaderConstantSetter :=
  fun _ _ constants => set_constant "FOO" (CInt v) constants.

(** The fresh registry after the shader "a" without constants was requested
    on the null driver. *)
Definition registry_with_a : State :=
  (getShader null_platform 7%nat "a" ∅ EMT_SOLID fresh_registry).2.

(** The fresh registry after the shader "a" was requested with the constant
    "X" set to 1, and the same after the shader "b" was requested and the
    shaders were rebuilt. *)
Definition registry_with_X1 : State :=
  (getShader null_platform 7%nat "a" (<["X" := CInt 1]> ∅) EMT_SOLID
     fresh_registry).2.

Definition registry_later : State :=
  (rebuildShaders null_platform
     (getShader null_platform 7%nat "b" ∅ EMT_SOLID registry_with_X1).2).2.

(** Constant sets of one float constant. *)
Definition constants_X (f : spec_float) : ShaderConstants :=
  {[ "X" := CFloat f ]}.

(** ** The overload of getShader by material and draw type *)

(** Modelled from the spec: [MaterialType] is declared in client/tile.h, not
    in this file.  The constructors are the values the [switch] of
    [IShaderSource::getShader] names; every other value takes its [default]
    branch and is gathered in [TILE_MATERIAL_other]. *)
Inductive MaterialType : Type :=
  | TILE_MATERIAL_ALPHA
  | TILE_MATERIAL_PLAIN_ALPHA
  | TILE_MATERIAL_LIQUID_TRANSPARENT
  | TILE_MATERIAL_WAVING_LIQUID_TRANSPARENT
  | TILE_MATERIAL_BASIC
  | TILE_MATERIAL_PLAIN
  | TILE_MATERIAL_WAVING_LEAVES
  | TILE_MATERIAL_WAVING_PLANTS
  | TILE_MATERIAL_WAVING_LIQUID_BASIC
  | TILE_MATERIAL_other (tag : nat).

(** The base material the [switch] selects. *)
Definition base_material_of (material_type : MaterialType) : E_MATERIAL_TYPE :=
  match material_type with
  | TILE_MATERIAL_ALPHA
  | TILE_MATERIAL_PLAIN_ALPHA
  | TILE_MATERIAL_LIQUID_TRANSPARENT
  | TILE_MATERIAL_WAVING_LIQUID_TRANSPARENT => EMT_TRANSPARENT_ALPHA_CHANNEL
  | TILE_MATERIAL_BASIC
  | TILE_MATERIAL_PLAIN
  | TILE_MATERIAL_WAVING_LEAVES
  | TILE_MATERIAL_WAVING_PLANTS
  | TILE_MATERIAL_WAVING_LIQUID_BASIC => EMT_TRANSPARENT_ALPHA_CHANNEL_REF
  | TILE_MATERIAL_other _ => EMT_SOLID
  end.

(** The constants the overload builds; [material_int] is the cast
    [(int)material_type], whose values are those of the enumeration in
    client/tile.h, and [drawtype] is [(int)drawtype]. *)
Definition type_constants (material_int : MaterialType -> Z)
    (material_type : MaterialType) (drawtype : Z) : ShaderConstants :=
  set_constant "DRAWTYPE" (CInt drawtype)
    (set_constant "MATERIAL_TYPE" (CInt (material_int material_type)) ∅).


(** [createShaderSource()]. *)
Definition createShaderSource (this_thread : thread_id) (world : State)
    : State :=
  ShaderSource_new this_thread world.

(** ** Further notions used by the statements *)

(** The pieces, with a newline between each two. *)
Fixpoint join_lines (pieces : list string) : string :=
  match pieces with
  | [] => EmptyString
  | [piece] => piece
  | piece :: rest => piece +:+ nl +:+ join_lines rest
  end.

(** The compiled materials of the records that have a name, in the order of
    the table. *)
Fixpoint named_materials (cache : list ShaderInfo) : list E_MATERIAL_TYPE :=
  match cache with
  | [] => []
  | i :: rest =>
      if negb (empty (name i)) then material i :: named_materials rest
      else named_materials rest
  end.

(** The record as the first loop of [rebuildShaders] leaves it. *)
Definition invalidated (info : ShaderInfo) : ShaderInfo :=
  if negb (empty (name info)) then
    {| name := name info;
       base_material := base_material info;
       material := EMT_SOLID;
       input_constants := input_constants info |}
  else info.

(** No constant of the set is a float holding a NaN. *)
Definition no_nan (c : ShaderConstants) : Prop :=
  forall key v, c !! key = Some v -> is_nan v = false.

(** The fields of the registry that requests and rebuilds have no business
    with. *)
Definition registration (s : State) :=
  (m_main_thread s, m_constant_setters s, m_uniform_factories s).

(** The names [MainShaderConstantSetter] may write; "ENABLE_NODE_SPECULAR" is
    not among them, its assignment being under [if (false)]. *)
Definition MainShaderConstantSetter_keys : list string :=
  ["ENABLE_TONE_MAPPING"; "ENABLE_DYNAMIC_SHADOWS"; "COLORED_SHADOWS";
   "POISSON_FILTER"; "ENABLE_WATER_REFLECTIONS"; "ENABLE_TRANSLUCENT_FOLIAGE";
   "SHADOW_FILTER"; "SOFTSHADOWRADIUS";
   "ENABLE_BLOOM"; "ENABLE_BLOOM_DEBUG"; "ENABLE_AUTO_EXPOSURE";
   "ENABLE_SSAA"; "SSAA_SCALE"; "ENABLE_DITHERING"; "VOLUMETRIC_LIGHT"].

(** Settings with dynamic shadows and supersampling switched on, a soft
    shadow radius below one and a scale of zero. *)
Definition shadow_settings : Settings :=
  {| getBool := fun key => String.eqb key "enable_dynamic_shadows";
     getS32 := fun _ => 0;
     getU16 := fun _ => 0;
     getFloat := fun _ => S754_zero false;
     get := fun key => if String.eqb key "antialiasing" then "ssaa"
                       else EmptyString |}.

(** The cast of a material type to [int] used in the samples. *)
Definition sample_material_int (material_type : MaterialType) : Z :=
  match material_type with
  | TILE_MATERIAL_BASIC => 0
  | TILE_MATERIAL_ALPHA => 1
  | TILE_MATERIAL_other tag => 100 + Z.of_nat tag
  | _ => 50
  end.

(** The fresh registry after the three stage sources of "test" were stored,
    the geometry source empty. *)
Definition registry_with_sources : State :=
  (SourceShaderCache_insert opengl3_platform "test" "opengl_geometry.glsl"
     EmptyString false
     (SourceShaderCache_insert opengl3_platform "test" "opengl_fragment.glsl"
        "void main() { gl_FragColor = vec4(1.0); }" false
        (SourceShaderCache_insert opengl3_platform "test" "opengl_vertex.glsl"
           "void main() { gl_Position = vec4(0.0); }" false
           fresh_registry).2).2).2.

(** Every text of the source cache and every path of the path cache of [s]
    is still there, unchanged, in [s']. *)
Definition caches_kept (s s' : State) : Prop :=
  (forall key text, m_sourcecache s !! key = Some text ->
                    m_sourcecache s' !! key = Some text)
  /\ (forall key path, g_shadername_to_path_cache s !! key = Some path ->
                       g_shadername_to_path_cache s' !! key = Some path).

(** The state but for its log. *)
Definition but_log (s : State) :=
  (generator_view s, m_sourcecache s, g_shadername_to_path_cache s).

(** * Properties *)

(** ** Equality of constants *)

Lemma SFeqb_true (a b : spec_float) :
  SFeqb a b = true ->
  (a = b /\ a <> S754_nan) \/
  (exists s1 s2, a = S754_zero s1 /\ b = S754_zero s2).
Proof.
  unfold SFeqb, SFcompare.
  destruct a as [sa|sa| |sa ma ea], b as [sb|sb| |sb mb eb];
    try discriminate; try (destruct sa; discriminate);
    try (destruct sb; discriminate).
  - intros _. right. eauto.
  - destruct sa, sb; try discriminate; intros _; left; split; congruence.
  - destruct sa, sb; try discriminate;
      destruct (Z.compare ea eb) eqn:He; try discriminate;
      destruct (Pos.compare_cont Eq ma mb) eqn:Hm; try discriminate;
      intros _; left;
      apply Z.compare_eq in He; apply Pos.compare_eq in Hm; subst;
      split; congruence.
Qed.

Lemma SFeqb_zero_l (s1 s2 : bool) (c : spec_float) :
  SFeqb (S754_zero s1) c = SFeqb (S754_zero s2) c.
Proof. destruct c; reflexivity. Qed.

Lemma SFeqb_zero_r (s1 s2 : bool) (c : spec_float) :
  SFeqb c (S754_zero s1) = SFeqb c (S754_zero s2).
Proof. destruct c; reflexivity. Qed.

Lemma value_eqb_left (a b c : ConstantValue) :
  value_eqb a b = true -> value_eqb a c = value_eqb b c.
Proof.
  destruct a as [x|x], b as [y|y]; simpl; try discriminate.
  - intros H. apply Z.eqb_eq in H. now subst.
  - intros H. destruct c as [z|z]; [reflexivity|]. simpl.
    destruct (SFeqb_true _ _ H) as [[-> _]|(s1 & s2 & -> & ->)];
      [reflexivity | apply SFeqb_zero_l].
Qed.

Lemma value_eqb_right (a b c : ConstantValue) :
  value_eqb a b = true -> value_eqb c a = value_eqb c b.
Proof.
  destruct a as [x|x], b as [y|y]; simpl; try discriminate.
  - intros H. apply Z.eqb_eq in H. now subst.
  - intros H. destruct c as [z|z]; [reflexivity|]. simpl.
    destruct (SFeqb_true _ _ H) as [[-> _]|(s1 & s2 & -> & ->)];
      [reflexivity | apply SFeqb_zero_r].
Qed.

Lemma entry_eqb_left a b c :
  entry_eqb a b = true -> entry_eqb a c = entry_eqb b c.
Proof.
  unfold entry_eqb. intros H. apply andb_true_iff in H as [Hk Hv].
  apply String.eqb_eq in Hk. rewrite Hk.
  now rewrite (value_eqb_left _ _ c.2 Hv).
Qed.

Lemma entry_eqb_right a b c :
  entry_eqb a b = true -> entry_eqb c a = entry_eqb c b.
Proof.
  unfold entry_eqb. intros H. apply andb_true_iff in H as [Hk Hv].
  apply String.eqb_eq in Hk. rewrite Hk.
  now rewrite (value_eqb_right _ _ c.2 Hv).
Qed.

Lemma entries_eqb_left l1 : forall l2 l3,
  entries_eqb l1 l2 = true -> entries_eqb l1 l3 = entries_eqb l2 l3.
Proof.
  induction l1 as [|a l1 IH]; intros [|b l2] [|c l3]; simpl;
    try discriminate; try reflexivity.
  intros H. apply andb_true_iff in H as [Hab Hl].
  now rewrite (entry_eqb_left _ _ c Hab), (IH _ l3 Hl).
Qed.

Lemma entries_eqb_right l1 : forall l2 l3,
  entries_eqb l1 l2 = true -> entries_eqb l3 l1 = entries_eqb l3 l2.
Proof.
  induction l1 as [|a l1 IH]; intros [|b l2] [|c l3]; simpl;
    try discriminate; try reflexivity.
  intros H. apply andb_true_iff in H as [Hab Hl].
  now rewrite (entry_eqb_right _ _ c Hab), (IH _ l3 Hl).
Qed.

(** Two constant sets that compare equal are matched by the same records. *)
Lemma shader_matches_eq info nm base_mat c1 c2 :
  constants_eqb c1 c2 = true ->
  shader_matches info nm base_mat c1 = shader_matches info nm base_mat c2.
Proof.
  intros H. unfold shader_matches, constants_eqb in *.
  now rewrite (entries_eqb_right _ _ (entries (input_constants info)) H).
Qed.

(** No record is matched by two constant sets that compare unequal. *)
Lemma shader_matches_both info nm base_mat c1 c2 :
  shader_matches info nm base_mat c1 = true ->
  shader_matches info nm base_mat c2 = true ->
  constants_eqb c1 c2 = true.
Proof.
  unfold shader_matches, constants_eqb. intros H1 H2.
  apply andb_true_iff in H1 as [_ H1]. apply andb_true_iff in H2 as [_ H2].
  now rewrite <- (entries_eqb_left _ _ (entries c2) H1).
Qed.

Lemma entries_eqb_elem l1 : forall l2 a,
  entries_eqb l1 l2 = true -> a ∈ l1 ->
  exists b, b ∈ l2 /\ entry_eqb a b = true.
Proof.
  induction l1 as [|x l1 IH]; intros [|y l2] a; simpl; try discriminate.
  - intros _ Ha. inversion Ha.
  - intros H Ha. apply andb_true_iff in H as [Hxy Hl].
    apply elem_of_cons in Ha as [->|Ha].
    + exists y. split; [left | exact Hxy].
    + destruct (IH _ _ Hl Ha) as (b & Hb & Hab).
      exists b. split; [now right | exact Hab].
Qed.

Lemma elem_of_entries (c : ShaderConstants) k v :
  (k, v) ∈ entries c <-> c !! k = Some v.
Proof.
  unfold entries. rewrite merge_sort_Permutation.
  apply elem_of_map_to_list.
Qed.

(** Constant sets that compare equal hold, under each key, values that
    compare equal. *)
Lemma constants_eqb_lookup (c1 c2 : ShaderConstants) k v1 :
  constants_eqb c1 c2 = true -> c1 !! k = Some v1 ->
  exists v2, c2 !! k = Some v2 /\ value_eqb v1 v2 = true.
Proof.
  intros H Hk. apply elem_of_entries in Hk.
  destruct (entries_eqb_elem _ _ _ H Hk) as ([k2 v2] & Hb & Hab).
  unfold entry_eqb in Hab. simpl in Hab.
  apply andb_true_iff in Hab as [Hkk Hv]. apply String.eqb_eq in Hkk. subst k2.
  exists v2. split; [now apply elem_of_entries | exact Hv].
Qed.

(** Sets that differ in the value under one key, the two values comparing
    unequal, compare unequal. *)
Lemma constants_eqb_differ (c : ShaderConstants) k v1 v2 :
  value_eqb v1 v2 = false ->
  constants_eqb (<[k := v1]> c) (<[k := v2]> c) = false.
Proof.
  intros Hv. destruct (constants_eqb _ _) eqn:H; [|reflexivity].
  destruct (constants_eqb_lookup _ _ k v1 H) as (v & Hl & Hvv).
  - apply lookup_insert_eq.
  - rewrite lookup_insert_eq in Hl. congruence.
Qed.

(** ** The scan *)

Lemma find_shader_ext cache : forall i nm base_mat c1 c2,
  (forall info, shader_matches info nm base_mat c1
                = shader_matches info nm base_mat c2) ->
  find_shader cache i nm base_mat c1 = find_shader cache i nm base_mat c2.
Proof.
  induction cache as [|info rest IH]; intros i nm bm c1 c2 H; simpl.
  - reflexivity.
  - rewrite H. destruct (shader_matches info nm bm c2); [reflexivity|].
    now apply IH.
Qed.

Lemma find_shader_app l1 : forall l2 i nm base_mat c,
  find_shader (l1 ++ l2) i nm base_mat c =
  match find_shader l1 i nm base_mat c with
  | Some j => Some j
  | None => find_shader l2 (i + length l1)%nat nm base_mat c
  end.
Proof.
  induction l1 as [|info rest IH]; intros l2 i nm bm c; simpl.
  - now rewrite Nat.add_0_r.
  - destruct (shader_matches info nm bm c); [reflexivity|].
    rewrite IH. now replace (S i + length rest)%nat with (i + S (length rest))%nat by lia.
Qed.

(** The index found is that of a matching record, and no earlier record
    matches. *)
Lemma find_shader_Some cache : forall i j nm base_mat c,
  find_shader cache i nm base_mat c = Some j ->
  (i <= j)%nat /\
  (exists info, cache !! (j - i)%nat = Some info
                /\ shader_matches info nm base_mat c = true) /\
  (forall k info, (k < j - i)%nat -> cache !! k = Some info ->
                  shader_matches info nm base_mat c = false).
Proof.
  induction cache as [|info rest IH]; intros i j nm bm c; simpl.
  - discriminate.
  - destruct (shader_matches info nm bm c) eqn:Hm.
    + intros [= <-]. rewrite Nat.sub_diag. split; [lia|]. split.
      * exists info. now split.
      * intros k x Hk. lia.
    + intros H. destruct (IH _ _ _ _ _ H) as (Hle & (x & Hx & Hxm) & Hmin).
      split; [lia|]. split.
      * exists x. split; [|exact Hxm].
        replace (j - i)%nat with (S (j - S i)) by lia. exact Hx.
      * intros k y Hk Hy. destruct k as [|k]; simpl in Hy.
        -- now inversion Hy; subst.
        -- apply (Hmin k y); [lia | exact Hy].
Qed.

Lemma find_shader_None cache : forall i nm base_mat c,
  find_shader cache i nm base_mat c = None ->
  forall info, info ∈ cache -> shader_matches info nm base_mat c = false.
Proof.
  induction cache as [|x rest IH]; intros i nm bm c; simpl.
  - intros _ info Hin. inversion Hin.
  - destruct (shader_matches x nm bm c) eqn:Hm; [discriminate|].
    intros H info Hin. apply elem_of_cons in Hin as [->|Hin]; [exact Hm|].
    now apply (IH _ _ _ _ H).
Qed.

Lemma find_shader_lt cache i j nm base_mat c :
  find_shader cache i nm base_mat c = Some j ->
  (j < i + length cache)%nat.
Proof.
  intros H. destruct (find_shader_Some _ _ _ _ _ _ H) as (Hle & (x & Hx & _) & _).
  apply lookup_lt_Some in Hx. lia.
Qed.

(** A record with an empty name is matched by no request with a name. *)
Lemma shader_matches_empty_name info nm base_mat c :
  name info = EmptyString -> empty nm = false ->
  shader_matches info nm base_mat c = false.
Proof.
  intros Hn He. unfold shader_matches. rewrite Hn.
  destruct nm; [discriminate | reflexivity].
Qed.

(** ** Frames and results of computations *)

Lemma preserves_ret {A B} (f : State -> B) (a : A) : preserves f (ret a).
Proof. now intros s. Qed.

Lemma preserves_throw {A B} (f : State -> B) e : preserves f (@throw A e).
Proof. now intros s. Qed.

Lemma preserves_fatal {A B} (f : State -> B) msg : preserves f (@fatal A msg).
Proof. now intros s. Qed.

Lemma preserves_gets {A B} (f : State -> B) (g : State -> A) :
  preserves f (gets g).
Proof. now intros s. Qed.

Lemma preserves_assert {B} (f : State -> B) cond msg :
  preserves f (assert cond msg).
Proof. now destruct cond; intros s. Qed.

Lemma preserves_bind {A B C} (f : State -> C) (m : M A) (k : A -> M B) :
  preserves f m -> (forall a, preserves f (k a)) -> preserves f (bind m k).
Proof.
  intros Hm Hk s. unfold bind. specialize (Hm s).
  destruct (m s) as [[a|e|msg] s']; simpl in *; try exact Hm.
  now rewrite (Hk a s').
Qed.

Lemma preserves_modify {B} (f : State -> B) (g : State -> State) :
  (forall s, f (g s) = f s) -> preserves f (modify g).
Proof. intros H s. apply H. Qed.

Lemma returns_bind {A B} (Q : B -> Prop) (m : M A) (k : A -> M B) :
  (forall a, returns Q (k a)) -> returns Q (bind m k).
Proof.
  intros Hk s b s'. unfold bind.
  destruct (m s) as [[a|e|msg] s1]; try discriminate.
  apply Hk.
Qed.

Lemma returns_ret {A} (Q : A -> Prop) (a : A) : Q a -> returns Q (ret a).
Proof. intros H s b s' [= <- _]. exact H. Qed.

Lemma returns_throw {A} (Q : A -> Prop) e : returns Q (throw e).
Proof. intros s b s'. discriminate. Qed.

Lemma returns_fatal {A} (Q : A -> Prop) msg : returns Q (fatal msg).
Proof. intros s b s'. discriminate. Qed.

Ltac frame_step :=
  lazymatch goal with
  | |- preserves _ (ret _) => apply preserves_ret
  | |- preserves _ (throw _) => apply preserves_throw
  | |- preserves _ (fatal _) => apply preserves_fatal
  | |- preserves _ (gets _) => apply preserves_gets
  | |- preserves _ (assert _ _) => apply preserves_assert
  | |- preserves _ (modify _) => apply preserves_modify; intros; reflexivity
  | |- preserves _ (bind _ _) => apply preserves_bind; [|intros]
  | |- preserves _ (match ?x with _ => _ end) => destruct x
  | |- preserves _ (let _ := _ in _) => cbv zeta
  end.

Ltac frame := repeat frame_step.

Lemma preserves_log {B} (f : State -> B) stream text :
  (forall v s, f (set_log_lines v s) = f s) -> preserves f (log stream text).
Proof. intros H. apply preserves_modify. intros s. apply H. Qed.

Lemma preserves_log_all {B} (f : State -> B) stream texts :
  (forall v s, f (set_log_lines v s) = f s) ->
  preserves f (log_all stream texts).
Proof.
  intros H. induction texts as [|t rest IH]; simpl.
  - apply preserves_ret.
  - apply preserves_bind; [now apply preserves_log | intros; exact IH].
Qed.

Section Frames.

Variable P : Platform.

Lemma getShaderPath_generator_view name_of_shader filename :
  preserves generator_view (getShaderPath P name_of_shader filename).
Proof. unfold getShaderPath. frame. Qed.

Lemma getOrLoad_generator_view name_of_shader filename :
  preserves generator_view (SourceShaderCache_getOrLoad P name_of_shader filename).
Proof.
  unfold SourceShaderCache_getOrLoad, store_program, log.
  frame; apply getShaderPath_generator_view.
Qed.

Lemma insert_generator_view name_of_shader filename program prefer_local :
  preserves generator_view
    (SourceShaderCache_insert P name_of_shader filename program prefer_local).
Proof.
  unfold SourceShaderCache_insert, store_program.
  frame; apply getShaderPath_generator_view.
Qed.

Lemma insertSourceShader_generator_view caller name_of_shader filename program :
  preserves generator_view
    (insertSourceShader P caller name_of_shader filename program).
Proof.
  unfold insertSourceShader. frame. apply insert_generator_view.
Qed.

Lemma dumpShaderProgram_registry_view stream program_type program :
  preserves registry_view (dumpShaderProgram stream program_type program).
Proof. unfold dumpShaderProgram. now apply preserves_log_all. Qed.

Lemma preserves_registry_of_generator {A} (m : M A) :
  preserves generator_view m -> preserves registry_view m.
Proof. intros H s. specialize (H s). unfold generator_view in H. congruence. Qed.

(** Generation does not touch the registry's own fields. *)
Lemma generateShader_registry_view nm input_const base_mat :
  preserves registry_view (generateShader P nm input_const base_mat).
Proof.
  unfold generateShader, compile, log.
  frame;
    try apply dumpShaderProgram_registry_view;
    apply preserves_registry_of_generator, getOrLoad_generator_view.
Qed.

(** The record generated carries the name, the constants and the base
    material it was asked for. *)
Lemma generateShader_returns nm input_const base_mat :
  returns (fun info => record_key info = (nm, input_const, base_mat))
    (generateShader P nm input_const base_mat).
Proof.
  unfold generateShader.
  apply returns_bind; intros _.
  destruct (E_DRIVER_TYPE_eqb _ _); [now apply returns_ret|].
  destruct (_ || _); [apply returns_throw|].
  do 2 (apply returns_bind; intros ?).
  do 3 (apply returns_bind; intros ?).
  do 3 (apply returns_bind; intros ?).
  destruct (Z.eqb _ _).
  - do 4 (apply returns_bind; intros ?). apply returns_throw.
  - now apply returns_ret.
Qed.

End Frames.

(** ** getShaderIdDirect, case by case *)

Section Registry.

Variable P : Platform.

Lemma getShaderIdDirect_empty caller nm input_const base_mat s :
  empty nm = true ->
  getShaderIdDirect P caller nm input_const base_mat s =
  (Ok 0,
   set_log_lines ((infostream, "getShaderIdDirect(): name is empty")
                  :: log_lines s) s).
Proof. intros He. unfold getShaderIdDirect. now rewrite He. Qed.

Lemma getShaderIdDirect_hit caller nm input_const base_mat s i :
  empty nm = false ->
  find_shader (m_shaderinfo_cache s) 0 nm base_mat input_const = Some i ->
  getShaderIdDirect P caller nm input_const base_mat s = (Ok (Z.of_nat i), s).
Proof.
  intros He Hf. unfold getShaderIdDirect, bind, gets.
  now rewrite He, Hf.
Qed.

Lemma getShaderIdDirect_rejected caller nm input_const base_mat s :
  empty nm = false ->
  find_shader (m_shaderinfo_cache s) 0 nm base_mat input_const = None ->
  caller <> m_main_thread s ->
  getShaderIdDirect P caller nm input_const base_mat s =
  (Ok 0,
   set_log_lines
     ((errorstream,
       "ShaderSource::getShaderIdDirect() called not from main thread")
      :: log_lines s) s).
Proof.
  intros He Hf Hc. unfold getShaderIdDirect, bind, gets.
  rewrite He, Hf. apply Nat.eqb_neq in Hc. now rewrite Hc.
Qed.

Lemma getShaderIdDirect_generate nm input_const base_mat s :
  empty nm = false ->
  find_shader (m_shaderinfo_cache s) 0 nm base_mat input_const = None ->
  getShaderIdDirect P (m_main_thread s) nm input_const base_mat s =
  match generateShader P nm input_const base_mat s with
  | (Ok info, s') =>
      (Ok (to_u32 (Z.of_nat (length (m_shaderinfo_cache s')))),
       set_shaderinfo_cache (m_shaderinfo_cache s' ++ [info]) s')
  | (Throw e, s') => (Throw e, s')
  | (Fatal msg, s') => (Fatal msg, s')
  end.
Proof.
  intros He Hf. unfold getShaderIdDirect, bind, gets.
  rewrite He, Hf, Nat.eqb_refl. simpl.
  now destruct (generateShader P nm input_const base_mat s) as [[info|e|msg] s'].
Qed.

Lemma getShader_main nm input_const base_mat s :
  getShader P (m_main_thread s) nm input_const base_mat s =
  getShaderIdDirect P (m_main_thread s) nm input_const base_mat s.
Proof. unfold getShader, bind, gets. now rewrite Nat.eqb_refl. Qed.

Lemma getShader_rejected caller nm input_const base_mat s :
  caller <> m_main_thread s ->
  getShader P caller nm input_const base_mat s =
  (Ok 0,
   set_log_lines
     ((errorstream,
       "ShaderSource::getShader(): getting from other thread not implemented")
      :: log_lines s) s).
Proof.
  intros Hc. unfold getShader, bind, gets.
  apply Nat.eqb_neq in Hc. now rewrite Hc.
Qed.

(** What a request does to the table: nothing, or one record appended, which
    carries the requested name. *)
Lemma getShaderIdDirect_table caller nm input_const base_mat s :
  let s' := (getShaderIdDirect P caller nm input_const base_mat s).2 in
  m_shaderinfo_cache s' = m_shaderinfo_cache s
  \/ exists info, m_shaderinfo_cache s' = (m_shaderinfo_cache s ++ [info])%list
                  /\ record_key info = (nm, input_const, base_mat)
                  /\ empty nm = false.
Proof.
  destruct (empty nm) eqn:He.
  { rewrite getShaderIdDirect_empty by exact He. now left. }
  destruct (find_shader (m_shaderinfo_cache s) 0 nm base_mat input_const)
    as [i|] eqn:Hf.
  { rewrite (getShaderIdDirect_hit _ _ _ _ _ _ He Hf). now left. }
  destruct (Nat.eq_dec caller (m_main_thread s)) as [->|Hc].
  - rewrite (getShaderIdDirect_generate _ _ _ _ He Hf).
    pose proof (generateShader_registry_view P nm input_const base_mat s) as Hv.
    pose proof (generateShader_returns P nm input_const base_mat s) as Hr.
    destruct (generateShader P nm input_const base_mat s) as [[info|e|msg] s1];
      simpl in *; unfold registry_view in Hv.
    + right. exists info. split; [|split].
      * f_equal. congruence.
      * now apply (Hr info s1).
      * reflexivity.
    + left. congruence.
    + left. congruence.
  - rewrite (getShaderIdDirect_rejected _ _ _ _ _ He Hf Hc). now left.
Qed.

Lemma getShader_table caller nm input_const base_mat s :
  let s' := (getShader P caller nm input_const base_mat s).2 in
  m_shaderinfo_cache s' = m_shaderinfo_cache s
  \/ exists info, m_shaderinfo_cache s' = (m_shaderinfo_cache s ++ [info])%list
                  /\ record_key info = (nm, input_const, base_mat)
                  /\ empty nm = false.
Proof.
  destruct (Nat.eq_dec caller (m_main_thread s)) as [->|Hc].
  - rewrite getShader_main. apply getShaderIdDirect_table.
  - rewrite (getShader_rejected _ _ _ _ _ Hc). now left.
Qed.

(** ** The two loops of rebuildShaders *)

Lemma insert_same_key (cache : list ShaderInfo) i info info' :
  cache !! i = Some info -> record_key info' = record_key info ->
  record_key <$> <[i := info']> cache = record_key <$> cache.
Proof.
  intros Hi Hk. rewrite list_fmap_insert, Hk.
  apply list_insert_id. now rewrite list_lookup_fmap, Hi.
Qed.

Lemma delete_materials_keys n : forall i s,
  record_key <$> m_shaderinfo_cache (delete_materials n i s).2 =
  record_key <$> m_shaderinfo_cache s.
Proof.
  induction n as [|n IH]; intros i s; [reflexivity|].
  cbn [delete_materials]. unfold bind at 1, gets at 1.
  destruct (m_shaderinfo_cache s !! i) as [info|] eqn:Hi; [|reflexivity].
  unfold bind at 1.
  destruct (negb (empty (name info))).
  - unfold bind, deleteShaderMaterial, modify. cbn [fst snd].
    rewrite IH. cbn. now apply (insert_same_key _ _ info).
  - cbn. apply IH.
Qed.

Lemma recreate_shaders_keys n : forall i s,
  record_key <$> m_shaderinfo_cache (recreate_shaders P n i s).2 =
  record_key <$> m_shaderinfo_cache s.
Proof.
  induction n as [|n IH]; intros i s; [reflexivity|].
  cbn [recreate_shaders]. unfold bind at 1, gets at 1.
  destruct (m_shaderinfo_cache s !! i) as [info|] eqn:Hi; [|reflexivity].
  unfold bind at 1.
  destruct (negb (empty (name info))).
  - unfold bind at 1.
    pose proof (generateShader_registry_view P (name info)
                  (input_constants info) (base_material info) s) as Hv.
    pose proof (generateShader_returns P (name info)
                  (input_constants info) (base_material info) s) as Hr.
    destruct (generateShader P (name info) (input_constants info)
                (base_material info) s) as [[info'|e|msg] s1];
      simpl in Hv; unfold registry_view in Hv.
    + unfold modify. cbn [fst snd]. rewrite IH. cbn.
      assert (m_shaderinfo_cache s1 = m_shaderinfo_cache s) as -> by congruence.
      apply (insert_same_key _ _ info); [exact Hi|].
      now rewrite (Hr info' s1 eq_refl).
    + cbn. congruence.
    + cbn. congruence.
  - cbn. apply IH.
Qed.

(** A rebuild, whatever its outcome, leaves the name, the constants and the
    base material of every record where they were. *)
Lemma rebuildShaders_keys s :
  record_key <$> m_shaderinfo_cache (rebuildShaders P s).2 =
  record_key <$> m_shaderinfo_cache s.
Proof.
  unfold rebuildShaders. unfold bind at 1.
  destruct (has_gpu P); [|reflexivity]. cbn [assert ret].
  unfold bind at 1, gets at 1.
  unfold bind at 1.
  pose proof (delete_materials_keys (length (m_shaderinfo_cache s)) 0 s) as Hd.
  destruct (delete_materials _ _ s) as [[[]|e|msg] s1]; simpl in Hd;
    try exact Hd.
  unfold bind at 1, log, modify. cbn [fst snd].
  now rewrite recreate_shaders_keys.
Qed.

End Registry.

(** ** The sentinel record *)

Lemma reachable_sentinel s :
  reachable s ->
  exists info rest,
    m_shaderinfo_cache s = info :: rest /\ name info = EmptyString.
Proof.
  induction 1 as [t w
                 |P caller nm c bm s _ (info & rest & Ht & Hn)
                 |P caller nm c bm s _ (info & rest & Ht & Hn)
                 |P caller n f p s _ (info & rest & Ht & Hn)
                 |P s _ (info & rest & Ht & Hn)
                 |setter s _ IH
                 |setter s _ IH
                 |s _ IH].
  - now exists empty_ShaderInfo, [].
  - destruct (getShader_table P caller nm c bm s) as [Hs|(x & Hs & _)];
      rewrite Hs, Ht; [now exists info, rest|].
    now exists info, (rest ++ [x])%list.
  - destruct (getShaderIdDirect_table P caller nm c bm s) as [Hs|(x & Hs & _)];
      rewrite Hs, Ht; [now exists info, rest|].
    now exists info, (rest ++ [x])%list.
  - pose proof (insertSourceShader_generator_view P caller n f p s) as Hv.
    unfold generator_view, registry_view in Hv.
    exists info, rest. split; [congruence | exact Hn].
  - pose proof (rebuildShaders_keys P s) as Hk. rewrite Ht in Hk.
    destruct (m_shaderinfo_cache (rebuildShaders P s).2) as [|info' rest'];
      [discriminate|].
    exists info', rest'. split; [reflexivity|].
    cbn in Hk. unfold record_key in Hk. congruence.
  - exact IH.
  - exact IH.
  - exact IH.
Qed.

(** A result is the pair of its outcome and its state. *)
Lemma result_of_outcome {A} (r : Outcome A * State) (o : Outcome A) :
  r.1 = o -> r = (o, r.2).
Proof. intros <-. now destruct r. Qed.

(** ** The claims *)

(** C5.  For every id at or beyond the length of the table, whatever the state
    of the registry, [getShaderInfo] returns the sentinel record: its name is
    empty and its materials are [EMT_SOLID].  The lookup is a total function:
    it has no failing outcome. *)
Theorem getShaderInfo_out_of_range (s : State) (id : Z) :
  Z.of_nat (length (m_shaderinfo_cache s)) <= id ->
  getShaderInfo id s = empty_ShaderInfo
  /\ name (getShaderInfo id s) = EmptyString
  /\ base_material (getShaderInfo id s) = EMT_SOLID
  /\ material (getShaderInfo id s) = EMT_SOLID.
Proof.
  intros H. unfold getShaderInfo.
  apply Z.leb_le in H. rewrite H. now repeat split.
Qed.

Lemma getShaderInfo_out_of_range_witness :
  Z.of_nat (length (m_shaderinfo_cache fresh_registry)) <= 5
  /\ getShaderInfo 5 fresh_registry = empty_ShaderInfo.
Proof.
  assert (Z.of_nat (length (m_shaderinfo_cache fresh_registry)) <= 5) as H
    by (simpl; lia).
  split; [exact H|].
  exact (proj1 (getShaderInfo_out_of_range fresh_registry 5 H)).
Defined.

(** C3.  [getShader] called from a thread other than the main thread returns
    id 0 and writes one line to the error stream; nothing else of the state
    changes, so the table keeps its length and its records, the GPU services
    are not called and nothing is queued. *)
Theorem getShader_from_other_thread (P : Platform) (s : State)
    (caller : thread_id) (nm : string) (input_const : ShaderConstants)
    (base_mat : E_MATERIAL_TYPE) :
  caller <> m_main_thread s ->
  let r := getShader P caller nm input_const base_mat s in
  r.1 = Ok 0
  /\ r.2 = set_log_lines
             ((errorstream,
               "ShaderSource::getShader(): getting from other thread not implemented")
              :: log_lines s) s
  /\ length (m_shaderinfo_cache r.2) = length (m_shaderinfo_cache s)
  /\ m_shaderinfo_cache r.2 = m_shaderinfo_cache s
  /\ gpu_events r.2 = gpu_events s.
Proof.
  intros Hc r. subst r. rewrite (getShader_rejected P _ _ _ _ _ Hc).
  now repeat split.
Qed.

Lemma getShader_from_other_thread_witness :
  8%nat <> m_main_thread fresh_registry
  /\ (getShader opengl3_platform 8%nat "nodes_shader" ∅ EMT_SOLID
        fresh_registry).1 = Ok 0.
Proof.
  assert (8%nat <> m_main_thread fresh_registry) as H by (simpl; lia).
  split; [exact H|].
  exact (proj1 (getShader_from_other_thread opengl3_platform fresh_registry
                  8%nat "nodes_shader" ∅ EMT_SOLID H)).
Defined.

Example getShaderIdDirect_other_thread_hit :
  (getShaderIdDirect opengl3_platform 8%nat "a" ∅ EMT_SOLID registry_with_a).1
  = Ok 1.
Proof. vm_compute. reflexivity. Qed.

(** C1, as the code has it.  Two successive [getShader] calls from the main
    thread for a shader with a name return the same id when the constants of
    the second compare equal, under the map's [operator==], to those of the
    first (the same keys, the same alternative under each key, and values
    equal under [==]; a NaN is not equal to itself); the second call leaves
    the whole state as it was: no generation, no record appended.  The table
    holds fewer than [2^32] records. *)
Theorem getShader_twice (P1 P2 : Platform) (s s1 : State) (nm : string)
    (c1 c2 : ShaderConstants) (base_mat : E_MATERIAL_TYPE) (id : Z) :
  empty nm = false ->
  table_fits s ->
  constants_eqb c1 c2 = true ->
  getShader P1 (m_main_thread s) nm c1 base_mat s = (Ok id, s1) ->
  getShader P2 (m_main_thread s1) nm c2 base_mat s1 = (Ok id, s1).
Proof.
  intros He Hfit Heq H1.
  rewrite getShader_main in *.
  assert (forall info, shader_matches info nm base_mat c1
                       = shader_matches info nm base_mat c2) as Hm
    by (intros info; now apply shader_matches_eq).
  destruct (find_shader (m_shaderinfo_cache s) 0 nm base_mat c1)
    as [i|] eqn:Hf.
  - rewrite (getShaderIdDirect_hit _ _ _ _ _ _ _ He Hf) in H1.
    injection H1 as <- <-.
    apply getShaderIdDirect_hit; [exact He|].
    now rewrite <- (find_shader_ext _ _ _ _ c1 c2 Hm).
  - rewrite (getShaderIdDirect_generate _ _ _ _ _ He Hf) in H1.
    pose proof (generateShader_registry_view P1 nm c1 base_mat s) as Hv.
    pose proof (generateShader_returns P1 nm c1 base_mat s) as Hr.
    destruct (generateShader P1 nm c1 base_mat s) as [[info|e|msg] s'];
      try discriminate.
    simpl in Hv. unfold registry_view in Hv.
    assert (m_shaderinfo_cache s' = m_shaderinfo_cache s) as Ht by congruence.
    injection H1 as <- <-.
    rewrite Ht. unfold to_u32. rewrite Z.mod_small by (unfold table_fits in Hfit; lia).
    apply getShaderIdDirect_hit; [exact He|].
    cbn [m_shaderinfo_cache set_shaderinfo_cache].
    rewrite find_shader_app.
    rewrite <- (find_shader_ext _ _ _ _ c1 c2 Hm), Hf.
    cbn [find_shader].
    specialize (Hr info s' eq_refl). unfold record_key in Hr.
    injection Hr as Hn Hc Hb.
    unfold shader_matches. rewrite Hn, Hb, Hc, String.eqb_refl, Z.eqb_refl.
    cbn [andb]. now rewrite Heq.
Qed.

Lemma getShader_twice_witness :
  empty "a" = false
  /\ table_fits fresh_registry
  /\ constants_eqb (constants_X float_one) (constants_X float_one) = true
  /\ getShader null_platform (m_main_thread fresh_registry) "a"
       (constants_X float_one) EMT_SOLID fresh_registry
     = (Ok 1, (getShader null_platform 7%nat "a" (constants_X float_one)
                 EMT_SOLID fresh_registry).2)
  /\ getShader opengl3_platform 7%nat "a" (constants_X float_one) EMT_SOLID
       (getShader null_platform 7%nat "a" (constants_X float_one)
          EMT_SOLID fresh_registry).2
     = (Ok 1, (getShader null_platform 7%nat "a" (constants_X float_one)
                 EMT_SOLID fresh_registry).2).
Proof.
  assert (empty "a" = false) as H1 by reflexivity.
  assert (table_fits fresh_registry) as H2 by (unfold table_fits; simpl; lia).
  assert (constants_eqb (constants_X float_one) (constants_X float_one) = true)
    as H3 by (vm_compute; reflexivity).
  assert (getShader null_platform (m_main_thread fresh_registry) "a"
            (constants_X float_one) EMT_SOLID fresh_registry
          = (Ok 1, (getShader null_platform 7%nat "a" (constants_X float_one)
                      EMT_SOLID fresh_registry).2)) as H4
    by (apply result_of_outcome; vm_compute; reflexivity).
  split; [exact H1|]. split; [exact H2|]. split; [exact H3|].
  split; [exact H4|].
  exact (getShader_twice null_platform opengl3_platform fresh_registry _ "a"
           (constants_X float_one) (constants_X float_one) EMT_SOLID 1
           H1 H2 H3 H4).
Defined.

(** C1, as stated, fails: requested twice with the same constants, one of
    them a float holding a NaN, the shader "a" gets id 1, then id 2, and the
    table grows by a record at the second call too. *)
Lemma getShader_twice_nan :
  (getShader null_platform 7%nat "a" (constants_X S754_nan) EMT_SOLID
     fresh_registry).1 = Ok 1
  /\ (getShader null_platform 7%nat "a" (constants_X S754_nan) EMT_SOLID
        (getShader null_platform 7%nat "a" (constants_X S754_nan) EMT_SOLID
           fresh_registry).2).1 = Ok 2
  /\ length (m_shaderinfo_cache
       (getShader null_platform 7%nat "a" (constants_X S754_nan) EMT_SOLID
          fresh_registry).2) = 2%nat
  /\ length (m_shaderinfo_cache
       (getShader null_platform 7%nat "a" (constants_X S754_nan) EMT_SOLID
          (getShader null_platform 7%nat "a" (constants_X S754_nan) EMT_SOLID
             fresh_registry).2).2) = 3%nat.
Proof. vm_compute. repeat split. Qed.

(** ** Distinct keys, distinct ids *)


Lemma to_u32_succ n :
  0 <= n < 2 ^ 32 -> to_u32 n = n /\ to_u32 (n + 1) <> n.
Proof.
  unfold to_u32. change (2 ^ 32) with 4294967296. intros H.
  split; [now apply Z.mod_small|].
  destruct (Z.eq_dec (n + 1) 4294967296) as [Heq|Hne].
  - rewrite Heq, Z.mod_same by lia. lia.
  - rewrite Z.mod_small by lia. lia.
Qed.


(** ** Two requests with other operations between them *)

(** The scan looks at the key of a record only. *)
Lemma shader_matches_key x x' nm bm c :
  record_key x' = record_key x ->
  shader_matches x' nm bm c = shader_matches x nm bm c.
Proof.
  unfold record_key, shader_matches. intros H. injection H as Hn Hc Hb.
  now rewrite Hn, Hc, Hb.
Qed.

(** An operation keeps the keys of the records at their indexes; it may add
    records at the end. *)
Lemma operation_keys s s' :
  operation s s' ->
  exists more,
    record_key <$> m_shaderinfo_cache s'
    = ((record_key <$> m_shaderinfo_cache s) ++ more)%list.
Proof.
  intros H. destruct H as [P caller nm c bm s
                          |P caller nm c bm s
                          |P caller n f p s
                          |P s
                          |setter s
                          |setter s
                          |s].
  - destruct (getShader_table P caller nm c bm s) as [Ht|(info & Ht & _)];
      rewrite Ht.
    + exists []. now rewrite app_nil_r.
    + exists [record_key info]. now rewrite fmap_app.
  - destruct (getShaderIdDirect_table P caller nm c bm s)
      as [Ht|(info & Ht & _)]; rewrite Ht.
    + exists []. now rewrite app_nil_r.
    + exists [record_key info]. now rewrite fmap_app.
  - pose proof (insertSourceShader_generator_view P caller n f p s) as Hv.
    unfold generator_view, registry_view in Hv.
    replace (m_shaderinfo_cache (insertSourceShader P caller n f p s).2)
      with (m_shaderinfo_cache s) by congruence.
    exists []. now rewrite app_nil_r.
  - rewrite rebuildShaders_keys. exists []. now rewrite app_nil_r.
  - exists []. now rewrite app_nil_r.
  - exists []. now rewrite app_nil_r.
  - exists []. now rewrite app_nil_r.
Qed.

Lemma evolves_keys s s' :
  evolves s s' ->
  exists more,
    record_key <$> m_shaderinfo_cache s'
    = ((record_key <$> m_shaderinfo_cache s) ++ more)%list.
Proof.
  induction 1 as [s|s s' s'' _ [more IH] Hop].
  - exists []. now rewrite app_nil_r.
  - destruct (operation_keys _ _ Hop) as [more' Hk].
    exists (more ++ more')%list. now rewrite Hk, IH, app_assoc.
Qed.

(** A record of a state is still there, under its index and with its key, in
    every state that comes after. *)
Lemma evolves_record s s' i x :
  evolves s s' ->
  m_shaderinfo_cache s !! i = Some x ->
  exists x', m_shaderinfo_cache s' !! i = Some x'
             /\ record_key x' = record_key x.
Proof.
  intros He Hi. destruct (evolves_keys _ _ He) as [more Hk].
  assert ((record_key <$> m_shaderinfo_cache s') !! i = Some (record_key x))
    as H.
  { rewrite Hk. apply lookup_app_l_Some. now rewrite list_lookup_fmap, Hi. }
  rewrite list_lookup_fmap in H.
  destruct (m_shaderinfo_cache s' !! i) as [x'|]; [|discriminate].
  exists x'. split; [reflexivity|]. cbn in H. congruence.
Qed.

(** The record under the id a request returned to the main thread does not
    match a request for other constants. *)
Lemma request_record P s s1 nm c1 c2 bm id :
  empty nm = false ->
  table_fits s ->
  constants_eqb c1 c2 = false ->
  getShader P (m_main_thread s) nm c1 bm s = (Ok id, s1) ->
  exists i x, id = Z.of_nat i
              /\ m_shaderinfo_cache s1 !! i = Some x
              /\ shader_matches x nm bm c2 = false.
Proof.
  intros He Hfit Hne H. unfold table_fits in Hfit.
  rewrite getShader_main in H.
  destruct (find_shader (m_shaderinfo_cache s) 0 nm bm c1) as [i|] eqn:Hf.
  - rewrite (getShaderIdDirect_hit _ _ _ _ _ _ _ He Hf) in H.
    injection H as <- <-.
    destruct (find_shader_Some _ _ _ _ _ _ Hf) as (_ & (x & Hx & Hxm) & _).
    rewrite Nat.sub_0_r in Hx.
    exists i, x. split; [reflexivity|]. split; [exact Hx|].
    destruct (shader_matches x nm bm c2) eqn:Hm2; [|reflexivity].
    pose proof (shader_matches_both _ _ _ _ _ Hxm Hm2) as Hboth.
    congruence.
  - rewrite (getShaderIdDirect_generate _ _ _ _ _ He Hf) in H.
    pose proof (generateShader_registry_view P nm c1 bm s) as Hv.
    pose proof (generateShader_returns P nm c1 bm s) as Hr.
    destruct (generateShader P nm c1 bm s) as [[info|e|msg] s'];
      try discriminate.
    simpl in Hv. unfold registry_view in Hv.
    assert (m_shaderinfo_cache s' = m_shaderinfo_cache s) as Ht by congruence.
    specialize (Hr info s' eq_refl). unfold record_key in Hr.
    injection Hr as Hn Hc Hb.
    injection H as <- <-. rewrite Ht.
    exists (length (m_shaderinfo_cache s)), info.
    split; [|split].
    + now destruct (to_u32_succ (Z.of_nat (length (m_shaderinfo_cache s))))
        as [-> _]; [lia|].
    + cbn [m_shaderinfo_cache set_shaderinfo_cache].
      rewrite lookup_app_r by lia. now rewrite Nat.sub_diag.
    + unfold shader_matches.
      now rewrite Hn, Hb, Hc, String.eqb_refl, Z.eqb_refl, Hne.
Qed.

(** C2, as the code has it.  Any two [getShader] calls from the main thread
    with the same name and base material, whose constants differ under one
    key only, the two values there comparing unequal under the variant's
    [operator==] (another alternative, another integer, or floats that [==]
    tells apart; the two zeros are equal), return different ids when both
    return one: the second call may come at any time after the first, after
    any requests, direct requests, insertions, rebuilds and registrations
    from any thread.  The table holds fewer than [2^32] records at both
    calls. *)
Theorem getShader_distinct_constants (P1 P2 : Platform)
    (s s1 s1' s2 : State)
    (nm : string) (c : ShaderConstants) (key : string)
    (v1 v2 : ConstantValue) (base_mat : E_MATERIAL_TYPE) (id1 id2 : Z) :
  empty nm = false ->
  table_fits s ->
  table_fits s1' ->
  value_eqb v1 v2 = false ->
  getShader P1 (m_main_thread s) nm (<[key := v1]> c) base_mat s
  = (Ok id1, s1) ->
  evolves s1 s1' ->
  getShader P2 (m_main_thread s1') nm (<[key := v2]> c) base_mat s1'
  = (Ok id2, s2) ->
  id1 <> id2.
Proof.
  intros He Hfit Hfit' Hv H1 Hev H2. unfold table_fits in Hfit'.
  pose proof (constants_eqb_differ c key v1 v2 Hv) as Hne.
  destruct (request_record P1 s s1 nm _ _ base_mat id1 He Hfit Hne H1)
    as (i & x & -> & Hx & Hxm).
  destruct (evolves_record s1 s1' i x Hev Hx) as (x' & Hx' & Hk).
  rewrite <- (shader_matches_key x x' _ _ _ Hk) in Hxm.
  pose proof (lookup_lt_Some _ _ _ Hx') as Hlt.
  rewrite getShader_main in H2.
  destruct (find_shader (m_shaderinfo_cache s1') 0 nm base_mat
              (<[key := v2]> c)) as [j|] eqn:Hf.
  - rewrite (getShaderIdDirect_hit _ _ _ _ _ _ _ He Hf) in H2.
    injection H2 as <- <-.
    destruct (find_shader_Some _ _ _ _ _ _ Hf) as (_ & (y & Hy & Hym) & _).
    rewrite Nat.sub_0_r in Hy.
    intros Hij. apply Nat2Z.inj in Hij. subst j.
    rewrite Hx' in Hy. injection Hy as <-. congruence.
  - rewrite (getShaderIdDirect_generate _ _ _ _ _ He Hf) in H2.
    pose proof (generateShader_registry_view P2 nm (<[key := v2]> c)
                  base_mat s1') as Hrv.
    destruct (generateShader P2 nm (<[key := v2]> c) base_mat s1')
      as [[info|e|msg] s']; try discriminate.
    simpl in Hrv. unfold registry_view in Hrv.
    assert (m_shaderinfo_cache s' = m_shaderinfo_cache s1') as Ht
      by congruence.
    injection H2 as <- <-. rewrite Ht.
    destruct (to_u32_succ (Z.of_nat (length (m_shaderinfo_cache s1'))))
      as [-> _]; lia.
Qed.

Lemma getShader_distinct_constants_witness :
  empty "a" = false
  /\ table_fits fresh_registry
  /\ table_fits registry_later
  /\ value_eqb (CInt 1) (CInt 2) = false
  /\ (getShader null_platform 7%nat "a" (<["X" := CInt 1]> ∅) EMT_SOLID
        fresh_registry).1 = Ok 1
  /\ evolves registry_with_X1 registry_later
  /\ (getShader null_platform 7%nat "a" (<["X" := CInt 2]> ∅) EMT_SOLID
        registry_later).1 = Ok 3
  /\ 1 <> 3.
Proof.
  assert (empty "a" = false) as H1 by reflexivity.
  assert (table_fits fresh_registry) as H2 by (unfold table_fits; simpl; lia).
  assert (value_eqb (CInt 1) (CInt 2) = false) as H3 by reflexivity.
  assert (getShader null_platform (m_main_thread fresh_registry) "a"
            (<["X" := CInt 1]> ∅) EMT_SOLID fresh_registry
          = (Ok 1, registry_with_X1)) as H4
    by (apply result_of_outcome; vm_compute; reflexivity).
  assert (evolves registry_with_X1 registry_later) as H5.
  { unfold registry_later.
    eapply evolves_step; [|apply operation_rebuildShaders].
    eapply evolves_step; [|apply operation_getShader].
    apply evolves_refl. }
  assert (getShader null_platform (m_main_thread registry_later) "a"
            (<["X" := CInt 2]> ∅) EMT_SOLID registry_later
          = (Ok 3,
             (getShader null_platform (m_main_thread registry_later) "a"
                (<["X" := CInt 2]> ∅) EMT_SOLID registry_later).2)) as H6
    by (apply result_of_outcome; vm_compute; reflexivity).
  assert (table_fits registry_later) as H7
    by (unfold table_fits; vm_compute; reflexivity).
  split; [exact H1|]. split; [exact H2|]. split; [exact H7|].
  split; [exact H3|].
  split; [vm_compute; reflexivity|]. split; [exact H5|].
  split; [vm_compute; reflexivity|].
  exact (getShader_distinct_constants null_platform null_platform
           fresh_registry registry_with_X1 registry_later _ "a" ∅ "X"
           (CInt 1) (CInt 2) EMT_SOLID 1 3 H1 H2 H7 H3 H4 H5 H6).
Defined.

(** C2, as stated, fails: the constants of two requests differ in the value
    under "X" only, a positive zero against a negative zero, and both
    requests get id 1. *)
Lemma getShader_signed_zeros :
  S754_zero false <> S754_zero true
  /\ (getShader null_platform 7%nat "a" (<["X" := CFloat (S754_zero false)]> ∅)
        EMT_SOLID fresh_registry).1 = Ok 1
  /\ (getShader null_platform 7%nat "a" (<["X" := CFloat (S754_zero true)]> ∅)
        EMT_SOLID
        (getShader null_platform 7%nat "a"
           (<["X" := CFloat (S754_zero false)]> ∅) EMT_SOLID
           fresh_registry).2).1 = Ok 1.
Proof. split; [discriminate|]. vm_compute. split; reflexivity. Qed.

(** C4.  After [rebuildShaders], whatever its outcome, the table has the
    length it had, and every id that was valid resolves through
    [getShaderInfo] to a record with the name, the constants and the base
    material it had before: only the compiled material of a record may have
    changed, and no record has moved. *)
Theorem rebuildShaders_keeps_records (P : Platform) (s : State) (id : Z) :
  0 <= id < Z.of_nat (length (m_shaderinfo_cache s)) ->
  let s' := (rebuildShaders P s).2 in
  length (m_shaderinfo_cache s') = length (m_shaderinfo_cache s)
  /\ name (getShaderInfo id s') = name (getShaderInfo id s)
  /\ input_constants (getShaderInfo id s') = input_constants (getShaderInfo id s)
  /\ base_material (getShaderInfo id s') = base_material (getShaderInfo id s).
Proof.
  intros Hid s'. subst s'.
  pose proof (rebuildShaders_keys P s) as Hk.
  assert (length (m_shaderinfo_cache (rebuildShaders P s).2)
          = length (m_shaderinfo_cache s)) as Hlen.
  { rewrite <- (length_fmap record_key), Hk. apply length_fmap. }
  split; [exact Hlen|].
  assert (record_key (getShaderInfo id (rebuildShaders P s).2)
          = record_key (getShaderInfo id s)) as Hrec.
  { unfold getShaderInfo. rewrite Hlen.
    destruct (Z.leb_spec (Z.of_nat (length (m_shaderinfo_cache s))) id);
      [lia|].
    change (record_key <$> m_shaderinfo_cache (rebuildShaders P s).2)
      with (map record_key (m_shaderinfo_cache (rebuildShaders P s).2)) in Hk.
    change (record_key <$> m_shaderinfo_cache s)
      with (map record_key (m_shaderinfo_cache s)) in Hk.
    rewrite <- !(map_nth record_key). now rewrite Hk. }
  unfold record_key in Hrec. injection Hrec as Hn Hc Hb. now repeat split.
Qed.

Example rebuildShaders_sample :
  let s := (getShader opengl3_platform 7%nat "a" ∅ EMT_SOLID fresh_registry).2 in
  material (getShaderInfo 1 s) = 24
  /\ (rebuildShaders opengl3_platform s).1 = Ok tt
  /\ material (getShaderInfo 1 (rebuildShaders opengl3_platform s).2) = 26.
Proof. vm_compute. repeat split. Qed.

Lemma rebuildShaders_keeps_records_witness :
  0 <= 1 < Z.of_nat (length (m_shaderinfo_cache registry_with_a))
  /\ name (getShaderInfo 1 (rebuildShaders opengl3_platform registry_with_a).2)
     = name (getShaderInfo 1 registry_with_a).
Proof.
  assert (0 <= 1 < Z.of_nat (length (m_shaderinfo_cache registry_with_a)))
    as H by (vm_compute; split; [discriminate | reflexivity]).
  split; [exact H|].
  exact (proj1 (proj2 (rebuildShaders_keeps_records opengl3_platform
                         registry_with_a 1 H))).
Defined.

(** C6.  In every state the registry reaches, the record at index 0 has an
    empty name and [getShaderInfo 0] returns it; the scan never stops on it
    for a request with a name; and a request without a name returns id 0
    straight away, with one line on the info stream and nothing else
    changed. *)
Theorem sentinel_record (s : State) :
  reachable s ->
  (exists info, m_shaderinfo_cache s !! 0%nat = Some info
                /\ name info = EmptyString
                /\ getShaderInfo 0 s = info)
  /\ (forall nm base_mat input_const,
        empty nm = false ->
        find_shader (m_shaderinfo_cache s) 0 nm base_mat input_const
        <> Some 0%nat)
  /\ (forall P caller input_const base_mat,
        getShaderIdDirect P caller EmptyString input_const base_mat s =
        (Ok 0,
         set_log_lines ((infostream, "getShaderIdDirect(): name is empty")
                        :: log_lines s) s))
  /\ (forall P input_const base_mat,
        (getShader P (m_main_thread s) EmptyString input_const base_mat s).1
        = Ok 0).
Proof.
  intros Hr. destruct (reachable_sentinel s Hr) as (info & rest & Ht & Hn).
  split; [|split; [|split]].
  - exists info. rewrite Ht. split; [reflexivity|]. split; [exact Hn|].
    unfold getShaderInfo. now rewrite Ht.
  - intros nm bm c He. rewrite Ht. cbn [find_shader].
    rewrite (shader_matches_empty_name _ _ _ _ Hn He).
    intros Hf. apply find_shader_Some in Hf. lia.
  - intros P caller c bm. now apply getShaderIdDirect_empty.
  - intros P c bm. rewrite getShader_main.
    now rewrite getShaderIdDirect_empty.
Qed.

Lemma sentinel_record_witness :
  reachable registry_with_a
  /\ exists info, m_shaderinfo_cache registry_with_a !! 0%nat = Some info
                  /\ name info = EmptyString
                  /\ getShaderInfo 0 registry_with_a = info.
Proof.
  assert (reachable registry_with_a) as H
    by (apply reachable_getShader, reachable_new).
  split; [exact H|].
  exact (proj1 (sentinel_record registry_with_a H)).
Defined.

(** C7.  With a base material the generator accepts: on the null driver,
    which has no shader support, generation returns the record whose
    compiled material is the base material itself; on any other driver
    without GLSL or without GPU programming services it throws the
    ShaderException that says GLSL is not supported.  In both cases the state
    is as it was: the compiler has not been called. *)
Theorem generateShader_without_shader_support (P : Platform) (s : State)
    (nm : string) (input_const : ShaderConstants)
    (base_mat : E_MATERIAL_TYPE) :
  programmable_material base_mat ->
  lacks_shader_support P ->
  generateShader P nm input_const base_mat s =
  (match getDriverType P with
   | EDT_NULL =>
       Ok {| name := nm;
             base_material := base_mat;
             material := base_mat;
             input_constants := input_const |}
   | _ =>
       Throw (mkShaderException
                (gettext P "GLSL is not supported by the driver"))
   end, s).
Proof.
  intros [Hm1 Hm2] Hl. unfold generateShader, bind, assert.
  apply Z.eqb_neq in Hm1, Hm2. rewrite Hm1, Hm2. cbn [negb andb ret].
  destruct (getDriverType P) eqn:Hd; cbn [E_DRIVER_TYPE_eqb]; try reflexivity;
    (destruct Hl as [Hl|[Hl|Hl]]; [congruence| |]; rewrite Hl;
     cbn [negb orb]; rewrite ?orb_true_r; reflexivity).
Qed.

Lemma generateShader_without_shader_support_witness :
  programmable_material EMT_SOLID
  /\ lacks_shader_support null_platform
  /\ lacks_shader_support legacy_platform
  /\ generateShader null_platform "fancynode"
       (<["MATERIAL_TYPE" := CInt 1]> (<["DRAWTYPE" := CInt 2]> ∅)) EMT_SOLID
       fresh_registry
     = (Ok {| name := "fancynode";
              base_material := EMT_SOLID;
              material := EMT_SOLID;
              input_constants :=
                <["MATERIAL_TYPE" := CInt 1]> (<["DRAWTYPE" := CInt 2]> ∅) |},
        fresh_registry)
  /\ generateShader legacy_platform "fancynode" ∅ EMT_SOLID fresh_registry
     = (Throw (mkShaderException "GLSL is not supported by the driver"),
        fresh_registry).
Proof.
  assert (programmable_material EMT_SOLID) as H1
    by (split; discriminate).
  assert (lacks_shader_support null_platform) as H2 by (left; reflexivity).
  assert (lacks_shader_support legacy_platform) as H3
    by (right; left; reflexivity).
  split; [exact H1|]. split; [exact H2|]. split; [exact H3|]. split.
  - exact (generateShader_without_shader_support null_platform fresh_registry
             "fancynode" _ EMT_SOLID H1 H2).
  - exact (generateShader_without_shader_support legacy_platform fresh_registry
             "fancynode" ∅ EMT_SOLID H1 H3).
Defined.

(** ** The log name *)

Lemma append_cons a s t : String a s +:+ t = String a (s +:+ t).
Proof. reflexivity. Qed.

Lemma append_nil_r s : s +:+ EmptyString = s.
Proof.
  induction s as [|a s IH]; [reflexivity|]. now rewrite append_cons, IH.
Qed.

Lemma append_assoc s t u : (s +:+ t) +:+ u = s +:+ (t +:+ u).
Proof.
  induction s as [|a s IH]; [reflexivity|]. now rewrite !append_cons, IH.
Qed.

(** The loop appends the pairs one by one while the text built so far, the
    name included, is at most 60 characters long; at the first constant that
    finds it longer it appends an ellipsis and stops. *)
Lemma log_name_loop_shape P its : forall log_name,
  exists j,
    (j <= length its)%nat
    /\ log_name_loop P log_name its =
       log_name +:+ concat_lines (map (log_name_pair P) (take j its))
       +:+ (if (j <? length its)%nat then "..." else EmptyString)
    /\ (forall i, (i < j)%nat ->
          (String.length
             (log_name +:+ concat_lines (map (log_name_pair P) (take i its)))
           <= 60)%nat)
    /\ ((j < length its)%nat ->
          (60 < String.length
             (log_name +:+ concat_lines (map (log_name_pair P) (take j its))))%nat).
Proof.
  induction its as [|it rest IH]; intros log_name.
  - exists 0%nat. cbn. rewrite !append_nil_r. repeat split; intros; lia.
  - cbn [log_name_loop].
    destruct (60 <? String.length log_name)%nat eqn:Hlen.
    + exists 0%nat. cbn. rewrite !append_nil_r.
      apply Nat.ltb_lt in Hlen. repeat split; intros; lia.
    + apply Nat.ltb_ge in Hlen.
      destruct (IH (log_name +:+ log_name_pair P it))
        as (j & Hj & Heq & Hbelow & Habove).
      exists (S j). split; [cbn [length]; lia|]. split; [|split].
      * etransitivity; [exact Heq|].
        cbn [length take map concat_lines fold_right].
        change (S j <? S (length rest))%nat with (j <? length rest)%nat.
        now rewrite !append_assoc.
      * intros [|i] Hi.
        -- cbn. now rewrite append_nil_r.
        -- cbn [take map concat_lines fold_right].
           change (fold_right String.append EmptyString ?l) with (concat_lines l).
           rewrite <- append_assoc. apply Hbelow. lia.
      * intros Hlt. cbn [take map concat_lines fold_right].
        change (fold_right String.append EmptyString ?l) with (concat_lines l).
        rewrite <- append_assoc. apply Habove. cbn [length] in Hlt. lia.
Qed.

Lemma entries_nil (c : ShaderConstants) : entries c = [] -> c = ∅.
Proof.
  unfold entries. intros H. apply map_to_list_empty_iff.
  apply Permutation_nil_r. rewrite <- H. symmetry.
  apply merge_sort_Permutation.
Qed.

(** C9, as the code has it.  The log name is the shader name followed by
    " key=value" for the constants in turn, as long as the text built so far,
    the name included, is at most 60 characters long when a constant is
    reached; at the first constant that finds it longer, "..." is appended
    and the remaining constants are left out.  A name of more than 60
    characters therefore gets the same log name whatever its (non-empty)
    constants are: the log name does not identify a record, and the scan
    does not read it. *)
Theorem make_log_name_shape (P : Platform) (nm : string)
    (input_const : ShaderConstants) :
  (exists j,
     (j <= length (entries input_const))%nat
     /\ make_log_name P nm input_const =
        nm +:+ concat_lines
                 (map (log_name_pair P) (take j (entries input_const)))
        +:+ (if (j <? length (entries input_const))%nat then "..."
             else EmptyString)
     /\ (forall i, (i < j)%nat ->
           (String.length
              (nm +:+ concat_lines
                        (map (log_name_pair P) (take i (entries input_const))))
            <= 60)%nat)
     /\ ((j < length (entries input_const))%nat ->
           (60 < String.length
              (nm +:+ concat_lines
                        (map (log_name_pair P) (take j (entries input_const)))))%nat))
  /\ ((60 < String.length nm)%nat -> input_const <> ∅ ->
      make_log_name P nm input_const = nm +:+ "...").
Proof.
  split; [apply log_name_loop_shape|].
  intros Hlen Hne. unfold make_log_name.
  destruct (entries input_const) as [|it rest] eqn:He.
  - now apply entries_nil in He.
  - cbn [log_name_loop]. apply Nat.ltb_lt in Hlen. now rewrite Hlen.
Qed.

Lemma make_log_name_shape_witness :
  (60 < String.length long_name)%nat
  /\ <["A" := CInt 1]> (∅ : ShaderConstants) <> ∅
  /\ make_log_name null_platform long_name (<["A" := CInt 1]> ∅)
     = long_name +:+ "...".
Proof.
  assert (60 < String.length long_name)%nat as H1 by (vm_compute; lia).
  assert (<["A" := CInt 1]> (∅ : ShaderConstants) <> ∅) as H2
    by apply insert_non_empty.
  split; [exact H1|]. split; [exact H2|].
  exact (proj2 (make_log_name_shape null_platform long_name
                  (<["A" := CInt 1]> ∅)) H1 H2).
Defined.

(** C9, as stated, fails: with a name of 61 characters the log name is cut
    before any constant is written, where a budget of 60 characters of
    constants would have let " A=1" through. *)
Lemma make_log_name_counts_the_name :
  make_log_name null_platform long_name (<["A" := CInt 1]> ∅)
  = long_name +:+ "..."
  /\ spec_log_name null_platform long_name (<["A" := CInt 1]> ∅)
     = long_name +:+ " A=1"
  /\ make_log_name null_platform long_name (<["A" := CInt 1]> ∅)
     <> spec_log_name null_platform long_name (<["A" := CInt 1]> ∅).
Proof. vm_compute. repeat split. discriminate. Qed.

Example make_log_name_short :
  make_log_name null_platform "nodes_shader"
    (<["MATERIAL_TYPE" := CInt 1]> (<["DRAWTYPE" := CInt 2]> ∅))
  = "nodes_shader DRAWTYPE=2 MATERIAL_TYPE=1".
Proof. vm_compute. reflexivity. Qed.

(** ** Invariants through a computation *)

Lemma keeps_ret {A} (I : State -> Prop) (Q : A -> Prop) (a : A) :
  Q a -> keeps I Q (ret a).
Proof. intros H s Hs. split; [exact Hs|]. now intros b [= <-]. Qed.

Lemma keeps_throw {A} (I : State -> Prop) (Q : A -> Prop) e :
  keeps I Q (throw e).
Proof. intros s Hs. split; [exact Hs|]. intros b. discriminate. Qed.

Lemma keeps_fatal {A} (I : State -> Prop) (Q : A -> Prop) msg :
  keeps I Q (fatal msg).
Proof. intros s Hs. split; [exact Hs|]. intros b. discriminate. Qed.

Lemma keeps_assert (I : State -> Prop) cond msg :
  keeps I (fun _ => cond = true) (assert cond msg).
Proof.
  destruct cond; [now apply keeps_ret|].
  intros s Hs. split; [exact Hs|]. intros b. discriminate.
Qed.

(** What is read of the state is read of a state that satisfies [I]. *)
Lemma keeps_gets {A} (I : State -> Prop) (g : State -> A) :
  keeps I (fun a => exists s, I s /\ a = g s) (gets g).
Proof.
  intros s Hs. split; [exact Hs|]. intros a [= <-]. now exists s.
Qed.

Lemma keeps_bind {A B} (I : State -> Prop) (Q : A -> Prop) (R : B -> Prop)
    (m : M A) (k : A -> M B) :
  keeps I Q m -> (forall a, Q a -> keeps I R (k a)) -> keeps I R (bind m k).
Proof.
  intros Hm Hk s Hs. unfold bind. destruct (Hm s Hs) as [HI HQ].
  destruct (m s) as [[a|e|msg] s1]; simpl in *.
  - apply (Hk a); [now apply HQ | exact HI].
  - split; [exact HI|]. intros b. discriminate.
  - split; [exact HI|]. intros b. discriminate.
Qed.

Lemma keeps_preserves {A B} (f : State -> B) (J : B -> Prop) (m : M A) :
  preserves f m -> keeps (fun s => J (f s)) (fun _ => True) m.
Proof. intros Hm s Hs. split; [now rewrite Hm | trivial]. Qed.

Lemma dumpShaderProgram_generator_view stream program_type program :
  preserves generator_view (dumpShaderProgram stream program_type program).
Proof. unfold dumpShaderProgram. now apply preserves_log_all. Qed.

Lemma log_generator_view stream text :
  preserves generator_view (log stream text).
Proof. now apply preserves_log. Qed.

(** Every call generation makes on the GPU services is a call of the
    compiler, with programs that start with the common header built from the
    constants the registered setters leave. *)
Lemma generateShader_requests (P : Platform) nm input_const base_mat s :
  compiled_since s (generateShader P nm input_const base_mat s).2
    (request_has_header P
       (common_header P
          (final_constants P (m_constant_setters s) nm input_const base_mat))).
Proof.
  set (Good := request_has_header P _).
  set (J := fun gv : _ * list GpuEvent =>
              gv.1 = registry_view s
              /\ exists new,
                   gv.2 = (new ++ gpu_events s)%list
                   /\ forall ev, ev ∈ new -> exists request result,
                        ev = GpuAdd request result /\ Good request).
  assert (keeps (fun s' => J (generator_view s')) (fun _ => True)
            (generateShader P nm input_const base_mat)) as Hk.
  { unfold generateShader.
    eapply keeps_bind; [apply keeps_assert|intros _ _]. cbv zeta.
    destruct (E_DRIVER_TYPE_eqb _ _); [now apply keeps_ret|].
    destruct (_ || _); [apply keeps_throw|].
    eapply keeps_bind; [apply keeps_gets|].
    intros setters (s0 & (Hrv0 & _) & ->).
    assert (m_constant_setters s0 = m_constant_setters s) as ->
      by (unfold generator_view, registry_view in Hrv0; simpl in Hrv0;
          congruence).
    clear Hrv0 s0.
    eapply keeps_bind; [apply keeps_assert|intros _ _].
    eapply keeps_bind;
      [apply keeps_preserves, getOrLoad_generator_view|intros vertex_shader _].
    eapply keeps_bind;
      [apply keeps_preserves, getOrLoad_generator_view|intros fragment_shader _].
    eapply keeps_bind;
      [apply keeps_preserves, getOrLoad_generator_view|intros geometry_shader _].
    eapply keeps_bind; [apply keeps_gets|intros cb _].
    eapply keeps_bind;
      [apply keeps_preserves, log_generator_view|intros _ _].
    eapply keeps_bind with (Q := fun _ => True).
    - intros s1 (Hrv & new & Hev & Hall). split; [|trivial].
      unfold compile, bind, gets, modify. cbn.
      split; [exact Hrv|].
      eexists (_ :: new). cbn in Hev. rewrite Hev. split; [reflexivity|].
      intros ev Hin. apply elem_of_cons in Hin as [->|Hin]; [|now apply Hall].
      do 2 eexists. split; [reflexivity|].
      subst Good. unfold request_has_header. cbn.
      split; [now eexists|]. split; [now eexists|].
      intros geometry. destruct (empty geometry_shader); cbn; intros Hg;
        [discriminate|].
      injection Hg as <-. now eexists.
    - intros shadermat _. destruct (Z.eqb _ _).
      + eapply keeps_bind;
          [apply keeps_preserves, log_generator_view|intros _ _].
        do 3 (eapply keeps_bind;
                [apply keeps_preserves, dumpShaderProgram_generator_view
                |intros _ _]).
        apply keeps_throw.
      + now apply keeps_ret. }
  destruct (Hk s) as [(_ & new & Hev & Hall) _].
  - split; [reflexivity|]. exists []. split; [reflexivity|].
    intros ev Hin. inversion Hin.
  - exists new. split; [exact Hev | exact Hall].
Qed.

(** ** Constant setters *)



Example later_setter_wins_lines :
  define_lines opengl3_platform
    (final_constants opengl3_platform
       (m_constant_setters
          (addShaderConstantSetter (setter_FOO 2)
             (addShaderConstantSetter (setter_FOO 1) fresh_registry).2).2)
       "a" ∅ EMT_SOLID)
  = ["#define ENABLE_TONE_MAPPING 0" +:+ nl; "#define FOO 2" +:+ nl].
Proof. vm_compute. reflexivity. Qed.

Example earlier_setter_loses_lines :
  define_lines opengl3_platform
    (final_constants opengl3_platform
       (m_constant_setters
          (addShaderConstantSetter (setter_FOO 1)
             (addShaderConstantSetter (setter_FOO 2) fresh_registry).2).2)
       "a" ∅ EMT_SOLID)
  = ["#define ENABLE_TONE_MAPPING 0" +:+ nl; "#define FOO 1" +:+ nl].
Proof. vm_compute. reflexivity. Qed.

(** ** Floats in the texts *)

(** The sample platforms print floats as a stream does: 2.5, 0.1f, 1e10f and
    the least subnormal, without and with [std::showpoint]. *)
Example sample_put_float_values :
  sample_put_float false (S754_finite false 5 (-1)) = "2.5"
  /\ sample_put_float true (S754_finite false 5 (-1)) = "2.50000"
  /\ sample_put_float false (S754_finite false 13421773 (-27)) = "0.1"
  /\ sample_put_float true (S754_finite false 13421773 (-27)) = "0.100000"
  /\ sample_put_float false (S754_finite false 9765625 10) = "1e+10"
  /\ sample_put_float true (S754_finite true 9765625 10) = "-1.00000e+10"
  /\ sample_put_float true (S754_finite false 1 (-149)) = "1.40130e-45".
Proof. vm_compute. repeat split. Qed.

(** A float constant is written without the point's zeros in the log name,
    with them in the header. *)
Example float_constant_texts :
  make_log_name opengl3_platform "a" (constants_X (S754_finite false 5 (-1)))
  = "a X=2.5"
  /\ define_lines opengl3_platform (constants_X (S754_finite false 5 (-1)))
     = ["#define X 2.50000" +:+ nl].
Proof. vm_compute. split; reflexivity. Qed.

(** * Further properties of the code *)

(** ** The path cache *)

Lemma empty_append a b : empty (a +:+ b) = empty a && empty b.
Proof. destruct a; reflexivity. Qed.


(** X1.  The resolution of a shader path is memoized, an empty result
    included: a second resolution of the same file returns what the first
    returned and changes nothing, whatever the files and the settings have
    become, as long as the directory delimiter is the same. *)
Theorem getShaderPath_memoized (P1 P2 : Platform)
    (name_of_shader filename : string) (s : State) :
  DIR_DELIM P2 = DIR_DELIM P1 ->
  (exists p, (getShaderPath P1 name_of_shader filename s).1 = Ok p)
  /\ getShaderPath P2 name_of_shader filename
       (getShaderPath P1 name_of_shader filename s).2
     = getShaderPath P1 name_of_shader filename s.
Proof.
  intros Hd. unfold getShaderPath, bind, gets. rewrite Hd.
  destruct (g_shadername_to_path_cache s !! _) as [p|] eqn:Hc.
  - cbn. rewrite Hc. eauto.
  - cbn. rewrite lookup_insert_eq. eauto.
Qed.

Lemma getShaderPath_memoized_witness :
  DIR_DELIM null_platform = DIR_DELIM opengl3_platform
  /\ getShaderPath null_platform "nodes_shader" "opengl_vertex.glsl"
       (getShaderPath opengl3_platform "nodes_shader" "opengl_vertex.glsl"
          fresh_registry).2
     = getShaderPath opengl3_platform "nodes_shader" "opengl_vertex.glsl"
         fresh_registry.
Proof.
  assert (DIR_DELIM null_platform = DIR_DELIM opengl3_platform) as H
    by reflexivity.
  split; [exact H|].
  exact (proj2 (getShaderPath_memoized opengl3_platform null_platform
                  "nodes_shader" "opengl_vertex.glsl" fresh_registry H)).
Defined.

(** X2.  A resolution that is not answered by the cache returns the file under
    the [shader_path] setting when that setting is not empty and the file
    exists there, else the file under the share directory when it exists,
    else the empty path; a non-empty result is a path that exists, and the
    result, empty or not, is what the cache holds afterwards. *)
Theorem getShaderPath_resolves (P : Platform)
    (name_of_shader filename p : string) (s s1 : State) :
  g_shadername_to_path_cache s
    !! (name_of_shader +:+ DIR_DELIM P +:+ filename) = None ->
  getShaderPath P name_of_shader filename s = (Ok p, s1) ->
  let shader_path := get (g_settings P) "shader_path" in
  let override :=
    shader_path +:+ DIR_DELIM P +:+ name_of_shader +:+ DIR_DELIM P
    +:+ filename in
  let default :=
    path_share P +:+ DIR_DELIM P +:+ "client" +:+ DIR_DELIM P +:+ "shaders"
    +:+ DIR_DELIM P +:+ name_of_shader +:+ DIR_DELIM P +:+ filename in
  (empty shader_path = false -> PathExists P override = true -> p = override)
  /\ ((empty shader_path = true \/ PathExists P override = false) ->
      PathExists P default = true -> p = default)
  /\ ((empty shader_path = true \/ PathExists P override = false) ->
      PathExists P default = false -> p = EmptyString)
  /\ (empty p = false -> PathExists P p = true)
  /\ g_shadername_to_path_cache s1
       !! (name_of_shader +:+ DIR_DELIM P +:+ filename) = Some p.
Proof.
  intros Hc H shader_path override default.
  unfold getShaderPath, bind, gets in H. rewrite Hc in H. cbn in H.
  fold shader_path in H. fold override in H. fold default in H.
  injection H as <- <-. cbn. rewrite lookup_insert_eq.
  assert (empty shader_path = false -> empty override = false) as Ho.
  { intros He. subst override. now rewrite empty_append, He. }
  destruct (empty shader_path) eqn:He; cbn.
  - destruct (PathExists P default) eqn:Hd; repeat split; try congruence;
      intros; try discriminate; try reflexivity.
  - destruct (PathExists P override) eqn:Hov.
    + rewrite (Ho eq_refl). repeat split; try congruence;
        intros [?|?]; discriminate.
    + cbn. destruct (PathExists P default) eqn:Hd; repeat split;
        try congruence; intros; try discriminate; try reflexivity.
Qed.

Example getShaderPath_default_directory :
  (getShaderPath opengl3_platform "nodes_shader" "opengl_vertex.glsl"
     fresh_registry).1
  = Ok "share/client/shaders/nodes_shader/opengl_vertex.glsl".
Proof. vm_compute. reflexivity. Qed.

Lemma getShaderPath_resolves_witness :
  g_shadername_to_path_cache fresh_registry
    !! ("nodes_shader" +:+ DIR_DELIM null_platform +:+ "opengl_vertex.glsl")
  = None
  /\ g_shadername_to_path_cache
       (getShaderPath null_platform "nodes_shader" "opengl_vertex.glsl"
          fresh_registry).2
       !! ("nodes_shader" +:+ DIR_DELIM null_platform +:+ "opengl_vertex.glsl")
     = Some EmptyString.
Proof.
  assert (g_shadername_to_path_cache fresh_registry
            !! ("nodes_shader" +:+ DIR_DELIM null_platform
                +:+ "opengl_vertex.glsl") = None) as H1
    by (vm_compute; reflexivity).
  assert (getShaderPath null_platform "nodes_shader" "opengl_vertex.glsl"
            fresh_registry
          = (Ok EmptyString,
             (getShaderPath null_platform "nodes_shader" "opengl_vertex.glsl"
                fresh_registry).2)) as H2
    by (apply result_of_outcome; vm_compute; reflexivity).
  split; [exact H1|].
  exact (proj2 (proj2 (proj2 (proj2
          (getShaderPath_resolves null_platform "nodes_shader"
             "opengl_vertex.glsl" EmptyString fresh_registry _ H1 H2))))).
Defined.

(** ** The source cache *)

Lemma getShaderPath_cached P n f s p :
  g_shadername_to_path_cache s !! (n +:+ DIR_DELIM P +:+ f) = Some p ->
  getShaderPath P n f s = (Ok p, s).
Proof. intros H. unfold getShaderPath, bind, gets. now rewrite H. Qed.

(** What a resolution returns is in the path cache afterwards, and only the
    path cache may have changed. *)
Lemma getShaderPath_caches P n f s :
  exists p pc,
    getShaderPath P n f s = (Ok p, set_path_cache pc s)
    /\ pc !! (n +:+ DIR_DELIM P +:+ f) = Some p.
Proof.
  unfold getShaderPath, bind, gets.
  destruct (g_shadername_to_path_cache s !! _) as [p|] eqn:Hc.
  - exists p, (g_shadername_to_path_cache s). split; [now destruct s | exact Hc].
  - cbn. do 2 eexists. split; [reflexivity|]. apply lookup_insert_eq.
Qed.

(** X3.  [insertSourceShader] called from the main thread stores a text for
    the file, over whatever was stored for it: the contents of the local file
    when the path of the file resolves and its contents are not empty, the
    program it was given otherwise.  [get] returns that text afterwards; the
    texts of the other files stay, and the table, the setters and the GPU are
    not touched.  Called from another thread it fails its sanity check and
    changes nothing. *)
Theorem insertSourceShader_stores (P : Platform) (s : State)
    (name_of_shader filename program : string) :
  let combined := name_of_shader +:+ DIR_DELIM P +:+ filename in
  let r := insertSourceShader P (m_main_thread s) name_of_shader filename
             program s in
  r.1 = Ok tt
  /\ (exists path text,
        (getShaderPath P name_of_shader filename s).1 = Ok path
        /\ text = (if negb (empty path) && negb (empty (readFile P path))
                   then readFile P path else program)
        /\ m_sourcecache r.2 !! combined = Some text
        /\ SourceShaderCache_get P name_of_shader filename r.2 = (Ok text, r.2))
  /\ (forall other, other <> combined ->
        m_sourcecache r.2 !! other = m_sourcecache s !! other)
  /\ generator_view r.2 = generator_view s
  /\ (forall caller, caller <> m_main_thread s ->
        insertSourceShader P caller name_of_shader filename program s
        = (Fatal "std::this_thread::get_id() == m_main_thread", s)).
Proof.
  intros combined r.
  assert (generator_view r.2 = generator_view s) as Hview
    by apply insertSourceShader_generator_view.
  assert (forall caller, caller <> m_main_thread s ->
            insertSourceShader P caller name_of_shader filename program s
            = (Fatal "std::this_thread::get_id() == m_main_thread", s)) as Hrej.
  { intros caller Hc. unfold insertSourceShader, bind, gets, assert.
    apply Nat.eqb_neq in Hc. now rewrite Hc. }
  destruct (getShaderPath_caches P name_of_shader filename s)
    as (path & pc & Hp & _).
  set (text := if negb (empty path) && negb (empty (readFile P path))
               then readFile P path else program).
  assert (r = (Ok tt,
               set_sourcecache (<[combined := text]> (m_sourcecache s))
                 (set_path_cache pc s))) as Hr.
  { subst r text. unfold insertSourceShader, bind, gets, assert.
    rewrite Nat.eqb_refl. cbn [ret].
    unfold SourceShaderCache_insert, bind. rewrite Hp.
    unfold store_program, modify. fold combined.
    destruct (negb (empty path));
      [destruct (negb (empty (readFile P path)))|]; reflexivity. }
  clearbody r. subst r. cbn [fst snd] in *.
  split; [reflexivity|]. split; [|split; [|split; [exact Hview | exact Hrej]]].
  - exists path, text. rewrite Hp. split; [reflexivity|]. split; [reflexivity|].
    unfold SourceShaderCache_get, bind, gets. fold combined. cbn.
    now rewrite lookup_insert_eq.
  - intros other Ho. cbn. now apply lookup_insert_ne.
Qed.

Example insertSourceShader_local_file :
  (SourceShaderCache_get opengl3_platform "test" "opengl_vertex.glsl"
     (insertSourceShader opengl3_platform 7%nat "test" "opengl_vertex.glsl"
        "void main() { gl_Position = vec4(0.0); }" fresh_registry).2).1
  = Ok "void main() {}"
  /\ (SourceShaderCache_get null_platform "test" "opengl_vertex.glsl"
        (insertSourceShader null_platform 7%nat "test" "opengl_vertex.glsl"
           "void main() { gl_Position = vec4(0.0); }" fresh_registry).2).1
     = Ok "void main() { gl_Position = vec4(0.0); }".
Proof. vm_compute. split; reflexivity. Qed.

(** The projections of a state that was updated. *)
Ltac state_simpl :=
  cbn [fst snd m_main_thread m_sourcecache m_shaderinfo_cache
       m_constant_setters m_uniform_factories g_shadername_to_path_cache
       gpu_events log_lines set_sourcecache set_shaderinfo_cache
       set_constant_setters set_uniform_factories set_path_cache
       set_gpu_events set_log_lines].

Lemma SourceShaderCache_get_eq P n f s :
  SourceShaderCache_get P n f s =
  (Ok (match m_sourcecache s !! (n +:+ DIR_DELIM P +:+ f) with
       | Some program => program
       | None => EmptyString
       end), s).
Proof.
  unfold SourceShaderCache_get, bind, gets.
  now destruct (m_sourcecache s !! _).
Qed.

Lemma getOrLoad_hit P n f s cached :
  m_sourcecache s !! (n +:+ DIR_DELIM P +:+ f) = Some cached ->
  SourceShaderCache_getOrLoad P n f s = (Ok cached, s).
Proof.
  intros H. unfold SourceShaderCache_getOrLoad, bind, gets. now rewrite H.
Qed.

Lemma getOrLoad_miss P n f s path s1 :
  m_sourcecache s !! (n +:+ DIR_DELIM P +:+ f) = None ->
  getShaderPath P n f s = (Ok path, s1) ->
  SourceShaderCache_getOrLoad P n f s =
  if empty path then
    (Ok EmptyString,
     set_log_lines
       ((infostream,
         "SourceShaderCache::getOrLoad(): No path found for " +:+ dquote
         +:+ (n +:+ DIR_DELIM P +:+ f) +:+ dquote) :: log_lines s1) s1)
  else
    let logged :=
      set_log_lines
        ((infostream,
          "SourceShaderCache::getOrLoad(): Loading path " +:+ dquote
          +:+ path +:+ dquote) :: log_lines s1) s1 in
    if negb (empty (readFile P path)) then
      (Ok (readFile P path),
       set_sourcecache
         (<[n +:+ DIR_DELIM P +:+ f := readFile P path]> (m_sourcecache logged))
         logged)
    else (Ok EmptyString, logged).
Proof.
  intros Hc Hp. unfold SourceShaderCache_getOrLoad, bind, gets.
  rewrite Hc, Hp.
  destruct (empty path); [reflexivity|]. cbn.
  now destruct (negb (empty (readFile P path))).
Qed.

(** X4.  [getOrLoad] returns the text the cache holds for the file when it
    holds one, empty or not, and then changes nothing.  In every case the
    text it returns is what [get], and a second [getOrLoad] on the same
    platform, return afterwards; and a file for which it returns the empty
    text is no more cached than it was, so that a later call looks for it
    again. *)
Theorem getOrLoad_then_get (P : Platform) (name_of_shader filename : string)
    (s : State) :
  let combined := name_of_shader +:+ DIR_DELIM P +:+ filename in
  let r := SourceShaderCache_getOrLoad P name_of_shader filename s in
  exists text,
    r.1 = Ok text
    /\ (SourceShaderCache_get P name_of_shader filename r.2).1 = Ok text
    /\ (SourceShaderCache_getOrLoad P name_of_shader filename r.2).1 = Ok text
    /\ (forall cached, m_sourcecache s !! combined = Some cached ->
          text = cached /\ r.2 = s)
    /\ (empty text = true ->
          m_sourcecache r.2 !! combined = m_sourcecache s !! combined).
Proof.
  intros combined r. subst r combined.
  destruct (m_sourcecache s !! (name_of_shader +:+ DIR_DELIM P +:+ filename))
    as [cached|] eqn:Hc.
  - exists cached. rewrite (getOrLoad_hit _ _ _ _ _ Hc). cbn [fst snd].
    rewrite SourceShaderCache_get_eq, Hc, (getOrLoad_hit _ _ _ _ _ Hc).
    repeat split; try reflexivity. now injection H as <-.
  - destruct (getShaderPath_caches P name_of_shader filename s)
      as (path & pc & Hp & Hpc).
    rewrite (getOrLoad_miss _ _ _ _ _ _ Hc Hp).
    destruct (empty path) eqn:He.
    + exists EmptyString. cbn [fst snd].
      rewrite SourceShaderCache_get_eq. state_simpl. rewrite Hc.
      erewrite getOrLoad_miss;
        [|state_simpl; exact Hc|apply getShaderPath_cached; state_simpl; exact Hpc].
      rewrite He. repeat split; try reflexivity; discriminate.
    + cbv zeta. destruct (negb (empty (readFile P path))) eqn:Hr.
      * exists (readFile P path). cbn [fst snd].
        rewrite SourceShaderCache_get_eq. state_simpl. rewrite lookup_insert_eq.
        erewrite getOrLoad_hit; [|state_simpl; apply lookup_insert_eq].
        repeat split; try reflexivity; try discriminate.
        intros Hempty. rewrite Hempty in Hr. discriminate.
      * exists EmptyString. cbn [fst snd].
        rewrite SourceShaderCache_get_eq. state_simpl. rewrite Hc.
        erewrite getOrLoad_miss;
          [|state_simpl; exact Hc|apply getShaderPath_cached; state_simpl; exact Hpc].
        rewrite He. cbv zeta. rewrite Hr.
        repeat split; try reflexivity; discriminate.
Qed.

Example getOrLoad_missing_file :
  (SourceShaderCache_getOrLoad null_platform "test" "opengl_geometry.glsl"
     fresh_registry).1 = Ok EmptyString
  /\ m_sourcecache
       (SourceShaderCache_getOrLoad null_platform "test" "opengl_geometry.glsl"
          fresh_registry).2 = ∅.
Proof. vm_compute. split; reflexivity. Qed.

(** ** What every request, generation and rebuild keeps *)

Lemma keeps_weaken {A} (Inv : State -> Prop) (Q Q' : A -> Prop) (m : M A) :
  keeps Inv Q m -> (forall a, Q a -> Q' a) -> keeps Inv Q' m.
Proof.
  intros Hm HQ s Hs. destruct (Hm s Hs) as [HI Ha].
  split; [exact HI|]. intros a E. apply HQ, Ha, E.
Qed.

Lemma keeps_modify (Inv : State -> Prop) (g : State -> State) :
  (forall s, Inv s -> Inv (g s)) -> keeps Inv (fun _ => True) (modify g).
Proof. intros H s Hs. split; [now apply H | trivial]. Qed.

Section Through.

Variable Inv : State -> Prop.

Hypothesis Inv_load : forall P n f,
  keeps Inv (fun _ => True) (SourceShaderCache_getOrLoad P n f).
Hypothesis Inv_log : forall v s, Inv s -> Inv (set_log_lines v s).
Hypothesis Inv_gpu : forall v s, Inv s -> Inv (set_gpu_events v s).
Hypothesis Inv_table : forall v s, Inv s -> Inv (set_shaderinfo_cache v s).

Lemma through_log stream text : keeps Inv (fun _ => True) (log stream text).
Proof. apply keeps_modify. intros s. apply Inv_log. Qed.

Lemma through_log_all stream texts :
  keeps Inv (fun _ => True) (log_all stream texts).
Proof.
  induction texts as [|t rest IH]; cbn [log_all].
  - now apply keeps_ret.
  - eapply keeps_bind; [apply through_log | intros _ _; exact IH].
Qed.

Lemma through_compile P request :
  keeps Inv (fun _ => True) (compile P request).
Proof.
  unfold compile.
  eapply keeps_bind; [apply keeps_gets | intros events _].
  eapply keeps_bind; [apply keeps_modify; intros s; apply Inv_gpu | intros _ _].
  now apply keeps_ret.
Qed.

Ltac through :=
  repeat lazymatch goal with
    | |- keeps _ _ (bind _ _) => eapply keeps_bind; [|intros ? ?]
    | |- keeps _ _ (ret _) => apply keeps_ret; exact Logic.I
    | |- keeps _ _ (throw _) => apply keeps_throw
    | |- keeps _ _ (fatal _) => apply keeps_fatal
    | |- keeps _ _ (gets _) => apply keeps_gets
    | |- keeps _ _ (assert _ _) => apply keeps_assert
    | |- keeps _ _ (log _ _) => apply through_log
    | |- keeps _ _ (dumpShaderProgram _ _ _) => apply through_log_all
    | |- keeps _ _ (compile _ _) => apply through_compile
    | |- keeps _ _ (SourceShaderCache_getOrLoad _ _ _) => apply Inv_load
    | |- keeps _ _ (deleteShaderMaterial _) =>
        apply keeps_modify; intros ?; apply Inv_gpu
    | |- keeps _ _ (modify _) => apply keeps_modify; intros ?; apply Inv_table
    | |- keeps _ _ (if ?b then _ else _) => destruct b
    | |- keeps _ _ (match ?x with _ => _ end) => destruct x
    | |- keeps _ _ (let _ := _ in _) => cbv zeta
    end.

Lemma through_generateShader P nm input_const base_mat :
  keeps Inv (fun _ => True) (generateShader P nm input_const base_mat).
Proof. unfold generateShader. through. Qed.

Lemma through_getShaderIdDirect P caller nm input_const base_mat :
  keeps Inv (fun _ => True) (getShaderIdDirect P caller nm input_const base_mat).
Proof.
  unfold getShaderIdDirect. through. apply through_generateShader.
Qed.

Lemma through_getShader P caller nm input_const base_mat :
  keeps Inv (fun _ => True) (getShader P caller nm input_const base_mat).
Proof. unfold getShader. through. apply through_getShaderIdDirect. Qed.

Lemma through_delete_materials n : forall i,
  keeps Inv (fun _ => True) (delete_materials n i).
Proof.
  induction n as [|n IH]; intros i; cbn [delete_materials]; through.
  all: apply IH.
Qed.

Lemma through_recreate_shaders P n : forall i,
  keeps Inv (fun _ => True) (recreate_shaders P n i).
Proof.
  induction n as [|n IH]; intros i; cbn [recreate_shaders]; through.
  all: first [apply through_generateShader | apply IH].
Qed.

Lemma through_rebuildShaders P :
  keeps Inv (fun _ => True) (rebuildShaders P).
Proof.
  unfold rebuildShaders. through.
  all: first [apply through_delete_materials | apply through_recreate_shaders].
Qed.

End Through.

Lemma caches_kept_refl s : caches_kept s s.
Proof. now split. Qed.

Lemma caches_kept_trans s1 s2 s3 :
  caches_kept s1 s2 -> caches_kept s2 s3 -> caches_kept s1 s3.
Proof. intros [H1 H2] [H3 H4]. split; intros; [apply H3, H1 | apply H4, H2]; assumption. Qed.

Lemma getShaderPath_caches_kept P n f s :
  caches_kept s (getShaderPath P n f s).2.
Proof.
  unfold getShaderPath, bind, gets.
  destruct (g_shadername_to_path_cache s !! _) as [p|] eqn:Hc;
    [apply caches_kept_refl|].
  cbn. split; [now intros|]. intros key path Hk. cbn.
  rewrite lookup_insert_ne; [exact Hk|]. intros <-. congruence.
Qed.

Lemma getOrLoad_caches_kept P n f s :
  caches_kept s (SourceShaderCache_getOrLoad P n f s).2.
Proof.
  destruct (m_sourcecache s !! (n +:+ DIR_DELIM P +:+ f)) as [cached|] eqn:Hc.
  - rewrite (getOrLoad_hit _ _ _ _ _ Hc). apply caches_kept_refl.
  - pose proof (getShaderPath_caches_kept P n f s) as Hk.
    destruct (getShaderPath_caches P n f s) as (path & pc & Hp & _).
    rewrite (getOrLoad_miss _ _ _ _ _ _ Hc Hp). rewrite Hp in Hk.
    cbn [snd] in Hk. destruct Hk as [Hk1 Hk2].
    destruct (empty path); [now split|]. cbv zeta.
    destruct (negb (empty (readFile P path))); [|now split].
    split; [|exact Hk2]. intros key text Hkey. state_simpl.
    rewrite lookup_insert_ne; [exact Hkey|]. intros <-. congruence.
Qed.

(** X5.  A cached source text and a cached path resolution are never
    replaced nor dropped by a load, a generation, a request or a rebuild,
    whatever the outcome: only [insertSourceShader] writes over a text. *)
Theorem caches_only_grow (P : Platform) (s : State) :
  (forall n f, caches_kept s (SourceShaderCache_getOrLoad P n f s).2)
  /\ (forall nm c bm, caches_kept s (generateShader P nm c bm s).2)
  /\ (forall caller nm c bm, caches_kept s (getShader P caller nm c bm s).2)
  /\ (forall caller nm c bm,
        caches_kept s (getShaderIdDirect P caller nm c bm s).2)
  /\ caches_kept s (rebuildShaders P s).2.
Proof.
  assert (forall P' n f,
            keeps (caches_kept s) (fun _ => True)
              (SourceShaderCache_getOrLoad P' n f)) as Hload.
  { intros P' n f s' Hs'. split; [|trivial].
    eapply caches_kept_trans; [exact Hs'|apply getOrLoad_caches_kept]. }
  assert (forall v s', caches_kept s s' -> caches_kept s (set_log_lines v s'))
    as Hlog by (intros v s' [H1 H2]; now split).
  assert (forall v s', caches_kept s s' -> caches_kept s (set_gpu_events v s'))
    as Hgpu by (intros v s' [H1 H2]; now split).
  assert (forall v s', caches_kept s s'
                       -> caches_kept s (set_shaderinfo_cache v s'))
    as Htable by (intros v s' [H1 H2]; now split).
  split; [intros; apply getOrLoad_caches_kept|].
  split; [intros nm c bm;
          apply (through_generateShader _ Hload Hlog Hgpu P nm c bm s),
                caches_kept_refl|].
  split; [intros caller nm c bm;
          apply (through_getShader _ Hload Hlog Hgpu Htable P caller nm c bm s),
                caches_kept_refl|].
  split; [intros caller nm c bm;
          apply (through_getShaderIdDirect _ Hload Hlog Hgpu Htable
                   P caller nm c bm s), caches_kept_refl|].
  apply (through_rebuildShaders _ Hload Hlog Hgpu Htable P s), caches_kept_refl.
Qed.

(** X6.  The thread the registry belongs to, the constant setters and the
    uniform setter factories, in their order, are those registered: no
    request, no rebuild and no insertion of a source changes them, whatever
    the outcome. *)
Theorem registration_kept (P : Platform) (s : State) :
  (forall caller nm c bm,
     registration (getShader P caller nm c bm s).2 = registration s)
  /\ (forall caller nm c bm,
        registration (getShaderIdDirect P caller nm c bm s).2 = registration s)
  /\ registration (rebuildShaders P s).2 = registration s
  /\ (forall caller n f program,
        registration (insertSourceShader P caller n f program s).2
        = registration s).
Proof.
  set (Inv := fun s' => registration s' = registration s).
  assert (forall P' n f,
            keeps Inv (fun _ => True) (SourceShaderCache_getOrLoad P' n f))
    as Hload.
  { intros P' n f s' Hs'. split; [|trivial]. unfold Inv in *.
    pose proof (getOrLoad_generator_view P' n f s') as Hv.
    unfold generator_view, registry_view, registration in *. congruence. }
  assert (forall v s', Inv s' -> Inv (set_log_lines v s')) as Hlog
    by (intros v s' H; exact H).
  assert (forall v s', Inv s' -> Inv (set_gpu_events v s')) as Hgpu
    by (intros v s' H; exact H).
  assert (forall v s', Inv s' -> Inv (set_shaderinfo_cache v s')) as Htable
    by (intros v s' H; exact H).
  split; [intros caller nm c bm;
          now apply (through_getShader _ Hload Hlog Hgpu Htable
                       P caller nm c bm s)|].
  split; [intros caller nm c bm;
          now apply (through_getShaderIdDirect _ Hload Hlog Hgpu Htable
                       P caller nm c bm s)|].
  split; [now apply (through_rebuildShaders _ Hload Hlog Hgpu Htable P s)|].
  intros caller n f program.
  pose proof (insertSourceShader_generator_view P caller n f program s) as Hv.
  unfold generator_view, registry_view, registration in *. congruence.
Qed.

(** ** The table of records *)

(** Generation returns a record only for a base material it accepts. *)
Lemma generateShader_Ok_programmable P nm c bm s info s' :
  generateShader P nm c bm s = (Ok info, s') -> programmable_material bm.
Proof.
  unfold generateShader, bind, assert.
  destruct (Z.eqb bm EMT_TRANSPARENT_VERTEX_ALPHA) eqn:H1;
    [discriminate|].
  destruct (Z.eqb bm EMT_ONETEXTURE_BLEND) eqn:H2; [discriminate|].
  intros _. split; now apply Z.eqb_neq.
Qed.

(** What a request does, case by case: the table is as it was and the id is
    0 or the index the scan found; or the scan found nothing, the caller is
    the main thread, and one record with the key of the request was appended
    under the id returned. *)
Lemma getShaderIdDirect_effect P caller nm c bm s :
  let r := getShaderIdDirect P caller nm c bm s in
  (m_shaderinfo_cache r.2 = m_shaderinfo_cache s
   /\ forall id, r.1 = Ok id ->
        id = 0
        \/ exists i, find_shader (m_shaderinfo_cache s) 0 nm bm c = Some i
                     /\ id = Z.of_nat i /\ empty nm = false)
  \/ (exists info,
        empty nm = false
        /\ caller = m_main_thread s
        /\ find_shader (m_shaderinfo_cache s) 0 nm bm c = None
        /\ programmable_material bm
        /\ m_shaderinfo_cache r.2 = (m_shaderinfo_cache s ++ [info])%list
        /\ record_key info = (nm, c, bm)
        /\ r.1 = Ok (to_u32 (Z.of_nat (length (m_shaderinfo_cache s))))).
Proof.
  intros r. subst r.
  destruct (empty nm) eqn:He.
  { rewrite getShaderIdDirect_empty by exact He. left.
    split; [reflexivity|]. intros id [= <-]. now left. }
  destruct (find_shader (m_shaderinfo_cache s) 0 nm bm c) as [i|] eqn:Hf.
  { rewrite (getShaderIdDirect_hit _ _ _ _ _ _ _ He Hf). left.
    split; [reflexivity|]. intros id [= <-]. right. now exists i. }
  destruct (Nat.eq_dec caller (m_main_thread s)) as [->|Hc].
  - rewrite (getShaderIdDirect_generate _ _ _ _ _ He Hf).
    pose proof (generateShader_registry_view P nm c bm s) as Hv.
    pose proof (generateShader_returns P nm c bm s) as Hr.
    pose proof (generateShader_Ok_programmable P nm c bm s) as Hp.
    destruct (generateShader P nm c bm s) as [[info|e|msg] s1];
      simpl in Hv; unfold registry_view in Hv.
    + right. exists info.
      assert (m_shaderinfo_cache s1 = m_shaderinfo_cache s) as Ht by congruence.
      repeat split; try reflexivity.
      * now apply (Hp info s1).
      * now apply (Hp info s1).
      * state_simpl. now rewrite Ht.
      * now apply (Hr info s1).
      * state_simpl. now rewrite Ht.
    + left. split; [simpl; congruence | intros id; discriminate].
    + left. split; [simpl; congruence | intros id; discriminate].
  - rewrite (getShaderIdDirect_rejected _ _ _ _ _ _ He Hf Hc). left.
    split; [reflexivity|]. intros id [= <-]. now left.
Qed.

Lemma getShader_effect P caller nm c bm s :
  let r := getShader P caller nm c bm s in
  (m_shaderinfo_cache r.2 = m_shaderinfo_cache s
   /\ forall id, r.1 = Ok id ->
        id = 0
        \/ exists i, find_shader (m_shaderinfo_cache s) 0 nm bm c = Some i
                     /\ id = Z.of_nat i /\ empty nm = false)
  \/ (exists info,
        empty nm = false
        /\ caller = m_main_thread s
        /\ find_shader (m_shaderinfo_cache s) 0 nm bm c = None
        /\ programmable_material bm
        /\ m_shaderinfo_cache r.2 = (m_shaderinfo_cache s ++ [info])%list
        /\ record_key info = (nm, c, bm)
        /\ r.1 = Ok (to_u32 (Z.of_nat (length (m_shaderinfo_cache s))))).
Proof.
  destruct (Nat.eq_dec caller (m_main_thread s)) as [->|Hc].
  - rewrite getShader_main. apply getShaderIdDirect_effect.
  - cbv zeta. rewrite (getShader_rejected _ _ _ _ _ _ Hc). left.
    split; [reflexivity|]. intros id [= <-]. now left.
Qed.

Lemma getShaderInfo_lookup s i info :
  m_shaderinfo_cache s !! i = Some info ->
  getShaderInfo (Z.of_nat i) s = info.
Proof.
  intros H. unfold getShaderInfo. pose proof (lookup_lt_Some _ _ _ H) as Hlt.
  destruct (Z.leb_spec (Z.of_nat (length (m_shaderinfo_cache s))) (Z.of_nat i));
    [lia|].
  rewrite Nat2Z.id. now apply nth_lookup_Some.
Qed.

(** X7.  A request and a lookup compose: when [getShader], called from the
    main thread for a shader with a name, returns an id, [getShaderInfo] of
    that id is a record with the requested name and base material, whose
    constants are those requested or compare equal to them, and the id is
    an index of the table.  The table held fewer than [2^32] records. *)
Theorem getShader_then_getShaderInfo (P : Platform) (s s1 : State)
    (nm : string) (input_const : ShaderConstants)
    (base_mat : E_MATERIAL_TYPE) (id : Z) :
  empty nm = false ->
  table_fits s ->
  getShader P (m_main_thread s) nm input_const base_mat s = (Ok id, s1) ->
  name (getShaderInfo id s1) = nm
  /\ base_material (getShaderInfo id s1) = base_mat
  /\ (input_constants (getShaderInfo id s1) = input_const
      \/ constants_eqb (input_constants (getShaderInfo id s1)) input_const
         = true)
  /\ 0 <= id < Z.of_nat (length (m_shaderinfo_cache s1)).
Proof.
  intros He Hfit H. rewrite getShader_main in H.
  destruct (find_shader (m_shaderinfo_cache s) 0 nm base_mat input_const)
    as [i|] eqn:Hf.
  - rewrite (getShaderIdDirect_hit _ _ _ _ _ _ _ He Hf) in H.
    injection H as <- <-.
    destruct (find_shader_Some _ _ _ _ _ _ Hf) as (_ & (info & Hi & Hm) & _).
    rewrite Nat.sub_0_r in Hi. rewrite (getShaderInfo_lookup _ _ _ Hi).
    apply lookup_lt_Some in Hi.
    unfold shader_matches in Hm.
    apply andb_true_iff in Hm as [Hm Hc]. apply andb_true_iff in Hm as [Hn Hb].
    apply String.eqb_eq in Hn. apply Z.eqb_eq in Hb.
    repeat split; try assumption; try lia. now right.
  - rewrite (getShaderIdDirect_generate _ _ _ _ _ He Hf) in H.
    pose proof (generateShader_registry_view P nm input_const base_mat s) as Hv.
    pose proof (generateShader_returns P nm input_const base_mat s) as Hr.
    destruct (generateShader P nm input_const base_mat s) as [[info|e|msg] s'];
      try discriminate.
    simpl in Hv. unfold registry_view in Hv.
    assert (m_shaderinfo_cache s' = m_shaderinfo_cache s) as Ht by congruence.
    specialize (Hr info s' eq_refl). unfold record_key in Hr.
    injection Hr as Hn Hc Hb.
    injection H as <- <-. rewrite Ht.
    unfold table_fits in Hfit.
    destruct (to_u32_succ (Z.of_nat (length (m_shaderinfo_cache s))))
      as [-> _]; [lia|].
    assert (m_shaderinfo_cache
              (set_shaderinfo_cache (m_shaderinfo_cache s ++ [info]) s')
              !! length (m_shaderinfo_cache s) = Some info) as Hi.
    { state_simpl. rewrite lookup_app_r by lia. now rewrite Nat.sub_diag. }
    rewrite (getShaderInfo_lookup _ _ _ Hi). state_simpl.
    rewrite length_app. cbn [length].
    repeat split; try assumption; try lia. now left.
Qed.

Lemma getShader_then_getShaderInfo_witness :
  empty "a" = false
  /\ table_fits fresh_registry
  /\ name (getShaderInfo 1 registry_with_a) = "a".
Proof.
  assert (empty "a" = false) as H1 by reflexivity.
  assert (table_fits fresh_registry) as H2 by (unfold table_fits; simpl; lia).
  assert (getShader null_platform (m_main_thread fresh_registry) "a" ∅
            EMT_SOLID fresh_registry = (Ok 1, registry_with_a)) as H3
    by (apply result_of_outcome; vm_compute; reflexivity).
  split; [exact H1|]. split; [exact H2|].
  exact (proj1 (getShader_then_getShaderInfo null_platform fresh_registry
                  registry_with_a "a" ∅ EMT_SOLID 1 H1 H2 H3)).
Defined.

(** X8.  The table is append-only under requests: after [getShader] or
    [getShaderIdDirect], from any thread and whatever the outcome, every id
    that was valid resolves to the very record it resolved to, compiled
    material included; the table has grown by one record at most, and not at
    all when the call did not return an id. *)
Theorem requests_append_only (P : Platform) (s : State) (caller : thread_id)
    (nm : string) (input_const : ShaderConstants)
    (base_mat : E_MATERIAL_TYPE) (id : Z) :
  0 <= id < Z.of_nat (length (m_shaderinfo_cache s)) ->
  let r1 := getShader P caller nm input_const base_mat s in
  let r2 := getShaderIdDirect P caller nm input_const base_mat s in
  getShaderInfo id r1.2 = getShaderInfo id s
  /\ getShaderInfo id r2.2 = getShaderInfo id s
  /\ (length (m_shaderinfo_cache s) <= length (m_shaderinfo_cache r1.2)
      <= S (length (m_shaderinfo_cache s)))%nat
  /\ (length (m_shaderinfo_cache s) <= length (m_shaderinfo_cache r2.2)
      <= S (length (m_shaderinfo_cache s)))%nat
  /\ ((forall a, r1.1 <> Ok a) ->
      m_shaderinfo_cache r1.2 = m_shaderinfo_cache s)
  /\ ((forall a, r2.1 <> Ok a) ->
      m_shaderinfo_cache r2.2 = m_shaderinfo_cache s).
Proof.
  intros Hid r1 r2.
  assert (forall s', (m_shaderinfo_cache s' = m_shaderinfo_cache s
                      \/ exists info, m_shaderinfo_cache s'
                           = (m_shaderinfo_cache s ++ [info])%list) ->
            getShaderInfo id s' = getShaderInfo id s
            /\ (length (m_shaderinfo_cache s) <= length (m_shaderinfo_cache s')
                <= S (length (m_shaderinfo_cache s)))%nat) as Hsame.
  { intros s' [Ht|(info & Ht)]; unfold getShaderInfo; rewrite Ht.
    - split; [reflexivity | lia].
    - rewrite length_app. cbn [length]. split; [|lia].
      destruct (Z.leb_spec (Z.of_nat (length (m_shaderinfo_cache s) + 1)) id);
        [lia|].
      destruct (Z.leb_spec (Z.of_nat (length (m_shaderinfo_cache s))) id);
        [lia|].
      apply app_nth1. lia. }
  destruct (getShader_effect P caller nm input_const base_mat s)
    as [[Ht1 _]|(i1 & _ & _ & _ & _ & Ht1 & _ & Ho1)];
  destruct (getShaderIdDirect_effect P caller nm input_const base_mat s)
    as [[Ht2 _]|(i2 & _ & _ & _ & _ & Ht2 & _ & Ho2)];
  fold r1 in Ht1; fold r2 in Ht2; try fold r1 in Ho1; try fold r2 in Ho2.
  all: split; [apply Hsame; eauto|].
  all: split; [apply Hsame; eauto|].
  all: split; [apply Hsame; eauto|].
  all: split; [apply Hsame; eauto|].
  all: split; intros Hno; try assumption;
    try (exfalso; now apply (Hno _ Ho1)); try (exfalso; now apply (Hno _ Ho2)).
Qed.

Lemma requests_append_only_witness :
  0 <= 1 < Z.of_nat (length (m_shaderinfo_cache registry_with_a))
  /\ getShaderInfo 1
       (getShader opengl3_platform 7%nat "b" ∅ EMT_SOLID registry_with_a).2
     = getShaderInfo 1 registry_with_a.
Proof.
  assert (0 <= 1 < Z.of_nat (length (m_shaderinfo_cache registry_with_a)))
    as H by (vm_compute; split; [discriminate | reflexivity]).
  split; [exact H|].
  exact (proj1 (requests_append_only opengl3_platform registry_with_a 7%nat
                  "b" ∅ EMT_SOLID 1 H)).
Defined.

(** ** Invariants of the table in the states the registry reaches *)

(** To show a property of the table in every reachable state: it holds of
    the table of a new registry, it is kept when a record with the key of a
    request that no record matched is appended, and it depends on the keys
    of the records only. *)
Lemma reachable_table_invariant (Pr : list ShaderInfo -> Prop) :
  Pr [empty_ShaderInfo] ->
  (forall t info nm c bm,
     Pr t -> empty nm = false -> programmable_material bm ->
     find_shader t 0 nm bm c = None -> record_key info = (nm, c, bm) ->
     Pr (t ++ [info])%list) ->
  (forall t t', Pr t -> record_key <$> t' = record_key <$> t -> Pr t') ->
  forall s, reachable s -> Pr (m_shaderinfo_cache s).
Proof.
  intros Hnew Happ Hkey s Hr.
  induction Hr as [t w
                  |P caller nm c bm s _ IH
                  |P caller nm c bm s _ IH
                  |P caller n f p s _ IH
                  |P s _ IH
                  |setter s _ IH
                  |setter s _ IH
                  |s _ IH]; try exact IH.
  - exact Hnew.
  - destruct (getShader_effect P caller nm c bm s)
      as [[Ht _]|(info & He & _ & Hf & Hp & Ht & Hk & _)]; rewrite Ht;
      [exact IH | now apply (Happ _ _ nm c bm)].
  - destruct (getShaderIdDirect_effect P caller nm c bm s)
      as [[Ht _]|(info & He & _ & Hf & Hp & Ht & Hk & _)]; rewrite Ht;
      [exact IH | now apply (Happ _ _ nm c bm)].
  - pose proof (insertSourceShader_generator_view P caller n f p s) as Hv.
    unfold generator_view, registry_view in Hv.
    replace (m_shaderinfo_cache (insertSourceShader P caller n f p s).2)
      with (m_shaderinfo_cache s) by congruence.
    exact IH.
  - apply (Hkey (m_shaderinfo_cache s)); [exact IH|].
    apply rebuildShaders_keys.
Qed.

Lemma keys_lookup (t t' : list ShaderInfo) i info' :
  record_key <$> t' = record_key <$> t ->
  t' !! i = Some info' ->
  exists info, t !! i = Some info /\ record_key info = record_key info'.
Proof.
  intros Hk Hi.
  assert ((record_key <$> t) !! i = Some (record_key info')) as H
    by (rewrite <- Hk, list_lookup_fmap, Hi; reflexivity).
  rewrite list_lookup_fmap in H.
  destruct (t !! i) as [info|]; [|discriminate].
  exists info. split; [reflexivity|]. cbn in H. congruence.
Qed.

(** X9.  In every state the registry reaches, the record at index 0 is the
    only one without a name, and the base material of every record is one
    the generator accepts: neither [EMT_TRANSPARENT_VERTEX_ALPHA] nor
    [EMT_ONETEXTURE_BLEND]. *)
Theorem reachable_records (s : State) (i : nat) (info : ShaderInfo) :
  reachable s ->
  m_shaderinfo_cache s !! i = Some info ->
  (empty (name info) = true <-> i = 0%nat)
  /\ programmable_material (base_material info).
Proof.
  intros Hr Hi.
  assert ((0 < length (m_shaderinfo_cache s))%nat
          /\ forall i info, m_shaderinfo_cache s !! i = Some info ->
               (empty (name info) = true <-> i = 0%nat)
               /\ programmable_material (base_material info)) as [_ H];
    [|now apply H].
  clear i info Hi. revert s Hr.
  apply (reachable_table_invariant
           (fun t => (0 < length t)%nat
              /\ forall i info, t !! i = Some info ->
                   (empty (name info) = true <-> i = 0%nat)
                   /\ programmable_material (base_material info))).
  - split; [cbn; lia|]. intros [|i] info; [|discriminate]. intros [= <-].
    split; [now split|]. split; discriminate.
  - intros t x nm c bm [Hlen IH] He Hp _ Hk.
    split; [rewrite length_app; lia|]. intros i info Hi.
    apply lookup_app_Some in Hi as [Hi|[Hge Hi]]; [now apply IH|].
    destruct (i - length t)%nat eqn:Hd; [|now destruct n].
    injection Hi as <-. unfold record_key in Hk. injection Hk as Hn _ Hb.
    rewrite Hn, Hb, He. split; [|exact Hp].
    split; [discriminate | lia].
  - intros t t' [Hlen IH] Hk.
    split; [rewrite <- (length_fmap record_key), Hk, length_fmap; exact Hlen|].
    intros i info' Hi.
    destruct (keys_lookup _ _ _ _ Hk Hi) as (info & Hti & Hkey).
    unfold record_key in Hkey. injection Hkey as Hn _ Hb.
    rewrite <- Hn, <- Hb. now apply IH.
Qed.

Lemma reachable_records_witness :
  reachable registry_with_a
  /\ m_shaderinfo_cache registry_with_a !! 1%nat
     = Some {| name := "a"; base_material := EMT_SOLID;
               material := EMT_SOLID; input_constants := ∅ |}
  /\ programmable_material EMT_SOLID.
Proof.
  assert (reachable registry_with_a) as H1
    by (apply reachable_getShader, reachable_new).
  assert (m_shaderinfo_cache registry_with_a !! 1%nat
          = Some {| name := "a"; base_material := EMT_SOLID;
                    material := EMT_SOLID; input_constants := ∅ |}) as H2
    by (vm_compute; reflexivity).
  split; [exact H1|]. split; [exact H2|].
  exact (proj2 (reachable_records registry_with_a 1%nat _ H1 H2)).
Defined.

Lemma no_duplicate_keys s :
  reachable s ->
  forall i j xi xj,
    (i < j)%nat ->
    m_shaderinfo_cache s !! i = Some xi ->
    m_shaderinfo_cache s !! j = Some xj ->
    shader_matches xi (name xj) (base_material xj) (input_constants xj)
    = false.
Proof.
  revert s.
  apply (reachable_table_invariant
           (fun t => forall i j xi xj, (i < j)%nat ->
              t !! i = Some xi -> t !! j = Some xj ->
              shader_matches xi (name xj) (base_material xj)
                (input_constants xj) = false)).
  - intros i [|j] xi xj Hij Hi Hj; [lia | discriminate].
  - intros t x nm c bm IH _ _ Hf Hk i j xi xj Hij Hi Hj.
    apply lookup_app_Some in Hj as [Hj|[Hge Hj]].
    + pose proof (lookup_lt_Some _ _ _ Hj) as Hlt.
      rewrite lookup_app_l in Hi by lia. now apply (IH i j).
    + destruct (j - length t)%nat eqn:Hd; [|now destruct n].
      injection Hj as <-. unfold record_key in Hk. injection Hk as -> -> ->.
      rewrite lookup_app_l in Hi by lia.
      apply (find_shader_None _ _ _ _ _ Hf).
      apply list_elem_of_lookup. now exists i.
  - intros t t' IH Hk i j xi' xj' Hij Hi Hj.
    destruct (keys_lookup _ _ _ _ Hk Hi) as (xi & Hti & Hki).
    destruct (keys_lookup _ _ _ _ Hk Hj) as (xj & Htj & Hkj).
    specialize (IH i j xi xj Hij Hti Htj).
    unfold record_key in Hki, Hkj.
    injection Hki as Hn1 Hc1 Hb1. injection Hkj as Hn2 Hc2 Hb2.
    unfold shader_matches in *. now rewrite <- Hn1, <- Hc1, <- Hb1,
                                            <- Hn2, <- Hc2, <- Hb2.
Qed.

Lemma shader_matches_same_key xi xj nm bm c :
  shader_matches xi nm bm c = true ->
  shader_matches xj nm bm c = true ->
  shader_matches xi (name xj) (base_material xj) (input_constants xj) = true.
Proof.
  unfold shader_matches, constants_eqb. intros Hi Hj.
  apply andb_true_iff in Hi as [Hi Hci]. apply andb_true_iff in Hi as [Hni Hbi].
  apply andb_true_iff in Hj as [Hj Hcj]. apply andb_true_iff in Hj as [Hnj Hbj].
  apply String.eqb_eq in Hni, Hnj. apply Z.eqb_eq in Hbi, Hbj.
  rewrite Hni, Hnj, Hbi, Hbj, String.eqb_refl, Z.eqb_refl. cbn [andb].
  now rewrite (entries_eqb_right _ _ (entries (input_constants xi)) Hcj).
Qed.

(** X10.  In every state the registry reaches no key is held twice: a
    request is matched by one record of the table at most, so that the index
    the scan returns is the only one it could return. *)
Theorem reachable_unique_match (s : State) (i j : nat)
    (xi xj : ShaderInfo) (nm : string) (base_mat : E_MATERIAL_TYPE)
    (input_const : ShaderConstants) :
  reachable s ->
  m_shaderinfo_cache s !! i = Some xi ->
  m_shaderinfo_cache s !! j = Some xj ->
  shader_matches xi nm base_mat input_const = true ->
  shader_matches xj nm base_mat input_const = true ->
  i = j.
Proof.
  intros Hr Hi Hj Hmi Hmj.
  destruct (Nat.lt_trichotomy i j) as [Hlt|[Heq|Hgt]]; [|exact Heq|].
  - pose proof (no_duplicate_keys s Hr i j xi xj Hlt Hi Hj) as Hno.
    now rewrite (shader_matches_same_key _ _ _ _ _ Hmi Hmj) in Hno.
  - pose proof (no_duplicate_keys s Hr j i xj xi Hgt Hj Hi) as Hno.
    now rewrite (shader_matches_same_key _ _ _ _ _ Hmj Hmi) in Hno.
Qed.

Lemma reachable_unique_match_witness :
  reachable registry_with_a
  /\ shader_matches {| name := "a"; base_material := EMT_SOLID;
                       material := EMT_SOLID; input_constants := ∅ |}
       "a" EMT_SOLID ∅ = true
  /\ 1%nat = 1%nat.
Proof.
  assert (reachable registry_with_a) as H1
    by (apply reachable_getShader, reachable_new).
  assert (m_shaderinfo_cache registry_with_a !! 1%nat
          = Some {| name := "a"; base_material := EMT_SOLID;
                    material := EMT_SOLID; input_constants := ∅ |}) as H2
    by (vm_compute; reflexivity).
  assert (shader_matches {| name := "a"; base_material := EMT_SOLID;
                            material := EMT_SOLID; input_constants := ∅ |}
            "a" EMT_SOLID ∅ = true) as H3 by (vm_compute; reflexivity).
  split; [exact H1|]. split; [exact H3|].
  exact (reachable_unique_match registry_with_a 1%nat 1%nat _ _ "a" EMT_SOLID ∅
           H1 H2 H2 H3 H3).
Defined.

(** X11.  Every id a request returns, from any thread and by either entry
    point, is an index of the table as the request leaves it; when it is not
    0, the record it names carries the requested name and base material.
    The state is one the registry reaches, with fewer than [2^32] records. *)
Theorem returned_id_is_valid (P : Platform) (s s1 : State)
    (caller : thread_id) (nm : string) (input_const : ShaderConstants)
    (base_mat : E_MATERIAL_TYPE) (id : Z) :
  reachable s ->
  table_fits s ->
  getShader P caller nm input_const base_mat s = (Ok id, s1)
  \/ getShaderIdDirect P caller nm input_const base_mat s = (Ok id, s1) ->
  0 <= id < Z.of_nat (length (m_shaderinfo_cache s1))
  /\ (id = 0
      \/ (name (getShaderInfo id s1) = nm
          /\ base_material (getShaderInfo id s1) = base_mat)).
Proof.
  intros Hr Hfit Hcall. unfold table_fits in Hfit.
  destruct (reachable_sentinel s Hr) as (x & rest & Hx & _).
  assert ((m_shaderinfo_cache s1 = m_shaderinfo_cache s
           /\ (id = 0
               \/ exists i, find_shader (m_shaderinfo_cache s) 0 nm base_mat
                              input_const = Some i /\ id = Z.of_nat i))
          \/ (exists info,
                m_shaderinfo_cache s1 = (m_shaderinfo_cache s ++ [info])%list
                /\ record_key info = (nm, input_const, base_mat)
                /\ id = to_u32 (Z.of_nat (length (m_shaderinfo_cache s)))))
    as Heff.
  { destruct Hcall as [Hcall|Hcall].
    - destruct (getShader_effect P caller nm input_const base_mat s)
        as [[Ht Ho]|(info & _ & _ & _ & _ & Ht & Hk & Ho)];
        rewrite Hcall in *; cbn [fst snd] in *.
      + left. split; [exact Ht|].
        destruct (Ho id eq_refl) as [->|(i & Hf & -> & _)]; eauto.
      + right. exists info. repeat split; try assumption. congruence.
    - destruct (getShaderIdDirect_effect P caller nm input_const base_mat s)
        as [[Ht Ho]|(info & _ & _ & _ & _ & Ht & Hk & Ho)];
        rewrite Hcall in *; cbn [fst snd] in *.
      + left. split; [exact Ht|].
        destruct (Ho id eq_refl) as [->|(i & Hf & -> & _)]; eauto.
      + right. exists info. repeat split; try assumption. congruence. }
  destruct Heff as [[Ht [->|(i & Hf & ->)]]|(info & Ht & Hk & ->)].
  - rewrite Ht, Hx. cbn [length]. split; [lia | now left].
  - pose proof (find_shader_lt _ _ _ _ _ _ Hf) as Hlt.
    destruct (find_shader_Some _ _ _ _ _ _ Hf) as (_ & (y & Hy & Hm) & _).
    rewrite Nat.sub_0_r, <- Ht in Hy.
    rewrite (getShaderInfo_lookup _ _ _ Hy), Ht.
    split; [lia|]. right.
    unfold shader_matches in Hm.
    apply andb_true_iff in Hm as [Hm _]. apply andb_true_iff in Hm as [Hn Hb].
    apply String.eqb_eq in Hn. apply Z.eqb_eq in Hb. now split.
  - destruct (to_u32_succ (Z.of_nat (length (m_shaderinfo_cache s))))
      as [-> _]; [lia|].
    assert (m_shaderinfo_cache s1 !! length (m_shaderinfo_cache s) = Some info)
      as Hi.
    { rewrite Ht, lookup_app_r by lia. now rewrite Nat.sub_diag. }
    rewrite (getShaderInfo_lookup _ _ _ Hi), Ht, length_app. cbn [length].
    split; [lia|]. right. unfold record_key in Hk. now injection Hk as -> _ ->.
Qed.

Lemma returned_id_is_valid_witness :
  reachable registry_with_a
  /\ table_fits registry_with_a
  /\ 0 <= 1 < Z.of_nat (length (m_shaderinfo_cache registry_with_a)).
Proof.
  assert (reachable registry_with_a) as H1
    by (apply reachable_getShader, reachable_new).
  assert (table_fits registry_with_a) as H2
    by (unfold table_fits; vm_compute; reflexivity).
  assert (getShaderIdDirect opengl3_platform 8%nat "a" ∅ EMT_SOLID
            registry_with_a = (Ok 1, registry_with_a)) as H3
    by (apply (getShaderIdDirect_hit opengl3_platform 8%nat "a" ∅ EMT_SOLID
                 registry_with_a 1%nat); vm_compute; reflexivity).
  split; [exact H1|]. split; [exact H2|].
  exact (proj1 (returned_id_is_valid opengl3_platform registry_with_a
                  registry_with_a 8%nat "a" ∅ EMT_SOLID 1 H1 H2
                  (or_intror H3))).
Defined.

(** ** Releasing the compiled materials *)

Lemma set_gpu_events_same s : set_gpu_events (gpu_events s) s = s.
Proof. now destruct s. Qed.

Lemma delete_all_materials_eq P cache : forall n s,
  0 <= n ->
  n + Z.of_nat (length (named_materials cache)) < 2 ^ 32 ->
  delete_all_materials P cache n s =
  (Ok (n + Z.of_nat (length (named_materials cache))),
   set_gpu_events
     (rev (GpuDelete <$> named_materials cache) ++ gpu_events s) s).
Proof.
  induction cache as [|x rest IH]; intros n s Hn Hlt;
    cbn [delete_all_materials named_materials] in *.
  - cbn. now rewrite Z.add_0_r, set_gpu_events_same.
  - destruct (negb (empty (name x))); cbn [length fmap list_fmap rev] in *.
    + unfold bind, deleteShaderMaterial, modify.
      unfold to_u32. rewrite Z.mod_small by lia.
      rewrite IH by lia. state_simpl.
      rewrite <- app_assoc. cbn [app].
      replace (n + 1 + Z.of_nat (length (named_materials rest)))
        with (n + Z.of_nat (S (length (named_materials rest)))) by lia.
      reflexivity.
    + now apply IH.
Qed.

Lemma named_materials_length cache :
  (length (named_materials cache) <= length cache)%nat.
Proof.
  induction cache as [|x rest IH]; cbn [named_materials length]; [lia|].
  destruct (negb (empty (name x))); cbn [length]; lia.
Qed.

(** X12.  The destructor releases the compiled material of every record that
    has a name, once each and in the order of the table, releases nothing
    for the records without a name, empties the table and reports the number
    of materials released.  The table held fewer than [2^32] records. *)
Theorem ShaderSource_delete_releases (P : Platform) (s : State) :
  has_gpu P = true ->
  table_fits s ->
  ShaderSource_delete P s =
  (Ok tt,
   set_log_lines
     ((infostream,
       "~ShaderSource() cleaned up "
       +:+ put_int (Z.of_nat (length (named_materials (m_shaderinfo_cache s))))
       +:+ " materials") :: log_lines s)
     (set_shaderinfo_cache []
        (set_gpu_events
           (rev (GpuDelete <$> named_materials (m_shaderinfo_cache s))
            ++ gpu_events s) s))).
Proof.
  intros Hg Hfit. unfold table_fits in Hfit.
  pose proof (named_materials_length (m_shaderinfo_cache s)) as Hlen.
  unfold ShaderSource_delete, bind, assert, gets. rewrite Hg. cbn [ret].
  rewrite delete_all_materials_eq by lia. reflexivity.
Qed.

Lemma ShaderSource_delete_releases_witness :
  has_gpu opengl3_platform = true
  /\ table_fits registry_with_a
  /\ gpu_events (ShaderSource_delete opengl3_platform registry_with_a).2
     = [GpuDelete EMT_SOLID].
Proof.
  assert (has_gpu opengl3_platform = true) as H1 by reflexivity.
  assert (table_fits registry_with_a) as H2
    by (unfold table_fits; vm_compute; reflexivity).
  split; [exact H1|]. split; [exact H2|].
  rewrite (ShaderSource_delete_releases opengl3_platform registry_with_a H1 H2).
  vm_compute. reflexivity.
Defined.

Example ShaderSource_delete_fresh :
  gpu_events (ShaderSource_delete opengl3_platform fresh_registry).2 = []
  /\ m_shaderinfo_cache (ShaderSource_delete opengl3_platform fresh_registry).2
     = [].
Proof. vm_compute. split; reflexivity. Qed.

(** ** The GPU calls of a rebuild *)

Lemma delete_materials_eq suf : forall pre s,
  m_shaderinfo_cache s = (pre ++ suf)%list ->
  delete_materials (length suf) (length pre) s =
  (Ok tt,
   set_shaderinfo_cache (pre ++ (invalidated <$> suf))
     (set_gpu_events
        (rev (GpuDelete <$> named_materials suf) ++ gpu_events s) s)).
Proof.
  induction suf as [|x rest IH]; intros pre s Ht.
  - cbn. rewrite app_nil_r in *. rewrite <- Ht. now destruct s.
  - cbn [length delete_materials]. unfold bind at 1, gets at 1.
    rewrite Ht, list_lookup_middle by reflexivity.
    rewrite fmap_cons. unfold invalidated at 1.
    cbn [named_materials].
    unfold bind at 1.
    destruct (negb (empty (name x))) eqn:Hn.
    + unfold bind, deleteShaderMaterial, modify. cbn [fst snd].
      set (x' := {| name := name x; base_material := base_material x;
                    material := EMT_SOLID;
                    input_constants := input_constants x |}).
      set (s2 := set_shaderinfo_cache _ _).
      assert (m_shaderinfo_cache s2 = ((pre ++ [x']) ++ rest)%list) as Ht2.
      { subst s2. state_simpl. rewrite Ht.
        rewrite insert_app_r_alt by lia. rewrite Nat.sub_diag. cbn.
        now rewrite <- app_assoc. }
      replace (S (length pre)) with (length (pre ++ [x']))
        by (rewrite length_app; cbn; lia).
      rewrite (IH _ _ Ht2). subst s2. state_simpl.
      rewrite fmap_cons. cbn [rev]. rewrite <- !app_assoc. reflexivity.
    + cbn [ret].
      assert (m_shaderinfo_cache s = ((pre ++ [x]) ++ rest)%list) as Ht2
        by now rewrite <- app_assoc.
      replace (S (length pre)) with (length (pre ++ [x]))
        by (rewrite length_app; cbn; lia).
      rewrite (IH _ _ Ht2). now rewrite <- !app_assoc.
Qed.

Lemma compiled_since_trans a b c Good :
  compiled_since a b Good -> compiled_since b c Good ->
  compiled_since a c Good.
Proof.
  intros (n1 & H1 & G1) (n2 & H2 & G2). exists (n2 ++ n1)%list.
  split; [now rewrite H2, H1, app_assoc|].
  intros ev Hin. apply elem_of_app in Hin as [Hin|Hin]; eauto.
Qed.

Lemma compiled_since_gpu a b b' Good :
  gpu_events b' = gpu_events b ->
  compiled_since a b Good -> compiled_since a b' Good.
Proof. intros He (n & H & G). exists n. split; [congruence | exact G]. Qed.

Lemma compiled_since_refl a Good : compiled_since a a Good.
Proof. exists []. split; [reflexivity|]. intros ev Hin. inversion Hin. Qed.

Lemma compiled_since_weaken a b (Good Good' : CompileRequest -> Prop) :
  (forall request, Good request -> Good' request) ->
  compiled_since a b Good -> compiled_since a b Good'.
Proof.
  intros HG (n & H & G). exists n. split; [exact H|].
  intros ev Hin. destruct (G ev Hin) as (request & result & -> & Hg). eauto.
Qed.

Lemma recreate_shaders_events P n : forall i s,
  compiled_since s (recreate_shaders P n i s).2 (fun _ => True).
Proof.
  induction n as [|n IH]; intros i s; [apply compiled_since_refl|].
  cbn [recreate_shaders]. unfold bind at 1, gets at 1.
  destruct (m_shaderinfo_cache s !! i) as [info|]; [|apply compiled_since_refl].
  unfold bind at 1.
  destruct (negb (empty (name info))).
  - unfold bind at 1.
    pose proof (generateShader_requests P (name info) (input_constants info)
                  (base_material info) s) as Hg.
    apply (compiled_since_weaken _ _ _ (fun _ => True)) in Hg; [|trivial].
    destruct (generateShader P (name info) (input_constants info)
                (base_material info) s) as [[info'|e|msg] s1];
      cbn [fst snd] in *; try exact Hg.
    unfold modify. cbn [fst snd].
    eapply compiled_since_trans; [|apply IH].
    eapply compiled_since_gpu; [|exact Hg]. reflexivity.
  - cbn. apply IH.
Qed.

(** X13.  A rebuild first releases the compiled material of every record
    that has a name, once each and in the order of the table, and only then
    calls the compiler: whatever its outcome, the calls it has made on the
    GPU services are those releases followed by calls of the compiler only.
    Without GPU programming services it fails its assertion and changes
    nothing. *)
Theorem rebuildShaders_gpu_calls (P : Platform) (s : State) :
  (has_gpu P = true ->
   exists compiles,
     gpu_events (rebuildShaders P s).2 =
     (compiles
      ++ rev (GpuDelete <$> named_materials (m_shaderinfo_cache s))
      ++ gpu_events s)%list
     /\ forall ev, ev ∈ compiles ->
          exists request result, ev = GpuAdd request result)
  /\ (has_gpu P = false -> rebuildShaders P s = (Fatal "gpu", s)).
Proof.
  split; intros Hg; unfold rebuildShaders, bind at 1, assert; rewrite Hg;
    [|reflexivity].
  cbn [ret]. unfold bind at 1, gets at 1. unfold bind at 1.
  pose proof (delete_materials_eq (m_shaderinfo_cache s) [] s eq_refl) as Hd.
  cbn [length app] in Hd. rewrite Hd. clear Hd.
  unfold bind at 1, log, modify. cbn [fst snd].
  set (s2 := set_log_lines _ _).
  destruct (recreate_shaders_events P (length (m_shaderinfo_cache s)) 0 s2)
    as (compiles & He & Hall).
  exists compiles. split.
  - rewrite He. subst s2. reflexivity.
  - intros ev Hin. destruct (Hall ev Hin) as (request & result & -> & _).
    eauto.
Qed.

Example rebuildShaders_gpu_calls_sample :
  let s := (getShader opengl3_platform 7%nat "a" ∅ EMT_SOLID fresh_registry).2 in
  match gpu_events (rebuildShaders opengl3_platform s).2 with
  | [GpuAdd _ new; GpuDelete old; GpuAdd _ first] =>
      first = 24 /\ old = 24 /\ new = 26
  | _ => False
  end.
Proof. vm_compute. repeat split. Qed.

(** ** Generation on a driver that compiles shaders *)

Lemma bind_Ok {A B} (m : M A) (k : A -> M B) s a s' :
  m s = (Ok a, s') -> bind m k s = k a s'.
Proof. intros H. unfold bind. now rewrite H. Qed.

Lemma assert_true cond msg s : cond = true -> assert cond msg s = (Ok tt, s).
Proof. now intros ->. Qed.

Lemma log_all_Ok stream texts : forall s,
  exists s', log_all stream texts s = (Ok tt, s').
Proof.
  induction texts as [|t rest IH]; intros s; cbn [log_all]; [now exists s|].
  unfold bind, log, modify. apply IH.
Qed.

Lemma E_DRIVER_TYPE_eqb_neq a b : a <> b -> E_DRIVER_TYPE_eqb a b = false.
Proof. destruct a, b; intros H; try reflexivity; now destruct H. Qed.

Ltac mstep tac := erewrite bind_Ok; [|tac]; cbv beta.

Lemma compile_eq P request s :
  compile P request s =
  (Ok (addHighLevelShaderMaterial P (gpu_events s) request),
   set_gpu_events
     (GpuAdd request (addHighLevelShaderMaterial P (gpu_events s) request)
      :: gpu_events s) s).
Proof. reflexivity. Qed.

(** The end of a failed generation: it writes to the log only, and throws. *)
Lemma failure_tail_state msg v f g e s :
  but_log
    ((log errorstream msg ;;
      dumpShaderProgram warningstream "Vertex" v ;;
      dumpShaderProgram warningstream "Fragment" f ;;
      dumpShaderProgram warningstream "Geometry" g ;;
      @throw ShaderInfo e) s).2 = but_log s.
Proof.
  revert s.
  change (preserves but_log
            (log errorstream msg ;;
             dumpShaderProgram warningstream "Vertex" v ;;
             dumpShaderProgram warningstream "Fragment" f ;;
             dumpShaderProgram warningstream "Geometry" g ;;
             @throw ShaderInfo e)).
  repeat (apply preserves_bind; [|intros]);
    try apply preserves_throw;
    try (apply preserves_log; reflexivity);
    unfold dumpShaderProgram; apply preserves_log_all; reflexivity.
Qed.

Lemma failure_tail_outcome msg v f g e s :
  ((log errorstream msg ;;
    dumpShaderProgram warningstream "Vertex" v ;;
    dumpShaderProgram warningstream "Fragment" f ;;
    dumpShaderProgram warningstream "Geometry" g ;;
    @throw ShaderInfo e) s).1 = Throw e.
Proof.
  unfold bind at 1, log, modify.
  unfold dumpShaderProgram.
  destruct (log_all_Ok warningstream (dumpShaderProgram_lines "Vertex" v)
              (set_log_lines ((errorstream, msg) :: log_lines s) s))
    as (s1 & E1).
  unfold bind at 1. rewrite E1.
  destruct (log_all_Ok warningstream (dumpShaderProgram_lines "Fragment" f) s1)
    as (s2 & E2).
  unfold bind at 1. rewrite E2.
  destruct (log_all_Ok warningstream (dumpShaderProgram_lines "Geometry" g) s2)
    as (s3 & E3).
  unfold bind at 1. rewrite E3. reflexivity.
Qed.

(** X14.  On a driver that compiles shaders, with the three stage sources
    of the shader in the source cache, a generation makes one call of the
    compiler and no other call on the GPU services.  The programs it hands
    over are the common header, the header of the stage, the line reset and
    the cached source, the geometry program being left out when its cached
    source is empty; the name it hands over is the log name.  The record
    returned carries the token of the compiler as its material, unless the
    token is -1, in which case the generation throws the ShaderException
    that names the shader.  The caches and the registry's own fields are as
    they were: no file is looked for. *)
Theorem generateShader_compiles (P : Platform) (s : State) (nm : string)
    (input_const : ShaderConstants) (base_mat : E_MATERIAL_TYPE)
    (vertex fragment geometry : string) :
  programmable_material base_mat ->
  getDriverType P <> EDT_NULL ->
  queryFeature_ARB_GLSL P = true ->
  has_gpu P = true ->
  keys_trimmed
    (final_constants P (m_constant_setters s) nm input_const base_mat) = true ->
  m_sourcecache s !! (nm +:+ DIR_DELIM P +:+ "opengl_vertex.glsl")
  = Some vertex ->
  m_sourcecache s !! (nm +:+ DIR_DELIM P +:+ "opengl_fragment.glsl")
  = Some fragment ->
  m_sourcecache s !! (nm +:+ DIR_DELIM P +:+ "opengl_geometry.glsl")
  = Some geometry ->
  let header :=
    common_header P
      (final_constants P (m_constant_setters s) nm input_const base_mat) in
  let request :=
    {| vertex_program :=
         header +:+ vertex_header P +:+ final_header +:+ vertex;
       fragment_program :=
         header +:+ fragment_header P +:+ final_header +:+ fragment;
       geometry_program :=
         if empty geometry then None
         else Some (header +:+ geometry_header +:+ final_header +:+ geometry);
       shader_name := make_log_name P nm input_const;
       callback := m_uniform_factories s;
       request_base_material := base_mat |} in
  let token := addHighLevelShaderMaterial P (gpu_events s) request in
  let r := generateShader P nm input_const base_mat s in
  gpu_events r.2 = GpuAdd request token :: gpu_events s
  /\ r.1 = (if Z.eqb token (-1) then
              Throw (mkShaderException
                (fmtgettext P ("Failed to compile the " +:+ dquote +:+ "%s"
                               +:+ dquote +:+ " shader.")
                   (make_log_name P nm input_const)
                 +:+ gettext P (nl +:+ "Check debug.txt for details.")))
            else
              Ok {| name := nm;
                    base_material := base_mat;
                    material := token;
                    input_constants := input_const |})
  /\ m_sourcecache r.2 = m_sourcecache s
  /\ g_shadername_to_path_cache r.2 = g_shadername_to_path_cache s
  /\ registry_view r.2 = registry_view s.
Proof.
  intros [Hm1 Hm2] Hnull Hglsl Hgpu Htrim Hv Hf Hg header request token r.
  apply Z.eqb_neq in Hm1, Hm2.
  subst r token request. unfold generateShader.
  mstep ltac:(apply assert_true; now rewrite Hm1, Hm2).
  cbv zeta. rewrite (E_DRIVER_TYPE_eqb_neq _ _ Hnull), Hglsl, Hgpu.
  cbn [negb orb].
  mstep ltac:(reflexivity).
  mstep ltac:(apply assert_true; exact Htrim).
  mstep ltac:(apply getOrLoad_hit; exact Hv).
  mstep ltac:(apply getOrLoad_hit; exact Hf).
  mstep ltac:(apply getOrLoad_hit; exact Hg).
  mstep ltac:(reflexivity).
  mstep ltac:(reflexivity).
  mstep ltac:(apply compile_eq). state_simpl.
  fold header.
  destruct (empty geometry) eqn:Hge; cbn [negb];
    (destruct (Z.eqb _ (-1)); cbv iota;
     [ lazymatch goal with
       | |- context [bind (log errorstream ?m)
                       (fun _ => bind (dumpShaderProgram _ _ ?v)
                         (fun _ => bind (dumpShaderProgram _ _ ?f)
                           (fun _ => bind (dumpShaderProgram _ _ ?g)
                             (fun _ => throw ?e)))) ?st] =>
           pose proof (failure_tail_state m v f g e st) as Hst;
           pose proof (failure_tail_outcome m v f g e st) as Hout
       end;
       rewrite Hout;
       split; [exact (f_equal (fun x => snd (fst (fst x))) Hst)|];
       split; [reflexivity|];
       split; [exact (f_equal (fun x => snd (fst x)) Hst)|];
       split; [exact (f_equal snd Hst)
              |exact (f_equal (fun x => fst (fst (fst x))) Hst)]
     | repeat split; reflexivity ]).
Qed.

Lemma generateShader_compiles_witness :
  programmable_material EMT_SOLID
  /\ getDriverType opengl3_platform <> EDT_NULL
  /\ queryFeature_ARB_GLSL opengl3_platform = true
  /\ has_gpu opengl3_platform = true
  /\ keys_trimmed
       (final_constants opengl3_platform
          (m_constant_setters registry_with_sources) "test" ∅ EMT_SOLID) = true
  /\ m_sourcecache registry_with_sources
       !! ("test" +:+ DIR_DELIM opengl3_platform +:+ "opengl_geometry.glsl")
     = Some EmptyString
  /\ match gpu_events
             (generateShader opengl3_platform "test" ∅ EMT_SOLID
                registry_with_sources).2 with
     | [GpuAdd request token] =>
         geometry_program request = None /\ token = 24
         /\ vertex_program request =
            "#version 150" +:+ nl +:+ "#define ENABLE_TONE_MAPPING 0" +:+ nl
            +:+ vertex_header opengl3_platform +:+ "#line 0" +:+ nl
            +:+ "void main() { gl_Position = vec4(0.0); }"
     | _ => False
     end.
Proof.
  assert (programmable_material EMT_SOLID) as H1 by (split; discriminate).
  assert (getDriverType opengl3_platform <> EDT_NULL) as H2 by discriminate.
  assert (queryFeature_ARB_GLSL opengl3_platform = true) as H3 by reflexivity.
  assert (has_gpu opengl3_platform = true) as H4 by reflexivity.
  assert (keys_trimmed
            (final_constants opengl3_platform
               (m_constant_setters registry_with_sources) "test" ∅ EMT_SOLID)
          = true) as H5 by (vm_compute; reflexivity).
  assert (m_sourcecache registry_with_sources
            !! ("test" +:+ DIR_DELIM opengl3_platform +:+ "opengl_vertex.glsl")
          = Some "void main() { gl_Position = vec4(0.0); }") as H6
    by (vm_compute; reflexivity).
  assert (m_sourcecache registry_with_sources
            !! ("test" +:+ DIR_DELIM opengl3_platform
                +:+ "opengl_fragment.glsl")
          = Some "void main() { gl_FragColor = vec4(1.0); }") as H7
    by (vm_compute; reflexivity).
  assert (m_sourcecache registry_with_sources
            !! ("test" +:+ DIR_DELIM opengl3_platform
                +:+ "opengl_geometry.glsl")
          = Some EmptyString) as H8 by (vm_compute; reflexivity).
  split; [exact H1|]. split; [exact H2|]. split; [exact H3|].
  split; [exact H4|]. split; [exact H5|]. split; [exact H8|].
  rewrite (proj1 (generateShader_compiles opengl3_platform
                    registry_with_sources "test" ∅ EMT_SOLID _ _ _
                    H1 H2 H3 H4 H5 H6 H7 H8)).
  vm_compute. repeat split.
Defined.

(** X15.  On a driver that compiles shaders, a constant whose key has
    leading or trailing whitespace, be it requested or written by a setter,
    stops the generation on its assertion before any source is loaded and
    before the compiler is called: the state is as it was. *)
Theorem generateShader_untrimmed_key (P : Platform) (s : State) (nm : string)
    (input_const : ShaderConstants) (base_mat : E_MATERIAL_TYPE) :
  programmable_material base_mat ->
  getDriverType P <> EDT_NULL ->
  queryFeature_ARB_GLSL P = true ->
  has_gpu P = true ->
  keys_trimmed
    (final_constants P (m_constant_setters s) nm input_const base_mat) = false ->
  generateShader P nm input_const base_mat s
  = (Fatal "trim(it.first) == it.first", s).
Proof.
  intros [Hm1 Hm2] Hnull Hglsl Hgpu Htrim.
  apply Z.eqb_neq in Hm1, Hm2. unfold generateShader.
  mstep ltac:(apply assert_true; now rewrite Hm1, Hm2).
  cbv zeta. rewrite (E_DRIVER_TYPE_eqb_neq _ _ Hnull), Hglsl, Hgpu.
  cbn [negb orb].
  mstep ltac:(reflexivity).
  unfold bind, assert. now rewrite Htrim.
Qed.

Lemma generateShader_untrimmed_key_witness :
  programmable_material EMT_SOLID
  /\ getDriverType opengl3_platform <> EDT_NULL
  /\ queryFeature_ARB_GLSL opengl3_platform = true
  /\ has_gpu opengl3_platform = true
  /\ keys_trimmed
       (final_constants opengl3_platform (m_constant_setters fresh_registry)
          "a" (<[" X" := CInt 1]> ∅) EMT_SOLID) = false
  /\ generateShader opengl3_platform "a" (<[" X" := CInt 1]> ∅) EMT_SOLID
       fresh_registry
     = (Fatal "trim(it.first) == it.first", fresh_registry).
Proof.
  assert (programmable_material EMT_SOLID) as H1 by (split; discriminate).
  assert (getDriverType opengl3_platform <> EDT_NULL) as H2 by discriminate.
  assert (queryFeature_ARB_GLSL opengl3_platform = true) as H3 by reflexivity.
  assert (has_gpu opengl3_platform = true) as H4 by reflexivity.
  assert (keys_trimmed
            (final_constants opengl3_platform
               (m_constant_setters fresh_registry) "a"
               (<[" X" := CInt 1]> ∅) EMT_SOLID) = false) as H5
    by (vm_compute; reflexivity).
  split; [exact H1|]. split; [exact H2|]. split; [exact H3|].
  split; [exact H4|]. split; [exact H5|].
  exact (generateShader_untrimmed_key opengl3_platform fresh_registry "a"
           (<[" X" := CInt 1]> ∅) EMT_SOLID H1 H2 H3 H4 H5).
Defined.

(** ** The line of a constant that two setters define *)








(** The vertex program the compiler is handed, on the sample driver, after
    the two setters of "FOO" were registered. *)
Example later_setter_wins_program :
  match gpu_events
          (generateShader opengl3_platform "a" ∅ EMT_SOLID
             (addShaderConstantSetter (setter_FOO 2)
                (addShaderConstantSetter (setter_FOO 1) fresh_registry).2).2).2
  with
  | [GpuAdd request token] =>
      vertex_program request =
      "#version 150" +:+ nl
      +:+ "#define ENABLE_TONE_MAPPING 0" +:+ nl
      +:+ "#define FOO 2" +:+ nl
      +:+ vertex_header opengl3_platform +:+ "#line 0" +:+ nl
      +:+ "void main() {}"
  | _ => False
  end.
Proof. vm_compute. reflexivity. Qed.

(** ** MainShaderConstantSetter *)

Lemma lookup_set_constant_eq key v (c : ShaderConstants) :
  set_constant key v c !! key = Some v.
Proof. apply lookup_insert_eq. Qed.

Lemma lookup_set_constant_ne key key' v (c : ShaderConstants) :
  key <> key' -> set_constant key v c !! key' = c !! key'.
Proof. intros H. now apply lookup_insert_ne. Qed.

Lemma lookup_set_if_ne cond key key' v (c : ShaderConstants) :
  key <> key' -> set_if cond key v c !! key' = c !! key'.
Proof.
  intros H. unfold set_if. destruct cond; [|reflexivity].
  now apply lookup_set_constant_ne.
Qed.

Lemma is_Some_set_constant key key' v (c : ShaderConstants) :
  is_Some (c !! key') -> is_Some (set_constant key v c !! key').
Proof.
  intros H. unfold set_constant.
  destruct (decide (key = key')) as [->|Hne];
    [rewrite lookup_insert_eq; eauto | now rewrite lookup_insert_ne].
Qed.

Lemma is_Some_set_if cond key key' v (c : ShaderConstants) :
  is_Some (c !! key') -> is_Some (set_if cond key v c !! key').
Proof.
  intros H. unfold set_if. destruct cond; [|exact H].
  now apply is_Some_set_constant.
Qed.

Lemma set_if_false key v (c : ShaderConstants) : set_if false key v c = c.
Proof. reflexivity. Qed.

Ltac setter_cases settings :=
  unfold MainShaderConstantSetter; cbv zeta;
  destruct (getBool settings "enable_dynamic_shadows") eqn:Hshadows;
  destruct (getBool settings "enable_bloom") eqn:Hbloom;
  destruct (String.eqb (get settings "antialiasing") "ssaa") eqn:Hssaa.

(** A constant under a name that is not one of the setter's own is handed
    back as it came. *)
Lemma MainShaderConstantSetter_other_key settings nm (c : ShaderConstants) key :
  key ∉ MainShaderConstantSetter_keys ->
  MainShaderConstantSetter settings nm c !! key = c !! key.
Proof.
  intros Hkey.
  assert (forall k, k ∈ MainShaderConstantSetter_keys -> k <> key) as Hne
    by (intros k Hk ->; contradiction).
  setter_cases settings;
    repeat first
      [ rewrite set_if_false
      | rewrite lookup_set_if_ne
          by (apply Hne, list_elem_of_In; simpl; tauto)
      | rewrite lookup_set_constant_ne
          by (apply Hne, list_elem_of_In; simpl; tauto) ];
    reflexivity.
Qed.

(** X16.  [MainShaderConstantSetter] writes under its own fifteen names only:
    a constant under any other name, "ENABLE_NODE_SPECULAR" included, is
    handed back as it came, and no constant it is handed is removed. *)
Theorem MainShaderConstantSetter_frame (settings : Settings) (nm : string)
    (c : ShaderConstants) (key : string) :
  (key ∉ MainShaderConstantSetter_keys ->
   MainShaderConstantSetter settings nm c !! key = c !! key)
  /\ (is_Some (c !! key) ->
      is_Some (MainShaderConstantSetter settings nm c !! key)).
Proof.
  split; [apply MainShaderConstantSetter_other_key|].
  intros Hsome.
    setter_cases settings;
      repeat first [ apply is_Some_set_if | apply is_Some_set_constant ];
      exact Hsome.
Qed.

Lemma MainShaderConstantSetter_frame_witness :
  ("MATERIAL_TYPE" ∉ MainShaderConstantSetter_keys)
  /\ MainShaderConstantSetter shadow_settings "a"
       (<["MATERIAL_TYPE" := CInt 3]> ∅) !! "MATERIAL_TYPE" = Some (CInt 3).
Proof.
  assert ("MATERIAL_TYPE" ∉ MainShaderConstantSetter_keys) as H.
  { intros Hin. apply list_elem_of_In in Hin. simpl in Hin.
    repeat (destruct Hin as [Hin|Hin]; [discriminate|]). exact Hin. }
  split; [exact H|].
  rewrite (proj1 (MainShaderConstantSetter_frame shadow_settings "a"
                    (<["MATERIAL_TYPE" := CInt 3]> ∅) "MATERIAL_TYPE") H).
  apply lookup_insert_eq.
Defined.

Lemma std_max_float_one f :
  let r := std_max_float float_one f in
  (r = float_one \/ SFltb float_one r = true) /\ r <> S754_nan.
Proof.
  unfold std_max_float. destruct (SFltb float_one f) eqn:Hlt; cbn.
  - split; [now right|]. intros ->. discriminate.
  - split; [now left | discriminate].
Qed.

(** X17.  What [MainShaderConstantSetter] writes is clamped.  It always
    defines "ENABLE_TONE_MAPPING", as 0 or 1.  With dynamic shadows enabled
    it defines "SOFTSHADOWRADIUS" as a float that is 1 or greater than 1,
    never a NaN, whatever the setting holds; with "ssaa" antialiasing it
    defines "ENABLE_SSAA" as 1 and "SSAA_SCALE" as an integer that is 2 at
    least. *)
Theorem MainShaderConstantSetter_clamps (settings : Settings) (nm : string)
    (c : ShaderConstants) :
  let r := MainShaderConstantSetter settings nm c in
  (r !! "ENABLE_TONE_MAPPING" = Some (CInt 0)
   \/ r !! "ENABLE_TONE_MAPPING" = Some (CInt 1))
  /\ (getBool settings "enable_dynamic_shadows" = true ->
      exists f, r !! "SOFTSHADOWRADIUS" = Some (CFloat f)
                /\ (f = float_one \/ SFltb float_one f = true)
                /\ is_nan (CFloat f) = false)
  /\ (get settings "antialiasing" = "ssaa" ->
      r !! "ENABLE_SSAA" = Some (CInt 1)
      /\ exists n, r !! "SSAA_SCALE" = Some (CInt n) /\ 2 <= n).
Proof.
  intros r. subst r. split; [|split].
  - setter_cases settings;
      repeat first
        [ rewrite set_if_false
        | rewrite lookup_set_if_ne by discriminate
        | rewrite lookup_set_constant_ne by discriminate ];
      rewrite lookup_set_constant_eq;
      destruct (getBool settings "tone_mapping"); auto.
  - intros Hs.
    exists (std_max_float float_one (getFloat settings "shadow_soft_radius")).
    destruct (std_max_float_one (getFloat settings "shadow_soft_radius"))
      as [Hone Hnan].
    split; [|split; [exact Hone|]].
    + setter_cases settings; try discriminate;
        repeat first
          [ rewrite set_if_false
          | rewrite lookup_set_if_ne by discriminate
          | rewrite lookup_set_constant_ne by discriminate ];
        apply lookup_set_constant_eq.
    + destruct (std_max_float _ _); try reflexivity. now destruct Hnan.
  - intros Ha. apply String.eqb_eq in Ha. split.
    + setter_cases settings; try congruence;
        repeat first
          [ rewrite set_if_false
          | rewrite lookup_set_if_ne by discriminate
          | rewrite lookup_set_constant_ne by discriminate ];
        apply lookup_set_constant_eq.
    + exists (Z.max 2 (getU16 settings "fsaa")). split; [|lia].
      setter_cases settings; try congruence;
        repeat first
          [ rewrite set_if_false
          | rewrite lookup_set_if_ne by discriminate
          | rewrite lookup_set_constant_ne by discriminate ];
        apply lookup_set_constant_eq.
Qed.

Example MainShaderConstantSetter_clamps_sample :
  MainShaderConstantSetter shadow_settings "a" ∅ !! "SOFTSHADOWRADIUS"
  = Some (CFloat float_one)
  /\ MainShaderConstantSetter shadow_settings "a" ∅ !! "SSAA_SCALE"
     = Some (CInt 2).
Proof. vm_compute. split; reflexivity. Qed.

(** ** The comparison of constant sets *)

Lemma SFeqb_refl f : f <> S754_nan -> SFeqb f f = true.
Proof.
  unfold SFeqb, SFcompare. destruct f as [s|s| |s m e]; intros H.
  - reflexivity.
  - now destruct s.
  - now destruct H.
  - destruct s; rewrite Z.compare_refl, Pos.compare_cont_refl; reflexivity.
Qed.

Lemma SFeqb_sym a b : SFeqb a b = SFeqb b a.
Proof.
  destruct (SFeqb a b) eqn:H1, (SFeqb b a) eqn:H2; try reflexivity.
  - destruct (SFeqb_true _ _ H1) as [[<- Hn]|(s1 & s2 & -> & ->)].
    + now rewrite SFeqb_refl in H2.
    + discriminate.
  - destruct (SFeqb_true _ _ H2) as [[<- Hn]|(s1 & s2 & -> & ->)].
    + now rewrite SFeqb_refl in H1.
    + discriminate.
Qed.

Lemma value_eqb_sym a b : value_eqb a b = value_eqb b a.
Proof.
  destruct a, b; simpl; try reflexivity; [apply Z.eqb_sym | apply SFeqb_sym].
Qed.

Lemma value_eqb_refl v : value_eqb v v = negb (is_nan v).
Proof.
  destruct v as [i|f]; simpl; [apply Z.eqb_refl|].
  destruct f; try reflexivity; apply SFeqb_refl; discriminate.
Qed.

Lemma entries_eqb_sym l1 : forall l2, entries_eqb l1 l2 = entries_eqb l2 l1.
Proof.
  induction l1 as [|a l1 IH]; intros [|b l2]; simpl; try reflexivity.
  unfold entry_eqb. now rewrite IH, value_eqb_sym, String.eqb_sym.
Qed.

Lemma entries_eqb_refl l :
  entries_eqb l l = true <-> Forall (fun it => is_nan it.2 = false) l.
Proof.
  induction l as [|a l IH]; simpl; [split; [constructor | reflexivity]|].
  unfold entry_eqb. rewrite String.eqb_refl, value_eqb_refl. cbn [andb].
  rewrite andb_true_iff, IH, negb_true_iff. split.
  - intros [Ha Hl]. now constructor.
  - intros H. inversion H; subst. now split.
Qed.

Lemma constants_eqb_refl (c : ShaderConstants) :
  constants_eqb c c = true <-> no_nan c.
Proof.
  unfold constants_eqb, no_nan. rewrite entries_eqb_refl, Forall_forall.
  split.
  - intros H key v Hk. apply (H (key, v)). now apply elem_of_entries.
  - intros H [key v] Hin. apply (H key v). now apply elem_of_entries.
Qed.

(** X18.  The comparison of constant sets the scan makes is symmetric and
    transitive, and a set compares equal to itself exactly when none of its
    constants is a float holding a NaN.  Sets that compare equal have the
    same keys, with values that compare equal under each. *)
Theorem constants_eqb_partial_equivalence (c1 c2 c3 : ShaderConstants) :
  constants_eqb c1 c2 = constants_eqb c2 c1
  /\ (constants_eqb c1 c2 = true -> constants_eqb c2 c3 = true ->
      constants_eqb c1 c3 = true)
  /\ (constants_eqb c1 c1 = true <-> no_nan c1)
  /\ (constants_eqb c1 c2 = true ->
      forall key,
        match c1 !! key, c2 !! key with
        | Some v1, Some v2 => value_eqb v1 v2 = true
        | None, None => True
        | _, _ => False
        end).
Proof.
  split; [apply entries_eqb_sym|]. split; [|split; [apply constants_eqb_refl|]].
  - unfold constants_eqb. intros H12 H23.
    now rewrite (entries_eqb_left _ _ (entries c3) H12).
  - intros H key.
    assert (constants_eqb c2 c1 = true) as H'
      by (unfold constants_eqb in *; now rewrite entries_eqb_sym).
    destruct (c1 !! key) as [v1|] eqn:H1.
    + destruct (constants_eqb_lookup _ _ key v1 H H1) as (v2 & -> & Hv).
      exact Hv.
    + destruct (c2 !! key) as [v2|] eqn:H2; [|exact I].
      destruct (constants_eqb_lookup _ _ key v2 H' H2) as (v1 & Hv1 & _).
      congruence.
Qed.

Example constants_eqb_nan :
  constants_eqb (constants_X S754_nan) (constants_X S754_nan) = false
  /\ constants_eqb (constants_X (S754_zero false)) (constants_X (S754_zero true))
     = true.
Proof. vm_compute. split; reflexivity. Qed.

(** ** A key that was requested *)

(** After a request that returned an id, the scan finds the requested key,
    and any key that compares equal to it, under that id. *)
Lemma request_is_found P s s1 nm c1 c2 bm id :
  empty nm = false ->
  table_fits s ->
  constants_eqb c1 c2 = true ->
  getShader P (m_main_thread s) nm c1 bm s = (Ok id, s1) ->
  m_main_thread s1 = m_main_thread s
  /\ exists i, find_shader (m_shaderinfo_cache s1) 0 nm bm c2 = Some i
               /\ id = Z.of_nat i.
Proof.
  intros He Hfit Heq H. rewrite getShader_main in H.
  assert (forall info, shader_matches info nm bm c1
                       = shader_matches info nm bm c2) as Hm
    by (intros info; now apply shader_matches_eq).
  destruct (find_shader (m_shaderinfo_cache s) 0 nm bm c1) as [i|] eqn:Hf.
  - rewrite (getShaderIdDirect_hit _ _ _ _ _ _ _ He Hf) in H.
    injection H as <- <-. split; [reflexivity|]. exists i.
    now rewrite <- (find_shader_ext _ _ _ _ c1 c2 Hm).
  - rewrite (getShaderIdDirect_generate _ _ _ _ _ He Hf) in H.
    pose proof (generateShader_registry_view P nm c1 bm s) as Hv.
    pose proof (generateShader_returns P nm c1 bm s) as Hr.
    destruct (generateShader P nm c1 bm s) as [[info|e|msg] s'];
      try discriminate.
    simpl in Hv. unfold registry_view in Hv.
    assert (m_shaderinfo_cache s' = m_shaderinfo_cache s) as Ht by congruence.
    specialize (Hr info s' eq_refl). unfold record_key in Hr.
    injection Hr as Hn Hc Hb.
    injection H as <- <-. state_simpl. split; [congruence|].
    exists (length (m_shaderinfo_cache s)). rewrite Ht. split.
    + rewrite find_shader_app, <- (find_shader_ext _ _ _ _ c1 c2 Hm), Hf.
      cbn [find_shader]. unfold shader_matches.
      rewrite Hn, Hb, Hc, String.eqb_refl, Z.eqb_refl. cbn [andb].
      now rewrite Heq.
    + unfold table_fits in Hfit.
      now destruct (to_u32_succ (Z.of_nat (length (m_shaderinfo_cache s))))
        as [-> _]; [lia|].
Qed.

(** ** A direct request from another thread *)

(** The scan finds nothing when no record matches. *)
Lemma find_shader_no_match cache : forall i nm bm c,
  (forall info, info ∈ cache -> shader_matches info nm bm c = false) ->
  find_shader cache i nm bm c = None.
Proof.
  induction cache as [|x rest IH]; intros i nm bm c H; [reflexivity|].
  cbn [find_shader]. rewrite (H x) by (apply elem_of_cons; now left).
  apply IH. intros info Hin. apply H. apply elem_of_cons. now right.
Qed.

(** In a state the registry reaches the scan finds a record that matches
    under the index of that very record: no other record matches. *)
Lemma find_shader_reachable s i info nm bm c :
  reachable s ->
  m_shaderinfo_cache s !! i = Some info ->
  shader_matches info nm bm c = true ->
  find_shader (m_shaderinfo_cache s) 0 nm bm c = Some i.
Proof.
  intros Hr Hi Hm.
  destruct (find_shader (m_shaderinfo_cache s) 0 nm bm c) as [j|] eqn:Hf.
  - destruct (find_shader_Some _ _ _ _ _ _ Hf) as (_ & (xj & Hj & Hmj) & _).
    rewrite Nat.sub_0_r in Hj. f_equal.
    destruct (Nat.lt_trichotomy i j) as [Hlt|[Heq|Hgt]]; [|now symmetry|].
    + pose proof (no_duplicate_keys s Hr i j info xj Hlt Hi Hj) as Hno.
      now rewrite (shader_matches_same_key _ _ _ _ _ Hm Hmj) in Hno.
    + pose proof (no_duplicate_keys s Hr j i xj info Hgt Hj Hi) as Hno.
      now rewrite (shader_matches_same_key _ _ _ _ _ Hmj Hm) in Hno.
  - assert (info ∈ m_shaderinfo_cache s) as Hin
      by (apply list_elem_of_lookup; now exists i).
    now rewrite (find_shader_None _ _ _ _ _ Hf info Hin) in Hm.
Qed.

(** C10.  In [getShaderIdDirect] the scan comes before the check of the
    thread.  Called from another thread with a name, in a state the registry
    reaches with fewer than [2^32] records: when a record of the table has
    the requested name, the requested base material and constants that
    compare equal to the requested ones, the call returns the index of that
    record, which is not 0, and changes nothing; only when no record of the
    table does, it returns 0, with one line on the error stream and the
    table as it was.  In particular the id that [getShader] returned to the
    main thread for a key is returned to any other thread that asks for the
    key directly afterwards (the constants holding no NaN). *)
Theorem getShaderIdDirect_from_other_thread (P : Platform) (s : State)
    (caller : thread_id) (nm : string) (input_const : ShaderConstants)
    (base_mat : E_MATERIAL_TYPE) :
  reachable s ->
  table_fits s ->
  caller <> m_main_thread s ->
  empty nm = false ->
  (forall i info,
     m_shaderinfo_cache s !! i = Some info ->
     name info = nm ->
     base_material info = base_mat ->
     constants_eqb (input_constants info) input_const = true ->
     getShaderIdDirect P caller nm input_const base_mat s
     = (Ok (Z.of_nat i), s)
     /\ i <> 0%nat)
  /\ ((forall i info,
         m_shaderinfo_cache s !! i = Some info ->
         name info = nm ->
         base_material info = base_mat ->
         constants_eqb (input_constants info) input_const = false) ->
      getShaderIdDirect P caller nm input_const base_mat s =
      (Ok 0,
       set_log_lines
         ((errorstream,
           "ShaderSource::getShaderIdDirect() called not from main thread")
          :: log_lines s) s))
  /\ (forall P0 s0 id,
        table_fits s0 ->
        constants_eqb input_const input_const = true ->
        getShader P0 (m_main_thread s0) nm input_const base_mat s0
        = (Ok id, s) ->
        getShaderIdDirect P caller nm input_const base_mat s = (Ok id, s)).
Proof.
  intros Hr _ Hc He. split; [|split].
  - intros i info Hi Hn Hb Hcs.
    assert (shader_matches info nm base_mat input_const = true) as Hm.
    { unfold shader_matches.
      now rewrite Hn, Hb, Hcs, String.eqb_refl, Z.eqb_refl. }
    split.
    + apply getShaderIdDirect_hit; [exact He|].
      now apply (find_shader_reachable s i info).
    + intros ->. destruct (reachable_sentinel s Hr) as (x & rest & Ht & Hx).
      rewrite Ht in Hi. injection Hi as ->.
      now rewrite (shader_matches_empty_name _ _ _ _ Hx He) in Hm.
  - intros Hno. apply getShaderIdDirect_rejected; [exact He| |exact Hc].
    apply find_shader_no_match. intros info Hin.
    apply list_elem_of_lookup in Hin as [i Hi].
    unfold shader_matches.
    destruct (String.eqb (name info) nm) eqn:Hn; [|reflexivity].
    destruct (Z.eqb (base_material info) base_mat) eqn:Hb; [|reflexivity].
    apply String.eqb_eq in Hn. apply Z.eqb_eq in Hb.
    now rewrite (Hno i info Hi Hn Hb).
  - intros P0 s0 id Hfit Hrefl H0.
    destruct (request_is_found P0 s0 s nm input_const input_const base_mat id
                He Hfit Hrefl H0) as (_ & i & Hf & ->).
    now apply getShaderIdDirect_hit.
Qed.

Lemma getShaderIdDirect_from_other_thread_witness :
  reachable registry_with_a
  /\ table_fits registry_with_a
  /\ 8%nat <> m_main_thread registry_with_a
  /\ empty "a" = false
  /\ m_shaderinfo_cache registry_with_a !! 1%nat
     = Some {| name := "a"; base_material := EMT_SOLID;
               material := EMT_SOLID; input_constants := ∅ |}
  /\ getShaderIdDirect opengl3_platform 8%nat "a" ∅ EMT_SOLID registry_with_a
     = (Ok 1, registry_with_a).
Proof.
  assert (reachable registry_with_a) as H1
    by (apply reachable_getShader, reachable_new).
  assert (table_fits registry_with_a) as H0
    by (unfold table_fits; vm_compute; reflexivity).
  assert (8%nat <> m_main_thread registry_with_a) as H2 by (vm_compute; lia).
  assert (empty "a" = false) as H3 by reflexivity.
  assert (m_shaderinfo_cache registry_with_a !! 1%nat
          = Some {| name := "a"; base_material := EMT_SOLID;
                    material := EMT_SOLID; input_constants := ∅ |}) as H4
    by (vm_compute; reflexivity).
  split; [exact H1|]. split; [exact H0|]. split; [exact H2|].
  split; [exact H3|]. split; [exact H4|].
  exact (proj1 (proj1 (getShaderIdDirect_from_other_thread opengl3_platform
                         registry_with_a 8%nat "a" ∅ EMT_SOLID H1 H0 H2 H3)
                  1%nat _ H4 eq_refl eq_refl eq_refl)).
Defined.

(** ** The overload by material and draw type *)




Ltac not_main_key :=
  let Hin := fresh "Hin" in
  intros Hin; apply list_elem_of_In in Hin; simpl in Hin;
  repeat (destruct Hin as [Hin|Hin]; [discriminate|]); exact Hin.

(** X20.  The constants a new registry generates with for a shader requested
    by material and draw type: "MATERIAL_TYPE" and "DRAWTYPE" as requested;
    "USE_DISCARD" as 1 for the material types drawn with the alpha channel,
    "USE_DISCARD_REF" as 1 for those drawn with the alpha reference, when the
    driver is fully programmable or its renderer is a GC7000, and neither of
    them otherwise. *)
Theorem type_shader_constants (P : Platform)
    (material_int : MaterialType -> Z) (this_thread : thread_id)
    (world : State) (nm : string) (material_type : MaterialType)
    (drawtype : Z) :
  let constants :=
    final_constants P
      (m_constant_setters (createShaderSource this_thread world)) nm
      (type_constants material_int material_type drawtype)
      (base_material_of material_type) in
  constants !! "MATERIAL_TYPE" = Some (CInt (material_int material_type))
  /\ constants !! "DRAWTYPE" = Some (CInt drawtype)
  /\ constants !! "USE_DISCARD" =
     (if use_discard P
         && Z.eqb (base_material_of material_type) EMT_TRANSPARENT_ALPHA_CHANNEL
      then Some (CInt 1) else None)
  /\ constants !! "USE_DISCARD_REF" =
     (if use_discard P
         && Z.eqb (base_material_of material_type)
              EMT_TRANSPARENT_ALPHA_CHANNEL_REF
      then Some (CInt 1) else None).
Proof.
  intros constants. subst constants.
  unfold final_constants, run_setters. cbn [createShaderSource ShaderSource_new
    m_constant_setters fold_left].
  rewrite !MainShaderConstantSetter_other_key by not_main_key.
  unfold discard_constants, type_constants, set_constant.
  destruct (use_discard P); destruct material_type; cbn;
    repeat first [ rewrite lookup_insert_eq
                 | rewrite lookup_insert_ne by discriminate
                 | rewrite lookup_empty ];
    repeat split.
Qed.

Example type_shader_constants_lines :
  define_lines opengl3_platform
    (final_constants opengl3_platform (m_constant_setters fresh_registry)
       "nodes_shader" (type_constants sample_material_int TILE_MATERIAL_ALPHA 2)
       (base_material_of TILE_MATERIAL_ALPHA))
  = ["#define DRAWTYPE 2" +:+ nl; "#define ENABLE_TONE_MAPPING 0" +:+ nl;
     "#define MATERIAL_TYPE 1" +:+ nl; "#define USE_DISCARD 1" +:+ nl].
Proof. vm_compute. reflexivity. Qed.

(** ** dumpShaderProgram *)

Lemma split_lines_cons program : forall current,
  exists piece rest, split_lines program current = piece :: rest.
Proof.
  induction program as [|c program IH]; intros current; cbn [split_lines].
  - eauto.
  - destruct (Ascii.eqb c char_nl); [eauto | apply IH].
Qed.

Lemma join_lines_cons piece rest :
  rest <> [] -> join_lines (piece :: rest) = piece +:+ nl +:+ join_lines rest.
Proof. destruct rest; [congruence | reflexivity]. Qed.

Lemma join_split_lines program : forall current,
  join_lines (split_lines program current) = current +:+ program.
Proof.
  induction program as [|c program IH]; intros current; cbn [split_lines].
  - cbn. now rewrite append_nil_r.
  - destruct (Ascii.eqb c char_nl) eqn:Hc.
    + apply Ascii.eqb_eq in Hc. subst c.
      destruct (split_lines_cons program EmptyString) as (p & r & Hs).
      rewrite join_lines_cons by (rewrite Hs; discriminate).
      now rewrite IH.
    + rewrite IH, append_assoc. reflexivity.
Qed.

Lemma to_s16_add_l a b : to_s16 (to_s16 a + b) = to_s16 (a + b).
Proof.
  unfold to_s16. f_equal.
  replace ((a + 2 ^ 15) mod 2 ^ 16 - 2 ^ 15 + b + 2 ^ 15)
    with ((a + 2 ^ 15) mod 2 ^ 16 + b) by lia.
  rewrite Z.add_mod_idemp_l by (change (2 ^ 16) with 65536; lia).
  f_equal. lia.
Qed.

Lemma to_s16_small a : - 2 ^ 15 <= a < 2 ^ 15 -> to_s16 a = a.
Proof.
  unfold to_s16. change (2 ^ 15) with 32768. change (2 ^ 16) with 65536.
  intros H. rewrite Z.mod_small by lia. lia.
Qed.

Lemma number_lines_lookup pieces : forall line i piece,
  to_s16 line = line ->
  pieces !! i = Some piece ->
  number_lines line pieces !! i
  = Some (put_int (to_s16 (line + Z.of_nat i)) +:+ ": " +:+ piece).
Proof.
  induction pieces as [|p rest IH]; intros line i piece Hline Hi;
    [discriminate|].
  destruct i as [|i]; cbn [number_lines].
  - injection Hi as ->. cbn. now rewrite Z.add_0_r, Hline.
  - rewrite lookup_cons in Hi. rewrite lookup_cons.
    assert (to_s16 (to_s16 (line + 1)) = to_s16 (line + 1)) as Hidem.
    { pose proof (to_s16_add_l (line + 1) 0) as H0.
      now rewrite !Z.add_0_r in H0. }
    rewrite (IH (to_s16 (line + 1)) i piece Hidem Hi).
    rewrite to_s16_add_l.
    now replace (line + Z.of_nat (S i)) with (line + 1 + Z.of_nat i) by lia.
Qed.

Lemma log_all_lines stream texts : forall s,
  log_all stream texts s =
  (Ok tt,
   set_log_lines (rev (map (fun text => (stream, text)) texts) ++ log_lines s) s).
Proof.
  induction texts as [|t rest IH]; intros s; cbn [log_all map rev].
  - cbn. now destruct s.
  - unfold bind, log, modify. rewrite IH. state_simpl.
    now rewrite <- app_assoc.
Qed.

(** X21.  [dumpShaderProgram] writes to the stream it is given, and changes
    nothing else: a line that names the program, a rule, the pieces of the
    program between its newlines, one per line and in order, each after its
    number, and two closing lines.  The pieces put together again with
    newlines are the program, so nothing of it is lost.  The number of a
    line is its rank from 1 as an [s16]: it is the rank up to line 32767,
    and comes out negative from line 32768 on. *)
Theorem dumpShaderProgram_writes (stream : LogStream)
    (program_type program : string) (s : State) :
  let pieces := split_lines program EmptyString in
  dumpShaderProgram stream program_type program s =
  (Ok tt,
   set_log_lines
     (rev (map (fun text => (stream, text))
             ([program_type +:+ " shader program:";
               "----------------------------------"]
              ++ number_lines 1 pieces
              ++ ["End of " +:+ program_type +:+ " shader program."; " "]))
      ++ log_lines s) s)
  /\ join_lines pieces = program
  /\ (forall i piece,
        pieces !! i = Some piece ->
        number_lines 1 pieces !! i
        = Some (put_int (to_s16 (1 + Z.of_nat i)) +:+ ": " +:+ piece))
  /\ (forall line, 1 <= line <= 32767 -> to_s16 line = line)
  /\ to_s16 32768 = - 32768.
Proof.
  intros pieces. split; [|split; [|split; [|split]]].
  - unfold dumpShaderProgram, dumpShaderProgram_lines. apply log_all_lines.
  - subst pieces. now rewrite join_split_lines.
  - intros i piece Hi. now apply number_lines_lookup.
  - intros line Hline. apply to_s16_small. change (2 ^ 15) with 32768. lia.
  - reflexivity.
Qed.

Example dumpShaderProgram_sample :
  dumpShaderProgram_lines "Vertex" ("a" +:+ nl +:+ "b" +:+ nl)
  = ["Vertex shader program:"; "----------------------------------";
     "1: a"; "2: b"; "3: "; "End of Vertex shader program."; " "].
Proof. vm_compute. reflexivity. Qed.
